(** * eth-wallet-tracker: a shallow embedding of the transaction-analysis
    pipeline ([utils.py], [main.py], [models.py], [config.py]) and the
    properties of it that the specification states.

    Python values are modelled as follows.
    - [str] is [string] (a sequence of 8-bit characters; the code only
      inspects ASCII characters);
    - [int] is [Z];
    - [decimal.Decimal] is [Decimal] below, with the arithmetic of the default
      context (precision 28, ROUND_HALF_EVEN, Emax 999999, Emin -999999,
      traps InvalidOperation, DivisionByZero and Overflow);
    - [float] is an IEEE-754 binary64 number, [spec_float];
    - a raised exception is the [Raise] case of [res];
    - a [dict] whose iteration order matters is an association list in
      insertion order; a JSON row is a [gmap string string];
    - objects that are mutated or copied live in a store ([heap]). *)

From Stdlib Require Import ZArith NArith List String Ascii Bool Lia.
From Stdlib Require Import Floats.SpecFloat.
From Stdlib Require Import DecimalString.
From stdpp Require Import base list gmap strings sorting.

Local Open Scope string_scope.
Local Open Scope list_scope.
Local Open Scope Z_scope.

(* ===================================================================== *)
(** * Exceptions *)
(* ===================================================================== *)

(** The exception classes the modelled code raises or names in an [except]
    clause. [DecInvalidOperation], [DecDivisionByZero] and [DecOverflow] are
    the classes of the [decimal] module. *)
Inductive exn : Type :=
| Exception
| ArithmeticError
| ValueError
| TypeError
| KeyError
| OverflowError
| ZeroDivisionError
| OSError
| DecInvalidOperation
| DecDivisionByZero
| DecOverflow.

Definition exn_eqb (a b : exn) : bool :=
  match a, b with
  | Exception, Exception | ArithmeticError, ArithmeticError
  | ValueError, ValueError | TypeError, TypeError | KeyError, KeyError
  | OverflowError, OverflowError | ZeroDivisionError, ZeroDivisionError
  | OSError, OSError | DecInvalidOperation, DecInvalidOperation
  | DecDivisionByZero, DecDivisionByZero | DecOverflow, DecOverflow => true
  | _, _ => false
  end.

(** [subclass e c]: an exception of class [e] is an instance of [c].
    [decimal.DivisionByZero] derives from [ZeroDivisionError]; the other two
    [decimal] signals derive from [ArithmeticError] only. *)
Definition subclass (e c : exn) : bool :=
  match c with
  | Exception => true
  | ArithmeticError =>
      match e with
      | ArithmeticError | OverflowError | ZeroDivisionError
      | DecInvalidOperation | DecDivisionByZero | DecOverflow => true
      | _ => false
      end
  | ZeroDivisionError =>
      match e with ZeroDivisionError | DecDivisionByZero => true | _ => false end
  | _ => exn_eqb e c
  end.

(** [except (c1, ..., cn)] catches [e]. *)
Definition catches (classes : list exn) (e : exn) : bool :=
  existsb (subclass e) classes.

Inductive res (A : Type) : Type :=
| Ok (a : A)
| Raise (e : exn).
Arguments Ok {A} a.
Arguments Raise {A} e.

Definition rbind {A B} (m : res A) (k : A -> res B) : res B :=
  match m with Ok a => k a | Raise e => Raise e end.

Notation "'let*' x ':=' m 'in' k" := (rbind m (fun x => k))
  (at level 10, x name, m at level 100, k at level 200).

(** [try: body except classes: handler]. *)
Definition try_except {A} (body : res A) (classes : list exn) (handler : res A) : res A :=
  match body with
  | Ok a => Ok a
  | Raise e => if catches classes e then handler else Raise e
  end.

(* ===================================================================== *)
(** * Strings *)
(* ===================================================================== *)

Definition char_in_range (lo hi : nat) (c : ascii) : bool :=
  let n := nat_of_ascii c in ((lo <=? n) && (n <=? hi))%nat.

(** Characters are code points below 256; the upper-case letters among
    them are A-Z and the Latin-1 capitals. *)
Definition is_upper (c : ascii) : bool :=
  char_in_range 65 90 c || char_in_range 192 214 c || char_in_range 216 222 c.
Definition is_digit (c : ascii) : bool := char_in_range 48 57 c.

(** [c.isspace()]. *)
Definition is_space (c : ascii) : bool :=
  char_in_range 9 13 c || char_in_range 28 32 c
  || char_in_range 133 133 c || char_in_range 160 160 c.

(** [str.lower] on one character. *)
Definition lower_char (c : ascii) : ascii :=
  if is_upper c then ascii_of_nat (nat_of_ascii c + 32) else c.

(** [s.lower()]. *)
Fixpoint lower (s : string) : string :=
  match s with
  | EmptyString => EmptyString
  | String c r => String (lower_char c) (lower r)
  end.

(** [s.startswith(p)]. *)
Definition startswith (s p : string) : bool := String.prefix p s.

(** [s[n:]]. *)
Fixpoint string_drop (n : nat) (s : string) : string :=
  match n, s with
  | O, _ => s
  | S n', String _ r => string_drop n' r
  | S _, EmptyString => EmptyString
  end.

(** [s.endswith(suf)]. *)
Definition endswith (s suf : string) : bool :=
  (String.length suf <=? String.length s)%nat
  && String.eqb (string_drop (String.length s - String.length suf) s) suf.

(** [x in xs] for a list of strings. *)
Definition str_in (x : string) (xs : list string) : bool :=
  existsb (String.eqb x) xs.

(** [len(set(s))]: the number of distinct characters of [s]. *)
Definition distinct_chars (s : string) : nat :=
  List.length (nodup ascii_dec (list_ascii_of_string s)).

Definition newline : string := String (ascii_of_nat 10) EmptyString.

Fixpoint lstrip (l : list ascii) : list ascii :=
  match l with
  | c :: r => if is_space c then lstrip r else l
  | [] => []
  end.

(** [s.strip()], on the list of characters. *)
Definition strip (l : list ascii) : list ascii :=
  rev (lstrip (rev (lstrip l))).

(** The longest prefix of [l] whose characters satisfy [p], and the rest. *)
Fixpoint span (p : ascii -> bool) (l : list ascii) : list ascii * list ascii :=
  match l with
  | c :: r => if p c then let '(a, b) := span p r in (c :: a, b) else ([], l)
  | [] => ([], [])
  end.

Definition digit_val (c : ascii) : N := (N_of_ascii c - 48)%N.

(** The value of a list of decimal digits ([0] for the empty list). *)
Definition digits_val (l : list ascii) : N :=
  fold_left (fun acc c => (10 * acc + digit_val c)%N) l 0%N.

Definition char_eqb (a b : ascii) : bool := Ascii.eqb a b.

(** The digits of an [int] literal after its first digit: digits, each
    optionally preceded by one underscore. *)
Fixpoint int_digits (l : list ascii) (acc : N) : option N :=
  match l with
  | [] => Some acc
  | c :: r =>
      if is_digit c then int_digits r (10 * acc + digit_val c)%N
      else if char_eqb c "_" then
        match r with
        | d :: r' => if is_digit d then int_digits r' (10 * acc + digit_val d)%N else None
        | [] => None
        end
      else None
  end.

(** [int(s)] for a string: surrounding whitespace is dropped, then an
    optional sign and decimal digits (single underscores between digits
    allowed); anything else raises [ValueError]. The interpreter's limit on
    the number of digits is not modelled. *)
Definition py_int (s : string) : res Z :=
  let l := strip (list_ascii_of_string s) in
  let '(neg, l) :=
    match l with
    | c :: r =>
        if char_eqb c "-" then (true, r)
        else if char_eqb c "+" then (false, r) else (false, l)
    | [] => (false, l)
    end in
  match l with
  | d :: r =>
      if is_digit d then
        match int_digits r (digit_val d) with
        | Some n => Ok (if neg then - Z.of_N n else Z.of_N n)
        | None => Raise ValueError
        end
      else Raise ValueError
  | [] => Raise ValueError
  end.

(* ===================================================================== *)
(** * Address utilities ([utils.py], lines 21-43 and 174-243) *)
(* ===================================================================== *)

(** The character class [[0-9a-fA-F]]. *)
Definition is_hex_char (c : ascii) : bool :=
  is_digit c || char_in_range 97 102 c || char_in_range 65 70 c.

Fixpoint all_hex (s : string) : bool :=
  match s with
  | EmptyString => true
  | String c r => is_hex_char c && all_hex r
  end.

(** [bool(re.match(r'^[0-9a-fA-F]{40}$', s))]. In Python's [re], [$]
    matches at the end of the string and also just before a newline that
    ends the string, so forty hex digits followed by one newline match. *)
Definition match_hex40 (s : string) : bool :=
  ((String.length s =? 40)%nat && all_hex s)
  || ((String.length s =? 41)%nat && all_hex (substring 0 40 s)
      && String.eqb (string_drop 40 s) newline).

Definition is_valid_ethereum_address (address : string) : bool :=
  if String.eqb address "" then false
  else
    let address := if startswith address "0x" then string_drop 2 address else address in
    match_hex40 address.

Definition normalize_address (address : string) : string :=
  if String.eqb address "" then ""
  else
    let address := lower address in
    if startswith address "0x" then address else "0x" +:+ address.

Definition special_addresses : list string :=
  [ "0x0000000000000000000000000000000000000000";
    "0x000000000000000000000000000000000000dead";
    "0x0000000000000000000000000000000000000001";
    "0x0000000000000000000000000000000000000002";
    "0x0000000000000000000000000000000000000003";
    "0x0000000000000000000000000000000000000004";
    "0x0000000000000000000000000000000000000005";
    "0x0000000000000000000000000000000000000006";
    "0x0000000000000000000000000000000000000007";
    "0x0000000000000000000000000000000000000008";
    "0x0000000000000000000000000000000000000009" ].

Definition known_contracts : list string :=
  [ "0x7a250d5630b4cf539739df2c5dacb4c659f2488d";
    "0x68b3465833fb72a70ecdf485e0e4c7bd8665fc45";
    "0xe592427a0aece92de3edee1f18e0157c05861564";
    "0x3fc91a3afd70395cd496c647d5a6cc9d4b2b7fad";
    "0x1111111254eeb25477b68fb85ed929f73a960582";
    "0x11111254369792b2ca5d084ab5eea397ca8fa48b";
    "0xdef1c0ded9bec7f1a1670819833240f027b25eff";
    "0x881d40237659c251811cec9c364ef91dc08d300c";
    "0x6b175474e89094c44da98b954eedeac495271d0f";
    "0xa0b86a33e6441e3c6cdeaf9bf464c44c78a1f0e9";
    "0x3f5ce5fbfe3e9af3971dd833d26ba9b5c936f0be";
    "0xd551234ae421e3bcba99a0da6d736074f22192ff";
    "0x564286362092d8e7936f0549571a803b203aaced";
    "0xc02aaa39b223fe8d0a0e5c4f27ead9083c756cc2";
    "0x1e0049783f008a0085193e00003d00cd54003c71";
    "0x00000000006c3852cbef3e08e8df289169ede581" ].

(** [is_likely_contract]. No statement of its [try] block can raise on a
    [str] argument, so the [except Exception] handler is never entered and
    the function is total. *)
Definition is_likely_contract (address : string) : bool :=
  let address := normalize_address address in
  if String.eqb address "" || negb (is_valid_ethereum_address address) then false
  else if str_in address special_addresses then true
  else if str_in address known_contracts then true
  else
    let address_no_prefix :=
      if startswith address "0x" then string_drop 2 address else address in
    if (distinct_chars address_no_prefix <=? 4)%nat then true
    else if endswith address_no_prefix "00000" then true
    else if startswith address_no_prefix "00000" then true
    else false.

(* ===================================================================== *)
(** * [decimal.Decimal] under the default context *)
(* ===================================================================== *)

(** A [Decimal] is a sign, a coefficient and an exponent, or an infinity,
    or a NaN (quiet or signaling). The sign and the diagnostic payload of a
    NaN are not represented: nothing in the modelled code observes them. *)
Inductive Decimal : Type :=
| DFinite (sign : bool) (coeff : N) (exp : Z)
| DInf (sign : bool)
| DNaN (signaling : bool).

Module Dec.

Definition prec : Z := 28.
Definition Emax : Z := 999999.
Definition Emin : Z := -999999.
Definition Etiny : Z := Emin - prec + 1.
Definition Etop : Z := Emax - prec + 1.

Definition p10 (k : Z) : N := (10 ^ Z.to_N k)%N.

Fixpoint ndigits_aux (fuel : nat) (n : N) : Z :=
  match fuel with
  | O => 1
  | S f => if (n <? 10)%N then 1 else 1 + ndigits_aux f (n / 10)%N
  end.

(** [len(str(n))]. *)
Definition ndigits (n : N) : Z := ndigits_aux (N.to_nat (N.log2 n)) n.

Definition signedZ (s : bool) (c : N) : Z :=
  if s then - Z.of_N c else Z.of_N c.

Definition is_zero (a : Decimal) : bool :=
  match a with DFinite _ c _ => (c =? 0)%N | _ => false end.

(** [Decimal(n)] for an [int]: exact. *)
Definition of_Z (n : Z) : Decimal := DFinite (n <? 0) (Z.abs_N n) 0.

(** [Decimal._fix]: round a finite number to the context. Rounding is
    half-even on the digits beyond [prec] (or beyond [Etiny] for a
    subnormal); an adjusted exponent above [Emax] raises [Overflow], which
    the default context traps. *)
Definition fix_ (s : bool) (c : N) (e : Z) : res Decimal :=
  if (c =? 0)%N then Ok (DFinite s 0 (Z.min (Z.max e Etiny) Emax))
  else
    let exp_min0 := ndigits c + e - prec in
    if exp_min0 >? Etop then Raise DecOverflow
    else
      let exp_min := Z.max exp_min0 Etiny in
      if e <? exp_min then
        let digits := ndigits c + e - exp_min in
        let '(c1, e1) := if digits <? 0 then (1%N, exp_min - 1) else (c, e) in
        let shift := exp_min - e1 in
        let q := (c1 / p10 shift)%N in
        let r := (c1 mod p10 shift)%N in
        let half := (5 * p10 (shift - 1))%N in
        let up := (half <? r)%N || ((r =? half)%N && N.odd q) in
        let q1 := if up then (q + 1)%N else q in
        let '(q2, e2) :=
          if ndigits q1 >? prec then ((q1 / 10)%N, exp_min + 1) else (q1, exp_min) in
        if e2 >? Etop then Raise DecOverflow else Ok (DFinite s q2 e2)
      else Ok (DFinite s c e).

(** [Decimal._check_nans] of a binary operation: a signaling NaN raises
    [InvalidOperation], a quiet one is the result. *)
Definition check_nans2 (a b : Decimal) : option (res Decimal) :=
  match a, b with
  | DNaN true, _ | _, DNaN true => Some (Raise DecInvalidOperation)
  | DNaN false, _ | _, DNaN false => Some (Ok (DNaN false))
  | _, _ => None
  end.

Definition neg (a : Decimal) : Decimal :=
  match a with
  | DFinite s c e => DFinite (negb s) c e
  | DInf s => DInf (negb s)
  | DNaN sg => DNaN sg
  end.

(** [a + b]: the exact sum at the smaller exponent, rounded by [fix_]. *)
Definition add (a b : Decimal) : res Decimal :=
  match check_nans2 a b with
  | Some r => r
  | None =>
      match a, b with
      | DInf sa, DInf sb => if Bool.eqb sa sb then Ok (DInf sa) else Raise DecInvalidOperation
      | DInf sa, _ => Ok (DInf sa)
      | _, DInf sb => Ok (DInf sb)
      | DFinite sa ca ea, DFinite sb cb eb =>
          let e := Z.min ea eb in
          if (ca =? 0)%N && (cb =? 0)%N then fix_ (sa && sb) 0 e
          else
            let v := signedZ sa (ca * p10 (ea - e)) + signedZ sb (cb * p10 (eb - e)) in
            fix_ (v <? 0) (Z.abs_N v) e
      | _, _ => Ok (DNaN false)
      end
  end.

(** [a - b] is [a + (-b)] once the NaNs are checked. *)
Definition sub (a b : Decimal) : res Decimal :=
  match check_nans2 a b with
  | Some r => r
  | None => add a (neg b)
  end.

Definition mul (a b : Decimal) : res Decimal :=
  match check_nans2 a b with
  | Some r => r
  | None =>
      match a, b with
      | DInf sa, DInf sb => Ok (DInf (xorb sa sb))
      | DInf sa, DFinite sb cb _ =>
          if (cb =? 0)%N then Raise DecInvalidOperation else Ok (DInf (xorb sa sb))
      | DFinite sa ca _, DInf sb =>
          if (ca =? 0)%N then Raise DecInvalidOperation else Ok (DInf (xorb sa sb))
      | DFinite sa ca ea, DFinite sb cb eb => fix_ (xorb sa sb) (ca * cb) (ea + eb)
      | _, _ => Ok (DNaN false)
      end
  end.

(** The loop of [__truediv__] on an exact quotient: drop trailing zeros
    while the exponent is below the ideal one. *)
Fixpoint strip_zeros (fuel : nat) (c : N) (e ideal : Z) : N * Z :=
  match fuel with
  | O => (c, e)
  | S f =>
      if (e <? ideal) && (c mod 10 =? 0)%N
      then strip_zeros f (c / 10)%N (e + 1) ideal
      else (c, e)
  end.

Definition div (a b : Decimal) : res Decimal :=
  match check_nans2 a b with
  | Some r => r
  | None =>
      match a, b with
      | DInf _, DInf _ => Raise DecInvalidOperation
      | DInf sa, DFinite sb _ _ => Ok (DInf (xorb sa sb))
      | DFinite sa _ _, DInf sb => Ok (DFinite (xorb sa sb) 0 Etiny)
      | DFinite sa ca ea, DFinite sb cb eb =>
          let sign := xorb sa sb in
          if (cb =? 0)%N then
            if (ca =? 0)%N then Raise DecInvalidOperation else Raise DecDivisionByZero
          else if (ca =? 0)%N then fix_ sign 0 (ea - eb)
          else
            let shift := ndigits cb - ndigits ca + prec + 1 in
            let e := ea - eb - shift in
            let '(q, r) :=
              if 0 <=? shift then N.div_eucl (ca * p10 shift) cb
              else N.div_eucl ca (cb * p10 (- shift)) in
            let '(q', e') :=
              if (r =? 0)%N then strip_zeros (Z.to_nat (ndigits q)) q e (ea - eb)
              else ((if (q mod 5 =? 0)%N then q + 1 else q)%N, e) in
            fix_ sign q' e'
      | _, _ => Ok (DNaN false)
      end
  end.

(** [Decimal(10) ** n] for an [int] [n]. The power is exact: for [n >= 0]
    it is a one followed by [min n 28] zeros at exponent [n - min n 28],
    rounded by [fix_] to 28 digits; for [n < 0] it is [1E n], which [fix_]
    turns into zero below [Etiny]. From [n = 10^6] on the result is above
    [Emax] and [Overflow] is raised. *)
Definition pow10 (n : Z) : res Decimal :=
  if 1000000 <=? n then Raise DecOverflow
  else if 0 <=? n then
    let zeros := Z.min n prec in
    fix_ false (p10 zeros) (n - zeros)
  else if n <? Etiny - 1 then Ok (DFinite false 0 Etiny)
  else fix_ false 1 n.

(** [a.quantize(Decimal(1E qe), rounding=ROUND_DOWN)]. *)
Definition quantize_down (a : Decimal) (qe : Z) : res Decimal :=
  match a with
  | DNaN true => Raise DecInvalidOperation
  | DNaN false => Ok (DNaN false)
  | DInf _ => Raise DecInvalidOperation
  | DFinite s c e =>
      if negb ((Etiny <=? qe) && (qe <=? Emax)) then Raise DecInvalidOperation
      else if (c =? 0)%N then fix_ s 0 qe
      else
        let adjusted := ndigits c + e - 1 in
        if adjusted >? Emax then Raise DecInvalidOperation
        else if adjusted - qe + 1 >? prec then Raise DecInvalidOperation
        else
          let c' := if qe <=? e then (c * p10 (e - qe))%N else (c / p10 (qe - e))%N in
          if ndigits c' + qe - 1 >? Emax then Raise DecInvalidOperation
          else if ndigits c' >? prec then Raise DecInvalidOperation
          else fix_ s c' qe
  end.

Definition cmp_finite (sa : bool) (ca : N) (ea : Z) (sb : bool) (cb : N) (eb : Z) : comparison :=
  let e := Z.min ea eb in
  Z.compare (signedZ sa (ca * p10 (ea - e))) (signedZ sb (cb * p10 (eb - e))).

(** An ordering comparison ([<], [<=], [>], [>=]); a NaN operand signals
    [InvalidOperation]. *)
Definition cmp (a b : Decimal) : res comparison :=
  match a, b with
  | DNaN _, _ | _, DNaN _ => Raise DecInvalidOperation
  | DInf sa, DInf sb => Ok (if Bool.eqb sa sb then Eq else if sa then Lt else Gt)
  | DInf sa, _ => Ok (if sa then Lt else Gt)
  | _, DInf sb => Ok (if sb then Gt else Lt)
  | DFinite sa ca ea, DFinite sb cb eb => Ok (cmp_finite sa ca ea sb cb eb)
  end.

Definition lt (a b : Decimal) : res bool :=
  let* c := cmp a b in Ok (match c with Lt => true | _ => false end).
Definition le (a b : Decimal) : res bool :=
  let* c := cmp a b in Ok (match c with Gt => false | _ => true end).
Definition gt (a b : Decimal) : res bool :=
  let* c := cmp a b in Ok (match c with Gt => true | _ => false end).
Definition ge (a b : Decimal) : res bool :=
  let* c := cmp a b in Ok (match c with Lt => false | _ => true end).

Definition digits_of (c : N) : string := NilEmpty.string_of_uint (N.to_uint c).

Definition zeros (n : Z) : string :=
  string_of_list_ascii (repeat "0"%char (Z.to_nat n)).

(** [str(a)]: scientific notation unless the exponent is at most 0 and
    more than -6 digits stand left of the point. *)
Definition to_string (a : Decimal) : string :=
  match a with
  | DNaN sg => if sg then "sNaN" else "NaN"
  | DInf s => (if s then "-" else "") +:+ "Infinity"
  | DFinite s c e =>
      let ds := digits_of c in
      let len := Z.of_nat (String.length ds) in
      let leftdigits := e + len in
      let dotplace := if (e <=? 0) && (-6 <? leftdigits) then leftdigits else 1 in
      let mantissa :=
        if dotplace <=? 0 then "0." +:+ zeros (- dotplace) +:+ ds
        else if len <=? dotplace then ds +:+ zeros (dotplace - len)
        else substring 0 (Z.to_nat dotplace) ds +:+ "." +:+ string_drop (Z.to_nat dotplace) ds in
      let x := leftdigits - dotplace in
      let expstr :=
        if x =? 0 then ""
        else "E" +:+ (if x <? 0 then "-" else "+") +:+ digits_of (Z.abs_N x) in
      (if s then "-" else "") +:+ mantissa +:+ expstr
  end.

(** The number alternative of the constructor's pattern: digits with an
    optional fraction (at least one digit in all) and an optional exponent,
    up to the end of the string. *)
Definition parse_number (l : list ascii) : option (N * Z) :=
  let '(ip, r1) := span is_digit l in
  let '(fp, r2) :=
    match r1 with
    | c :: r => if char_eqb c "." then span is_digit r else ([], r1)
    | [] => ([], r1)
    end in
  if (List.length ip + List.length fp =? 0)%nat then None
  else
    let coeff := digits_val (ip ++ fp) in
    let nfrac := Z.of_nat (List.length fp) in
    match r2 with
    | [] => Some (coeff, - nfrac)
    | c :: r3 =>
        if char_eqb (lower_char c) "e" then
          let '(eneg, r4) :=
            match r3 with
            | c' :: r' =>
                if char_eqb c' "-" then (true, r')
                else if char_eqb c' "+" then (false, r') else (false, r3)
            | [] => (false, r3)
            end in
          let '(ed, r5) := span is_digit r4 in
          match ed, r5 with
          | _ :: _, [] =>
              let x := Z.of_N (digits_val ed) in
              Some (coeff, (if eneg then - x else x) - nfrac)
          | _, _ => None
          end
        else None
    end.

(** The special values of the pattern, matched without regard to case:
    [Inf], [Infinity], [NaN] and [sNaN] with optional diagnostic digits. *)
Definition parse_special (s : bool) (l : list ascii) : option Decimal :=
  let w := lower (string_of_list_ascii l) in
  if String.eqb w "inf" || String.eqb w "infinity" then Some (DInf s)
  else if startswith w "nan" then
    match span is_digit (list_ascii_of_string (string_drop 3 w)) with
    | (_, []) => Some (DNaN false)
    | _ => None
    end
  else if startswith w "snan" then
    match span is_digit (list_ascii_of_string (string_drop 4 w)) with
    | (_, []) => Some (DNaN true)
    | _ => None
    end
  else None.

(** [Decimal(s)] for a string: whitespace around it and every underscore
    are dropped; the value is exact (the constructor does not round). A
    string that is no number raises [InvalidOperation] (its condition
    ConversionSyntax is trapped as that class). *)
Definition of_string (s : string) : res Decimal :=
  let l := strip (list_ascii_of_string s) in
  let l := List.filter (fun c => negb (char_eqb c "_")) l in
  let '(sg, l) :=
    match l with
    | c :: r =>
        if char_eqb c "-" then (true, r)
        else if char_eqb c "+" then (false, r) else (false, l)
    | [] => (false, l)
    end in
  match parse_number l with
  | Some (c, e) => Ok (DFinite sg c e)
  | None =>
      match parse_special sg l with
      | Some d => Ok d
      | None => Raise DecInvalidOperation
      end
  end.

End Dec.

(* ===================================================================== *)
(** * [float]: IEEE-754 binary64 *)
(* ===================================================================== *)

Module Flt.

Definition fprec : Z := 53.
Definition femax : Z := 1024.

Definition zero : spec_float := S754_zero false.

(** Conversion of an [int] operand of a float operation; an [int] beyond
    the range of floats raises [OverflowError]. *)
Definition of_Z (n : Z) : res spec_float :=
  match binary_normalize fprec femax n 0 false with
  | S754_infinity _ => Raise OverflowError
  | f => Ok f
  end.

(** The float nearest to [p / q] (ties to even). *)
Definition of_ratio (s : bool) (p q : positive) : spec_float :=
  let '(m, e, l) := SFdiv_core_binary fprec femax (Zpos p) 0 (Zpos q) 0 in
  binary_round_aux fprec femax s m e l.

(** [float(d)] for a [Decimal]: the nearest float to its value; a
    signaling NaN raises [ValueError]. *)
Definition of_decimal (d : Decimal) : res spec_float :=
  match d with
  | DNaN true => Raise ValueError
  | DNaN false => Ok S754_nan
  | DInf s => Ok (S754_infinity s)
  | DFinite s c e =>
      match c with
      | N0 => Ok (S754_zero s)
      | Npos p =>
          if 0 <=? e then
            Ok (binary_normalize fprec femax (Dec.signedZ s (Npos p * Dec.p10 e)) 0 s)
          else
            match Dec.p10 (- e) with
            | Npos q => Ok (of_ratio s p q)
            | N0 => Ok (S754_zero s)
            end
      end
  end.

Definition sub (x y : spec_float) : spec_float := SFsub fprec femax x y.
Definition abs (x : spec_float) : spec_float := SFabs x.
Definition ltb (x y : spec_float) : bool := SFltb x y.
Definition leb (x y : spec_float) : bool := SFleb x y.

(** The literal [0.001]. *)
Definition lit_0_001 : spec_float := of_ratio false 1 1000.

(** [round(x)] with one argument: the nearest [int], ties to even; an
    infinity raises [OverflowError] and a NaN [ValueError]. *)
Definition round (x : spec_float) : res Z :=
  match x with
  | S754_nan => Raise ValueError
  | S754_infinity _ => Raise OverflowError
  | S754_zero _ => Ok 0
  | S754_finite s m e =>
      let v :=
        if 0 <=? e then Zpos m * 2 ^ e
        else
          let d := 2 ^ (- e) in
          let q := Zpos m / d in
          let r := Zpos m mod d in
          match 2 * r ?= d with
          | Lt => q
          | Gt => q + 1
          | Eq => if Z.even q then q else q + 1
          end in
      Ok (if s then - v else v)
  end.

(** [(n, d)] of [as_integer_ratio]: powers of two cancelled. *)
Fixpoint reduce_ratio (m : positive) (e : Z) : positive * Z :=
  match m with
  | xO p => if e <? 0 then reduce_ratio p (e + 1) else (m, e)
  | _ => (m, e)
  end.

(** [Decimal.from_float(x)]: the exact value of the float, the conversion
    a comparison of a [Decimal] with a [float] applies to the float. *)
Definition to_decimal (x : spec_float) : Decimal :=
  match x with
  | S754_nan => DNaN false
  | S754_infinity s => DInf s
  | S754_zero s => DFinite s 0 0
  | S754_finite s m e =>
      let '(n, k) := reduce_ratio m e in
      if 0 <=? k then DFinite s (Npos n * 2 ^ Z.to_N k) 0
      else DFinite s (Npos n * 5 ^ Z.to_N (- k)) k
  end.

Definition same_float (a b : spec_float) : bool :=
  match a, b with
  | S754_finite s m e, S754_finite s' m' e' => Bool.eqb s s' && Pos.eqb m m' && (e =? e')
  | S754_zero s, S754_zero s' => Bool.eqb s s'
  | S754_infinity s, S754_infinity s' => Bool.eqb s s'
  | S754_nan, S754_nan => true
  | _, _ => false
  end.

(** The position of the decimal point of [p / q]: the [k] with
    [10^(k-1) <= p/q < 10^k]. *)
Definition decpt (p q : Z) : Z :=
  let t := Dec.ndigits (Z.to_N p) - Dec.ndigits (Z.to_N q) in
  let ge := if 0 <=? t then q * 10 ^ t <=? p else q <=? p * 10 ^ (- t) in
  if ge then t + 1 else t.

(** The two [n]-digit decimals around [p / q], the nearer one first. *)
Definition candidates (p q k n : Z) : Z * Z :=
  let x := n - k in
  let '(num, den) := if 0 <=? x then (p * 10 ^ x, q) else (p, q * 10 ^ (- x)) in
  let lo := num / den in
  let r := num mod den in
  match 2 * r ?= den with
  | Lt => (lo, lo + 1)
  | Gt => (lo + 1, lo)
  | Eq => if Z.even lo then (lo, lo + 1) else (lo + 1, lo)
  end.

Definition roundtrips (f : spec_float) (c e : Z) : bool :=
  match of_decimal (DFinite false (Z.to_N c) e) with
  | Ok g => same_float g f
  | Raise _ => false
  end.

(** The shortest decimal that converts back to the positive float [f]
    (value [p / q]), nearest to it among the shortest: the digits [repr]
    prints. Seventeen digits always suffice. *)
Fixpoint shortest (fuel : nat) (n : Z) (f : spec_float) (p q k : Z) : Z * Z :=
  match fuel with
  | O => (0, 0)
  | S fu =>
      let '(c1, c2) := candidates p q k n in
      if roundtrips f c1 (k - n) then (c1, k - n)
      else if roundtrips f c2 (k - n) then (c2, k - n)
      else shortest fu (n + 1) f p q k
  end.

(** [Decimal(str(x))]: [str] prints the shortest digits, in positional
    notation with at least one fractional digit when the decimal point
    falls within (-4, 16], and in exponent notation otherwise. *)
Definition repr_decimal (x : spec_float) : Decimal :=
  match x with
  | S754_nan => DNaN false
  | S754_infinity s => DInf s
  | S754_zero s => DFinite s 0 (-1)
  | S754_finite s m e =>
      let f := S754_finite false m e in
      let '(p, q) := if 0 <=? e then (Zpos m * 2 ^ e, 1) else (Zpos m, 2 ^ (- e)) in
      let '(c, x) := shortest 17 1 f p q (decpt p q) in
      let '(d, x') := Dec.strip_zeros 17 (Z.to_N c) x (x + 17) in
      let nd := Dec.ndigits d in
      let dp := nd + x' in
      if (dp <=? -4) || (16 <? dp) then DFinite s d x'
      else if nd <=? dp then DFinite s (d * Dec.p10 (dp - nd) * 10) (-1)
      else DFinite s d x'
  end.

End Flt.

(* ===================================================================== *)
(** * The platform: the C library and the clock *)
(* ===================================================================== *)

(** A moment in time, as its POSIX timestamp. *)
Definition datetime : Type := Z.

(** What the interpreter takes from the platform it runs on. *)
Class Platform : Type := {
  (** [log10] of the C library on a positive finite float. *)
  libm_log10 : spec_float -> spec_float;
  (** [datetime.fromtimestamp]: the range of timestamps it accepts, and
      the exception it raises outside of it, depend on the platform. *)
  fromtimestamp : Z -> res datetime
}.

(** [math.log10]: the library function on a positive finite float;
    [ValueError] at or below zero; infinity and NaN are passed through. *)
Definition math_log10 `{Platform} (x : spec_float) : res spec_float :=
  match x with
  | S754_nan => Ok S754_nan
  | S754_infinity false => Ok x
  | S754_finite false _ _ => Ok (libm_log10 x)
  | _ => Raise ValueError
  end.

(* ===================================================================== *)
(** * Data model ([models.py], [config.py]) *)
(* ===================================================================== *)

Record TokenInfo : Type := {
  name : string;
  symbol : string;
  contract_address : string;
  decimals : Z;
  total_supply : option string
}.

Record WalletTransaction : Type := {
  wallet_address : string;
  tx_hash : string;
  block_number : Z;
  timestamp : datetime;
  token_amount : Decimal;
  token_amount_raw : string;
  direction : string;
  from_address : string;
  to_address : string;
  gas_used : option Z;
  gas_price : option string
}.

(** [WalletAnalysis]; its first field is [wallet_address] in the source. *)
Record WalletAnalysis : Type := {
  wa_wallet_address : string;
  first_transaction : WalletTransaction;
  total_received : Decimal;
  total_sent : Decimal;
  net_position : Decimal;
  transaction_count : Z;
  estimated_eth_cost : option Decimal;
  estimated_usd_value : option Decimal;
  is_likely_buyer : bool;
  is_likely_airdrop : bool
}.

Record TokenAnalysis : Type := {
  token_info : TokenInfo;
  total_transactions : Z;
  unique_wallets : Z;
  earliest_wallets : list WalletAnalysis;
  analysis_date : datetime
}.

(** The fields of [Config] the analysis reads. *)
Record Config : Type := {
  max_early_wallets : Z;
  min_token_amount : spec_float;
  include_likely_airdrops : bool
}.

(* ===================================================================== *)
(** * Numeric conversion ([utils.py], lines 46-66 and 314-401) *)
(* ===================================================================== *)

Definition dec_zero : Decimal := DFinite false 0 0.

Definition wei_to_ether (wei : string) : res Decimal :=
  try_except
    (let* w := Dec.of_string wei in
     Dec.div w (DFinite false 1000000000000000000 0))
    [ValueError; TypeError; ZeroDivisionError]
    (Ok dec_zero).

Definition format_token_amount (amount : Decimal) (decimals : Z) : res Decimal :=
  try_except
    (if decimals =? 0 then Ok amount
     else
       let* divisor := Dec.pow10 decimals in
       let* q := Dec.div amount divisor in
       Dec.quantize_down q (-6))
    [ValueError; TypeError; ZeroDivisionError]
    (Ok dec_zero).

Definition common_amounts : list Z :=
  [100; 200; 500; 1000; 2000; 5000; 10000; 20000; 25000;
   50000; 100000; 200000; 500000; 1000000; 2000000; 5000000;
   10000000; 50000000; 100000000; 500000000; 1000000000].

(** [abs(x - n) < 0.001] for a float [x] and an [int] [n]. *)
Definition float_near (x : spec_float) (n : Z) : res bool :=
  let* nf := Flt.of_Z n in
  Ok (Flt.ltb (Flt.abs (Flt.sub x nf)) Flt.lit_0_001).

(** The loop over [common_amounts]: [true] when an iteration returns. *)
Fixpoint near_common (x : spec_float) (cs : list Z) : res bool :=
  match cs with
  | [] => Ok false
  | c :: r =>
      let* b := float_near x c in
      if b then Ok true else near_common x r
  end.

(** The inner [try] of [is_round_number]: the logarithm test, [false]
    when [ValueError] or [OverflowError] is caught. *)
Definition near_power_of_ten `{Platform} (x : spec_float) : res bool :=
  try_except
    (let* log10_val := math_log10 x in
     let* r := Flt.round log10_val in
     float_near log10_val r)
    [ValueError; OverflowError]
    (Ok false).

Definition is_round_number_body `{Platform} (amount : Decimal) : res bool :=
  let* nonpos := Dec.le amount (Dec.of_Z 0) in
  if nonpos then Ok false
  else
    let amount_str := Dec.to_string amount in
    let* amount_float := Flt.of_decimal amount in
    if endswith amount_str "000000" || endswith amount_str "00000" then Ok true
    else
      let* c := near_common amount_float common_amounts in
      if c then Ok true
      else
        let* l := if Flt.ltb Flt.zero amount_float
                  then near_power_of_ten amount_float else Ok false in
        if l then Ok true
        else if endswith amount_str "9999" || endswith amount_str "99999" then Ok true
        else Ok false.

(** [is_round_number]: the body, with every exception turned into
    [False] by the outer [except Exception]. *)
Definition is_round_number `{Platform} (amount : Decimal) : bool :=
  match is_round_number_body amount with
  | Ok b => b
  | Raise _ => false
  end.

(** [not x] for an optional [int]: [None] and [0] are false values. *)
Definition falsy_int (x : option Z) : bool :=
  match x with Some n => n =? 0 | None => true end.

(** [not x] for an optional [str]: [None] and the empty string. *)
Definition falsy_str (x : option string) : bool :=
  match x with Some s => String.eqb s "" | None => true end.

(** [x <= 0] for the price; comparing [None] with an [int] raises
    [TypeError]. *)
Definition price_le_zero (p : option spec_float) : res bool :=
  match p with
  | Some x => Ok (Flt.leb x Flt.zero)
  | None => Raise TypeError
  end.

Definition estimate_transaction_cost_usd
    (gas_used : option Z) (gas_price : option string)
    (eth_price_usd : option spec_float) : res (option Decimal) :=
  try_except
    (let* stop :=
       if falsy_int gas_used then Ok true
       else if falsy_str gas_price then Ok true
       else price_le_zero eth_price_usd in
     if stop then Ok None
     else
       match gas_used, gas_price, eth_price_usd with
       | Some gu, Some gp, Some price =>
           let* gas_price_ether := wei_to_ether gp in
           let* eth_cost := Dec.mul gas_price_ether (Dec.of_Z gu) in
           let* usd_cost := Dec.mul eth_cost (Flt.repr_decimal price) in
           Ok (Some usd_cost)
       | _, _, _ => Raise TypeError
       end)
    [ValueError; TypeError; OverflowError]
    (Ok None).

(* ===================================================================== *)
(** * Transaction parser ([utils.py], lines 69-128) *)
(* ===================================================================== *)

(** A raw transfer row: the JSON object of the block explorer, whose
    values are strings. *)
Definition raw_tx : Type := gmap string string.

Definition required_fields : list string :=
  ["timeStamp"; "value"; "hash"; "blockNumber"; "from"; "to"].

(** [tx[k]]. *)
Definition getitem (tx : raw_tx) (k : string) : res string :=
  match tx !! k with
  | Some v => Ok v
  | None => Raise KeyError
  end.

Definition has_field (tx : raw_tx) (k : string) : bool :=
  match tx !! k with Some _ => true | None => false end.

(** The body of the loop of [parse_etherscan_transactions] on one row:
    [Ok None] when the row is skipped by a [continue]. *)
Definition parse_row `{Platform} (tx : raw_tx) (token_info : TokenInfo)
    : res (option WalletTransaction) :=
  if negb (forallb (has_field tx) required_fields) then Ok None
  else
    let* ts := getitem tx "timeStamp" in
    let* ts_int := py_int ts in
    let* timestamp := fromtimestamp ts_int in
    let* token_amount_raw := getitem tx "value" in
    let* raw_dec := Dec.of_string token_amount_raw in
    let* token_amount := format_token_amount raw_dec (decimals token_info) in
    let* f := getitem tx "from" in
    let from_addr := normalize_address f in
    let* t := getitem tx "to" in
    let to_addr := normalize_address t in
    if negb (is_valid_ethereum_address from_addr)
       || negb (is_valid_ethereum_address to_addr) then Ok None
    else
      let* h := getitem tx "hash" in
      let* bn := getitem tx "blockNumber" in
      let* bn_int := py_int bn in
      let* gu :=
        match tx !! "gasUsed" with
        | Some g =>
            if String.eqb g "" then Ok None
            else let* n := py_int g in Ok (Some n)
        | None => Ok None
        end in
      Ok (Some {| wallet_address := to_addr;
                  tx_hash := h;
                  block_number := bn_int;
                  timestamp := timestamp;
                  token_amount := token_amount;
                  token_amount_raw := token_amount_raw;
                  direction := "in";
                  from_address := from_addr;
                  to_address := to_addr;
                  gas_used := gu;
                  gas_price := tx !! "gasPrice" |}).

Fixpoint parse_loop `{Platform} (raw : list raw_tx) (token_info : TokenInfo)
    (transactions : list WalletTransaction) : res (list WalletTransaction) :=
  match raw with
  | [] => Ok transactions
  | tx :: rest =>
      match parse_row tx token_info with
      | Ok (Some t) => parse_loop rest token_info (transactions ++ [t])
      | Ok None => parse_loop rest token_info transactions
      | Raise e =>
          if catches [ValueError; KeyError; TypeError; OverflowError] e
          then parse_loop rest token_info transactions
          else Raise e
      end
  end.

Definition parse_etherscan_transactions `{Platform}
    (raw_transactions : list raw_tx) (token_info : TokenInfo)
    : res (list WalletTransaction) :=
  match raw_transactions with
  | [] => Ok []
  | _ => parse_loop raw_transactions token_info []
  end.

(* ===================================================================== *)
(** * Wallet grouper ([utils.py], lines 131-171) *)
(* ===================================================================== *)

(** A [dict] from wallet address to a list, in insertion order (the order
    [items()] iterates in). *)
Definition wallet_dict (A : Type) : Type := list (string * list A).

(** [d[k].append(v)] on a [defaultdict(list)]: a new key goes last. *)
Fixpoint dict_append {A} (k : string) (v : A) (d : wallet_dict A) : wallet_dict A :=
  match d with
  | [] => [(k, [v])]
  | (k', l) :: r =>
      if String.eqb k k' then (k', l ++ [v]) :: r
      else (k', l) :: dict_append k v r
  end.

(** [d.get(k, [])]. *)
Fixpoint dict_get {A} (k : string) (d : wallet_dict A) : list A :=
  match d with
  | [] => []
  | (k', l) :: r => if String.eqb k k' then l else dict_get k r
  end.

Definition set_wallet_address (tx : WalletTransaction) (a : string) : WalletTransaction :=
  {| wallet_address := a; tx_hash := tx_hash tx; block_number := block_number tx;
     timestamp := timestamp tx; token_amount := token_amount tx;
     token_amount_raw := token_amount_raw tx; direction := direction tx;
     from_address := from_address tx; to_address := to_address tx;
     gas_used := gas_used tx; gas_price := gas_price tx |}.

Definition set_direction (tx : WalletTransaction) (d : string) : WalletTransaction :=
  {| wallet_address := wallet_address tx; tx_hash := tx_hash tx;
     block_number := block_number tx; timestamp := timestamp tx;
     token_amount := token_amount tx; token_amount_raw := token_amount_raw tx;
     direction := d; from_address := from_address tx; to_address := to_address tx;
     gas_used := gas_used tx; gas_price := gas_price tx |}.

(** The value of [recipient_tx] once its two fields are assigned. *)
Definition recipient_of (tx : WalletTransaction) : WalletTransaction :=
  set_direction (set_wallet_address tx (to_address tx)) "in".

(** The value of [sender_tx]. *)
Definition sender_of (tx : WalletTransaction) : WalletTransaction :=
  {| wallet_address := from_address tx; tx_hash := tx_hash tx;
     block_number := block_number tx; timestamp := timestamp tx;
     token_amount := token_amount tx; token_amount_raw := token_amount_raw tx;
     direction := "out"; from_address := from_address tx;
     to_address := to_address tx; gas_used := gas_used tx;
     gas_price := gas_price tx |}.

(** ** The grouper on a store of objects

    A [WalletTransaction] is a mutable object: the store maps an address
    to the object's current fields, and the lists hold addresses. *)
Abbreviation loc := nat (only parsing).
Abbreviation heap := (list WalletTransaction) (only parsing).

(** A new object: it gets the next free address. *)
Definition alloc (h : heap) (v : WalletTransaction) : heap * loc :=
  (h ++ [v], List.length h).

(** [obj.field = value]: the object at [l] is replaced by [f] of it. *)
Definition assign (h : heap) (l : loc) (f : WalletTransaction -> WalletTransaction) : heap :=
  match h !! l with
  | Some o => <[l := f o]> h
  | None => h
  end.

(** One iteration of the loop of [group_transactions_by_wallet] on the
    object at address [l]. Nothing in its [try] block raises: the copy and
    the constructor take fields of immutable types, and
    [is_likely_contract] is total. *)
Definition group_step_st (st : heap * wallet_dict loc) (l : loc) : heap * wallet_dict loc :=
  let '(h, d) := st in
  match h !! l with
  | None => (h, d)
  | Some tx =>
      (* recipient_tx = copy.deepcopy(tx) *)
      let '(h, r) := alloc h tx in
      (* recipient_tx.wallet_address = tx.to_address *)
      let h := assign h r (fun o => set_wallet_address o (to_address tx)) in
      (* recipient_tx.direction = 'in' *)
      let h := assign h r (fun o => set_direction o "in") in
      let d := dict_append (to_address tx) r d in
      if negb (is_likely_contract (from_address tx)) then
        (* sender_tx = WalletTransaction(...) *)
        let '(h, s) := alloc h (sender_of tx) in
        (h, dict_append (from_address tx) s d)
      else (h, d)
  end.

Definition group_transactions_by_wallet_st (h : heap) (transactions : list loc)
    : heap * wallet_dict loc :=
  fold_left group_step_st transactions (h, []).

(** ** The grouper on values *)

Definition group_step (d : wallet_dict WalletTransaction) (tx : WalletTransaction)
    : wallet_dict WalletTransaction :=
  let d := dict_append (to_address tx) (recipient_of tx) d in
  if negb (is_likely_contract (from_address tx))
  then dict_append (from_address tx) (sender_of tx) d
  else d.

Definition group_transactions_by_wallet (transactions : list WalletTransaction)
    : wallet_dict WalletTransaction :=
  fold_left group_step transactions [].

(* ===================================================================== *)
(** * Wallet analyzer ([utils.py], lines 246-311) *)
(* ===================================================================== *)

Section Sort.
Context {A : Type} (key : A -> Z).

Fixpoint insert_by_key (x : A) (l : list A) : list A :=
  match l with
  | [] => [x]
  | y :: r => if key x <=? key y then x :: l else y :: insert_by_key x r
  end.

(** [l.sort(key=key)]: the stable sort by [key], ascending (an element
    is put before the elements after it with an equal key). *)
Definition sort_by_key (l : list A) : list A :=
  foldr insert_by_key [] l.
End Sort.

(** The loop that sums the amounts; the inner [except (TypeError,
    ValueError)] skips a record, any other exception leaves the loop. *)
Fixpoint sum_amounts (txs : list WalletTransaction) (total_received total_sent : Decimal)
    : res (Decimal * Decimal) :=
  match txs with
  | [] => Ok (total_received, total_sent)
  | tx :: rest =>
      let step :=
        if String.eqb (direction tx) "in"
        then let* r := Dec.add total_received (token_amount tx) in Ok (r, total_sent)
        else let* s := Dec.add total_sent (token_amount tx) in Ok (total_received, s) in
      match step with
      | Ok (r, s) => sum_amounts rest r s
      | Raise e =>
          if catches [TypeError; ValueError] e
          then sum_amounts rest total_received total_sent
          else Raise e
      end
  end.

(** The [try] block of [analyze_wallet_transactions]. *)
Definition analyze_wallet_body `{Platform} (wallet_address : string)
    (transactions : list WalletTransaction) (config : option Config)
    : res (option WalletAnalysis) :=
  match sort_by_key block_number transactions with
  | [] => Ok None
  | (first_transaction :: _) as transactions =>
      let* totals := sum_amounts transactions dec_zero dec_zero in
      let '(total_received, total_sent) := totals in
      let* net_position := Dec.sub total_received total_sent in
      let* below :=
        match config with
        | Some cfg => Dec.lt total_received (Flt.repr_decimal (min_token_amount cfg))
        | None => Ok false
        end in
      if below then Ok None
      else
        let n := Z.of_nat (List.length transactions) in
        let airdrop :=
          (n =? 1) && String.eqb (direction first_transaction) "in"
          && is_likely_contract (from_address first_transaction)
          && is_round_number total_received in
        let* buyer :=
          if negb airdrop then
            let* positive := Dec.gt total_received (Dec.of_Z 0) in
            if positive then
              Ok (negb (is_round_number total_received)
                  || (1 <? n)
                  || ((n =? 1) && negb (is_likely_contract (from_address first_transaction))))
            else Ok false
          else Ok false in
        Ok (Some {| wa_wallet_address := wallet_address;
                    first_transaction := first_transaction;
                    total_received := total_received;
                    total_sent := total_sent;
                    net_position := net_position;
                    transaction_count := n;
                    estimated_eth_cost := None;
                    estimated_usd_value := None;
                    is_likely_buyer := buyer;
                    is_likely_airdrop := airdrop |})
  end.

(** [analyze_wallet_transactions]: [None] for an empty list, a wallet
    below the threshold, and any exception ([except Exception]). *)
Definition analyze_wallet_transactions `{Platform} (wallet_address : string)
    (transactions : list WalletTransaction) (config : option Config)
    : option WalletAnalysis :=
  match analyze_wallet_body wallet_address transactions config with
  | Ok r => r
  | Raise _ => None
  end.

(* ===================================================================== *)
(** * Ranking and assembly ([main.py], lines 89-164) *)
(* ===================================================================== *)

(** [l[:n]] for an [int] [n]: a negative [n] counts from the end. *)
Definition slice_to {A} (l : list A) (n : Z) : list A :=
  if 0 <=? n then firstn (Z.to_nat n) l
  else firstn (Z.to_nat (Z.of_nat (List.length l) + n)) l.

Definition set_estimated_usd_value (a : WalletAnalysis) (v : option Decimal) : WalletAnalysis :=
  {| wa_wallet_address := wa_wallet_address a;
     first_transaction := first_transaction a;
     total_received := total_received a; total_sent := total_sent a;
     net_position := net_position a; transaction_count := transaction_count a;
     estimated_eth_cost := estimated_eth_cost a;
     estimated_usd_value := v;
     is_likely_buyer := is_likely_buyer a;
     is_likely_airdrop := is_likely_airdrop a |}.

(** The cost estimate of the wallet's first transaction, when its gas
    fields and the price allow one. *)
Definition with_cost (a : WalletAnalysis) (eth_price_usd : spec_float) : res WalletAnalysis :=
  let ft := first_transaction a in
  if negb (falsy_int (gas_used ft)) && negb (falsy_str (gas_price ft))
     && Flt.ltb Flt.zero eth_price_usd
  then
    let* c := estimate_transaction_cost_usd (gas_used ft) (gas_price ft) (Some eth_price_usd) in
    Ok (set_estimated_usd_value a c)
  else Ok a.

(** The loop over [wallet_transactions.items()]: it stops as soon as
    [max_early_wallets] analyses are collected. *)
Fixpoint analysis_loop `{Platform} (items : wallet_dict WalletTransaction)
    (config : Config) (eth_price_usd : spec_float) (wallet_analyses : list WalletAnalysis)
    : res (list WalletAnalysis) :=
  match items with
  | [] => Ok wallet_analyses
  | (wallet_addr, wallet_txs) :: rest =>
      if max_early_wallets config <=? Z.of_nat (List.length wallet_analyses)
      then Ok wallet_analyses
      else
        match analyze_wallet_transactions wallet_addr wallet_txs (Some config) with
        | None => analysis_loop rest config eth_price_usd wallet_analyses
        | Some analysis =>
            let* keep := Dec.ge (total_received analysis)
                                (Flt.to_decimal (min_token_amount config)) in
            if keep then
              let* analysis := with_cost analysis eth_price_usd in
              analysis_loop rest config eth_price_usd (wallet_analyses ++ [analysis])
            else analysis_loop rest config eth_price_usd wallet_analyses
        end
  end.

Definition first_block (a : WalletAnalysis) : Z := block_number (first_transaction a).

(** [analyze_token_interactions], given what its collaborators return:
    the transfer history, the ETH price and the current time. *)
Definition analyze_token_interactions `{Platform} (token_info : TokenInfo)
    (raw_transactions : list raw_tx) (eth_price_usd : spec_float)
    (config : Config) (now : datetime) : res TokenAnalysis :=
  match raw_transactions with
  | [] =>
      Ok {| token_info := token_info; total_transactions := 0;
            unique_wallets := 0; earliest_wallets := [];
            analysis_date := now |}
  | _ =>
      let* transactions := parse_etherscan_transactions raw_transactions token_info in
      let wallet_transactions := group_transactions_by_wallet transactions in
      let* wallet_analyses := analysis_loop wallet_transactions config eth_price_usd [] in
      let wallet_analyses := sort_by_key first_block wallet_analyses in
      Ok {| token_info := token_info;
            total_transactions := Z.of_nat (List.length transactions);
            unique_wallets := Z.of_nat (List.length wallet_transactions);
            earliest_wallets := slice_to wallet_analyses (max_early_wallets config);
            analysis_date := now |}
  end.

(* ===================================================================== *)
(** * A reference platform *)
(* ===================================================================== *)

(** A platform whose [log10] is the correctly rounded one (computed from
    128 bits of the binary logarithm) and whose [fromtimestamp] accepts
    every timestamp. It is the platform the examples are evaluated on. *)
Module RefPlatform.

(** [k] bits of the fraction of [log2 (y / 2^P)] for [y / 2^P] in [1, 2):
    square, and halve when the square reaches 2. *)
Fixpoint log2_frac (k : nat) (P y acc : Z) : Z :=
  match k with
  | O => acc
  | S k' =>
      let y2 := y * y / 2 ^ P in
      if 2 ^ (P + 1) <=? y2 then log2_frac k' P (y2 / 2) (2 * acc + 1)
      else log2_frac k' P y2 (2 * acc)
  end.

(** [floor (log10 2 * 2^200)]. *)
Definition log10_2 : Z :=
  483736552495570264612957885066036017814076813494583656293573.

Definition log10 (x : spec_float) : spec_float :=
  match x with
  | S754_finite false m e =>
      let b := Z.log2 (Zpos m) in
      let y := Zpos m * 2 ^ 256 / 2 ^ b in
      let l2 := (e + b) * 2 ^ 128 + log2_frac 128 256 y 0 in
      let num := l2 * log10_2 in
      match num with
      | Z0 => S754_zero false
      | Zpos p => Flt.of_ratio false p (Z.to_pos (2 ^ 328))
      | Zneg p => Flt.of_ratio true p (Z.to_pos (2 ^ 328))
      end
  | _ => x
  end.

#[export] Instance platform : Platform :=
  {| libm_log10 := log10; fromtimestamp := fun t => Ok t |}.

End RefPlatform.

(* ===================================================================== *)
(** * Properties of the address utilities *)
(* ===================================================================== *)

Section AddressFacts.






Lemma lower_length (s : string) : String.length (lower s) = String.length s.
Proof. induction s as [|c r IH]; simpl; congruence. Qed.






(** [s.startswith(ab)] for a two-character prefix. *)
Lemma startswith_two (a b : ascii) (s : string) :
  startswith s (String a (String b EmptyString)) = true
  <-> exists r, s = String a (String b r).
Proof.
  unfold startswith. split.
  - destruct s as [|c1 [|c2 r]]; simpl; try discriminate.
    + destruct (ascii_dec a c1); discriminate.
    + destruct (ascii_dec a c1) as [->|]; [|discriminate].
      destruct (ascii_dec b c2) as [->|]; [|discriminate].
      intros _. now exists r.
  - intros [r ->]. simpl.
    destruct (ascii_dec a a); [|congruence].
    destruct (ascii_dec b b); [|congruence].
    now destruct r.
Qed.




End AddressFacts.




(* ===================================================================== *)
(** * Properties of the wallet grouper *)
(* ===================================================================== *)

(** The records one transfer [r] contributes to the list of wallet [w]. *)
Definition emitted_for (w : string) (r : WalletTransaction) : list WalletTransaction :=
  (if String.eqb w (to_address r) then [recipient_of r] else [])
  ++ (if negb (is_likely_contract (from_address r)) && String.eqb w (from_address r)
      then [sender_of r] else []).

Definition has_direction (d : string) (t : WalletTransaction) : bool :=
  String.eqb (direction t) d.

(** [a] and [b] describe the same transfer: every field but the wallet
    and the direction agrees. *)
Definition same_transfer (a b : WalletTransaction) : Prop :=
  tx_hash a = tx_hash b /\ block_number a = block_number b
  /\ timestamp a = timestamp b /\ token_amount a = token_amount b
  /\ token_amount_raw a = token_amount_raw b
  /\ from_address a = from_address b /\ to_address a = to_address b
  /\ gas_used a = gas_used b /\ gas_price a = gas_price b.

Section GroupFacts.

Lemma dict_get_append {A} (w k : string) (v : A) (d : wallet_dict A) :
  dict_get w (dict_append k v d)
  = dict_get w d ++ (if String.eqb w k then [v] else []).
Proof.
  induction d as [|[k' l] r IH]; simpl.
  - reflexivity.
  - destruct (String.eqb k k') eqn:Hk; simpl.
    + apply String.eqb_eq in Hk. subst k'.
      destruct (String.eqb w k); [reflexivity | now rewrite app_nil_r].
    + destruct (String.eqb w k') eqn:Hw; [|exact IH].
      apply String.eqb_eq in Hw. subst k'.
      rewrite String.eqb_sym, Hk. now rewrite app_nil_r.
Qed.

Lemma dict_get_group_step (w : string) (d : wallet_dict WalletTransaction)
    (tx : WalletTransaction) :
  dict_get w (group_step d tx) = dict_get w d ++ emitted_for w tx.
Proof.
  unfold group_step, emitted_for.
  destruct (negb (is_likely_contract (from_address tx))); simpl.
  - rewrite !dict_get_append. now rewrite <- app_assoc.
  - rewrite dict_get_append. now rewrite app_nil_r.
Qed.

Lemma dict_get_fold_group (w : string) (txs : list WalletTransaction)
    (d : wallet_dict WalletTransaction) :
  dict_get w (fold_left group_step txs d)
  = dict_get w d ++ flat_map (emitted_for w) txs.
Proof.
  revert d. induction txs as [|tx txs IH]; intros d; simpl.
  - now rewrite app_nil_r.
  - rewrite IH, dict_get_group_step. now rewrite <- app_assoc.
Qed.

End GroupFacts.

(** C4. Grouping a list of records gives each wallet [w], in order of
    arrival, exactly the records [emitted_for w r] of every record [r]:
    under [r.to] one record with direction [in], and under [r.from] one
    record with direction [out] if and only if [r.from] is not a likely
    contract; the [out] record describes the same transfer as [r] and its
    wallet is [r.from]. *)
Theorem grouping_emits_per_record (txs : list WalletTransaction) (w : string)
    (r : WalletTransaction) :
  dict_get w (group_transactions_by_wallet txs) = flat_map (emitted_for w) txs
  /\ List.filter (has_direction "in") (emitted_for (to_address r) r) = [recipient_of r]
  /\ wallet_address (recipient_of r) = to_address r
  /\ same_transfer (recipient_of r) r
  /\ List.filter (has_direction "out") (emitted_for (from_address r) r)
     = (if is_likely_contract (from_address r) then [] else [sender_of r])
  /\ wallet_address (sender_of r) = from_address r
  /\ same_transfer (sender_of r) r
  /\ (forall w', w' <> to_address r -> w' <> from_address r -> emitted_for w' r = []).
Proof.
  split; [apply (dict_get_fold_group w txs [])|].
  split.
  { unfold emitted_for. rewrite String.eqb_refl.
    destruct (negb (is_likely_contract (from_address r))
              && String.eqb (to_address r) (from_address r)); reflexivity. }
  split; [reflexivity|].
  split; [repeat split|].
  split.
  { unfold emitted_for. rewrite String.eqb_refl, andb_true_r.
    destruct (is_likely_contract (from_address r)); simpl;
      destruct (String.eqb (from_address r) (to_address r)); reflexivity. }
  split; [reflexivity|].
  split; [repeat split|].
  intros w' Hto Hfrom. unfold emitted_for.
  apply String.eqb_neq in Hto, Hfrom. now rewrite Hto, Hfrom, andb_false_r.
Qed.

(** ** The grouper allocates every record it emits *)

(** The addresses a dictionary holds, list after list. *)
Definition locs (d : wallet_dict loc) : list loc := concat (map snd d).

Section HeapFacts.

Lemma alloc_lookup_old (h : heap) (v : WalletTransaction) (l : loc) :
  (l < List.length h)%nat -> fst (alloc h v) !! l = h !! l.
Proof. intros Hl. unfold alloc. simpl. now apply lookup_app_l. Qed.

Lemma assign_length (h : heap) (r : loc) f : List.length (assign h r f) = List.length h.
Proof.
  unfold assign. destruct (h !! r); [apply length_insert | reflexivity].
Qed.

Lemma assign_lookup_ne (h : heap) (r l : loc) f :
  l <> r -> assign h r f !! l = h !! l.
Proof.
  intros Hne. unfold assign. destruct (h !! r); [|reflexivity].
  apply list_lookup_insert_ne. congruence.
Qed.

Lemma locs_dict_append (k : string) (v : loc) (d : wallet_dict loc) :
  locs (dict_append k v d) ≡ₚ v :: locs d.
Proof.
  unfold locs. induction d as [|[k' l] r IH]; simpl.
  - reflexivity.
  - destruct (String.eqb k k'); simpl.
    + rewrite <- app_assoc. simpl.
      rewrite (Permutation_middle l (concat (map snd r)) v). reflexivity.
    + rewrite IH. rewrite (Permutation_middle l (concat (map snd r)) v). reflexivity.
Qed.

(** What every iteration of the grouping loop preserves, relative to the
    store [h0] the grouper started from: the objects of [h0] are unchanged,
    and the addresses collected so far are distinct and new. *)
Definition fresh_inv (h0 : heap) (st : heap * wallet_dict loc) : Prop :=
  (List.length h0 <= List.length (fst st))%nat
  /\ (forall l, (l < List.length h0)%nat -> fst st !! l = h0 !! l)
  /\ NoDup (locs (snd st))
  /\ (forall x, x ∈ locs (snd st) ->
        (List.length h0 <= x < List.length (fst st))%nat).

Lemma fresh_inv_step (h0 : heap) (st : heap * wallet_dict loc) (l : loc) :
  fresh_inv h0 st -> fresh_inv h0 (group_step_st st l).
Proof.
  destruct st as [h d]. intros (Hlen & Hold & Hnd & Hrange); simpl in *.
  unfold group_step_st.
  destruct (h !! l) as [tx|] eqn:Hl;
    [|exact (conj Hlen (conj Hold (conj Hnd Hrange)))].
  unfold alloc.
  set (r := List.length h).
  set (h1 := assign (assign (h ++ [tx]) r _) r _).
  assert (Hlen1 : List.length h1 = S (List.length h)).
  { unfold h1. rewrite !assign_length, length_app. simpl. lia. }
  assert (Hold1 : forall x, (x < List.length h)%nat -> h1 !! x = h !! x).
  { intros x Hx. unfold h1.
    rewrite !assign_lookup_ne by (unfold r; lia). now apply lookup_app_l. }
  assert (Hnd1 : NoDup (locs (dict_append (to_address tx) r d))).
  { rewrite locs_dict_append. apply NoDup_cons. split; [|exact Hnd].
    intros Hin. apply Hrange in Hin. unfold r in Hin. lia. }
  assert (Hrange1 : forall x, x ∈ locs (dict_append (to_address tx) r d) ->
            (List.length h0 <= x < List.length h1)%nat).
  { intros x. rewrite locs_dict_append, elem_of_cons. intros [-> | Hin].
    - unfold r. lia.
    - apply Hrange in Hin. lia. }
  destruct (negb (is_likely_contract (from_address tx))).
  - set (s := List.length h1).
    unfold fresh_inv; simpl.
    split; [rewrite length_app; simpl; lia|].
    split.
    { intros x Hx. rewrite lookup_app_l by lia.
      rewrite Hold1 by lia. now apply Hold. }
    split.
    { rewrite locs_dict_append. apply NoDup_cons. split; [|exact Hnd1].
      intros Hin. apply Hrange1 in Hin. unfold s in Hin. lia. }
    intros x. rewrite locs_dict_append, elem_of_cons, length_app. simpl.
    intros [-> | Hin].
    + unfold s. lia.
    + apply Hrange1 in Hin. lia.
  - unfold fresh_inv; simpl.
    split; [lia|].
    split; [intros x Hx; rewrite Hold1 by lia; now apply Hold|].
    split; assumption.
Qed.

Lemma fresh_inv_fold (h0 : heap) (ls : list loc) (st : heap * wallet_dict loc) :
  fresh_inv h0 st -> fresh_inv h0 (fold_left group_step_st ls st).
Proof.
  revert st. induction ls as [|l ls IH]; intros st Hst; simpl; [exact Hst|].
  apply IH, fresh_inv_step, Hst.
Qed.

Lemma fresh_inv_init (h : heap) : fresh_inv h (h, []).
Proof.
  unfold fresh_inv, locs; simpl.
  split; [lia|]. split; [reflexivity|]. split; [constructor|].
  intros x Hx. now apply elem_of_nil in Hx.
Qed.

End HeapFacts.

(** C5. Grouping never aliases. Every record the grouper emits is an
    object of its own: the addresses in the resulting dictionary are
    pairwise distinct and none is an address of the store the grouper was
    given, whose objects grouping leaves as they were. So assigning to a
    field of one emitted record changes neither another emitted record
    (the copy for the other wallet of the same transfer included) nor a
    parsed record. *)
Theorem grouping_never_aliases (h : heap) (transactions : list loc)
    (h' : heap) (d : wallet_dict loc) :
  group_transactions_by_wallet_st h transactions = (h', d) ->
  NoDup (locs d)
  /\ (forall r, r ∈ locs d -> (List.length h <= r < List.length h')%nat)
  /\ (forall l, (l < List.length h)%nat -> h' !! l = h !! l)
  /\ (forall r f, r ∈ locs d ->
        (forall r', r' ∈ locs d -> r' <> r -> assign h' r f !! r' = h' !! r')
        /\ (forall l, (l < List.length h)%nat -> assign h' r f !! l = h !! l)).
Proof.
  intros Hrun.
  pose proof (fresh_inv_fold h transactions (h, []) (fresh_inv_init h)) as Hinv.
  unfold group_transactions_by_wallet_st in Hrun. rewrite Hrun in Hinv.
  destruct Hinv as (Hlen & Hold & Hnd & Hrange); simpl in *.
  split; [exact Hnd|]. split; [exact Hrange|]. split; [exact Hold|].
  intros r f Hr. split.
  - intros r' _ Hne. now apply assign_lookup_ne.
  - intros l Hl. rewrite assign_lookup_ne; [now apply Hold|].
    apply Hrange in Hr. lia.
Qed.

(** ** Sample data for the examples *)

Definition uniswap_v2_router : string := "0x7a250d5630b4cf539739df2c5dacb4c659f2488d".
Definition wallet_a : string := "0x1234567890abcdef1234567890abcdef12345678".
Definition wallet_b : string := "0xabcdef1234567890abcdef1234567890abcdef12".

(** A parsed inbound transfer of [amount] tokens to [to_] in block [bn]. *)
Definition transfer (from_ to_ : string) (bn : Z) (amount : Decimal) : WalletTransaction :=
  {| wallet_address := to_; tx_hash := "0xhash"; block_number := bn;
     timestamp := 1600000000; token_amount := amount;
     token_amount_raw := "1000000000000000000000"; direction := "in";
     from_address := from_; to_address := to_;
     gas_used := Some 21000; gas_price := Some "20000000000" |}.

(** [Decimal('1000.000000')]: a thousand tokens as the parser scales them. *)
Definition thousand_tokens : Decimal := DFinite false 1000000000 (-6).

(** The float [2000.0]. *)
Definition price_2000 : spec_float := S754_finite false 8796093022208000 (-42).

(** The float [5000.0]. *)
Definition float_5000 : spec_float := S754_finite false 5497558138880000 (-40).

Definition default_config : Config :=
  {| max_early_wallets := 50; min_token_amount := S754_zero false;
     include_likely_airdrops := true |}.

(** The grouping theorem on a store that holds one transfer between two
    wallets: two new objects are emitted, at addresses 1 and 2. *)
Lemma grouping_never_aliases_witness :
  let h := [transfer wallet_a wallet_b 100 thousand_tokens] in
  exists h' d,
    group_transactions_by_wallet_st h [0%nat] = (h', d)
    /\ locs d = [1%nat; 2%nat]
    /\ NoDup (locs d)
    /\ (forall l, (l < List.length h)%nat -> h' !! l = h !! l).
Proof.
  eexists _, _. split; [vm_compute; reflexivity|].
  split; [reflexivity|].
  pose proof (grouping_never_aliases
                [transfer wallet_a wallet_b 100 thousand_tokens] [0%nat] _ _
                eq_refl) as (Hnd & _ & Hold & _).
  split; [exact Hnd | exact Hold].
Defined.

(* ===================================================================== *)
(** * Properties of [is_round_number] *)
(* ===================================================================== *)

(** The four signs of a round amount, in the specification's words. The
    value tests are the floating-point tests of the code: [float(amount)]
    is the nearest float, and the differences are float differences. *)

Definition positive_amount (amount : Decimal) : Prop :=
  Dec.gt amount (Dec.of_Z 0) = Ok true.





Section RoundFacts.
Context `{Platform}.










End RoundFacts.


(* ===================================================================== *)
(** * Properties of the decimal arithmetic *)
(* ===================================================================== *)

(** The numbers [fix_] returns: finite, with an exponent and a number of
    digits within the context's bounds. *)
Definition in_context (d : Decimal) : Prop :=
  match d with
  | DFinite _ c e =>
      Dec.Etiny <= e
      /\ ((c = 0%N /\ e <= Dec.Emax)
          \/ ((0 < c)%N /\ Dec.ndigits c <= Dec.prec
              /\ Dec.ndigits c + e - Dec.prec <= Dec.Etop))
  | _ => False
  end.

Section DecimalFacts.

Lemma ndigits_aux_spec (fuel : nat) (n : N) :
  (0 < n)%N -> (n < 10 ^ N.of_nat (S fuel))%N ->
  1 <= Dec.ndigits_aux fuel n
  /\ (10 ^ Z.to_N (Dec.ndigits_aux fuel n - 1) <= n
      < 10 ^ Z.to_N (Dec.ndigits_aux fuel n))%N.
Proof.
  revert n. induction fuel as [|fuel IH]; intros n Hpos Hlt.
  - simpl in *. split; [lia|]. change (Z.to_N (1 - 1)) with 0%N.
    change (Z.to_N 1) with 1%N. rewrite N.pow_0_r, N.pow_1_r. lia.
  - cbn [Dec.ndigits_aux].
    destruct (n <? 10)%N eqn:Hn.
    + apply N.ltb_lt in Hn. split; [lia|].
      change (Z.to_N (1 - 1)) with 0%N. change (Z.to_N 1) with 1%N.
      rewrite N.pow_0_r, N.pow_1_r. lia.
    + apply N.ltb_ge in Hn.
      pose proof (N.div_mod n 10 ltac:(lia)) as Hdm.
      pose proof (N.mod_lt n 10 ltac:(lia)) as Hm.
      assert (Hq : (0 < n / 10)%N) by (apply N.div_str_pos; lia).
      assert (Hq' : (n / 10 < 10 ^ N.of_nat (S fuel))%N).
      { apply N.Div0.div_lt_upper_bound.
        rewrite <- N.pow_succ_r'. now rewrite <- Nnat.Nat2N.inj_succ. }
      destruct (IH (n / 10)%N Hq Hq') as (Hd & Hlo & Hhi).
      set (d := Dec.ndigits_aux fuel (n / 10)) in *.
      split; [lia|].
      replace (1 + d - 1) with d by lia.
      replace (Z.to_N (1 + d)) with (N.succ (Z.to_N d)) by lia.
      replace (Z.to_N d) with (N.succ (Z.to_N (d - 1))) at 1 by lia.
      rewrite !N.pow_succ_r'.
      set (a := (10 ^ Z.to_N (d - 1))%N) in *. set (b := (10 ^ Z.to_N d)%N) in *.
      clearbody a b d. clear IH Hlt Hq'.
      set (q := (n / 10)%N) in *. set (m := (n mod 10)%N) in *. clearbody q m. lia.
Qed.

Lemma ndigits_spec (n : N) :
  (0 < n)%N ->
  1 <= Dec.ndigits n
  /\ (10 ^ Z.to_N (Dec.ndigits n - 1) <= n < 10 ^ Z.to_N (Dec.ndigits n))%N.
Proof.
  intros Hpos. unfold Dec.ndigits. apply ndigits_aux_spec; [exact Hpos|].
  rewrite Nnat.Nat2N.inj_succ, Nnat.N2Nat.id.
  destruct (N.log2_spec n Hpos) as [_ Hhi].
  eapply N.lt_le_trans; [exact Hhi|].
  apply N.pow_le_mono_l. lia.
Qed.

Lemma ndigits_pos (n : N) : 1 <= Dec.ndigits n.
Proof.
  destruct (N.eq_dec n 0%N) as [->|Hn]; [vm_compute; discriminate|].
  apply ndigits_spec. lia.
Qed.

(** [ndigits n <= k] exactly when [n < 10^k]. *)
Lemma ndigits_le_iff (n : N) (k : Z) :
  (0 < n)%N -> 0 <= k -> (Dec.ndigits n <= k <-> (n < 10 ^ Z.to_N k)%N).
Proof.
  intros Hpos Hk. destruct (ndigits_spec n Hpos) as (Hd & Hlo & Hhi).
  split.
  - intros Hle. eapply N.lt_le_trans; [exact Hhi|].
    apply N.pow_le_mono_r; lia.
  - intros Hlt. destruct (Z_le_gt_dec (Dec.ndigits n) k) as [|Hgt]; [assumption|].
    exfalso.
    assert ((10 ^ Z.to_N k <= 10 ^ Z.to_N (Dec.ndigits n - 1))%N)
      by (apply N.pow_le_mono_r; lia).
    lia.
Qed.

(** [k < ndigits n] exactly when [10^k <= n]. *)
Lemma ndigits_gt_iff (n : N) (k : Z) :
  (0 < n)%N -> 0 <= k -> (k < Dec.ndigits n <-> (10 ^ Z.to_N k <= n)%N).
Proof.
  intros Hpos Hk. pose proof (ndigits_le_iff n k Hpos Hk). lia.
Qed.

Lemma ndigits_mul_pow10 (c : N) (k : Z) :
  (0 < c)%N -> 0 <= k -> Dec.ndigits (c * Dec.p10 k) = Dec.ndigits c + k.
Proof.
  intros Hc Hk. unfold Dec.p10.
  assert (Hp : (0 < 10 ^ Z.to_N k)%N) by (apply N.neq_0_lt_0, N.pow_nonzero; lia).
  assert (Hck : (0 < c * 10 ^ Z.to_N k)%N) by lia.
  destruct (ndigits_spec c Hc) as (Hd & Hlo & Hhi).
  apply Z.le_antisymm.
  - apply ndigits_le_iff; [exact Hck | lia |].
    replace (Z.to_N (Dec.ndigits c + k)) with (Z.to_N (Dec.ndigits c) + Z.to_N k)%N by lia.
    rewrite N.pow_add_r. apply N.mul_lt_mono_pos_r; assumption.
  - assert (Dec.ndigits c + k - 1 < Dec.ndigits (c * 10 ^ Z.to_N k)); [|lia].
    apply ndigits_gt_iff; [exact Hck | lia |].
    replace (Z.to_N (Dec.ndigits c + k - 1))
      with (Z.to_N (Dec.ndigits c - 1) + Z.to_N k)%N by lia.
    rewrite N.pow_add_r. apply N.mul_le_mono_r. exact Hlo.
Qed.


Lemma p10_pos (k : Z) : (0 < Dec.p10 k)%N.
Proof. unfold Dec.p10. apply N.neq_0_lt_0, N.pow_nonzero. lia. Qed.

Lemma p10_add (a b : Z) : 0 <= a -> 0 <= b -> Dec.p10 (a + b) = (Dec.p10 a * Dec.p10 b)%N.
Proof.
  intros Ha Hb. unfold Dec.p10. rewrite <- N.pow_add_r. f_equal. lia.
Qed.

Lemma ndigits_lt_p10 (n : N) (k : Z) :
  (0 < n)%N -> 0 <= k -> Dec.ndigits n <= k -> (n < Dec.p10 k)%N.
Proof. intros. unfold Dec.p10. now apply ndigits_le_iff. Qed.

Lemma ndigits_le_of_lt (n : N) (k : Z) :
  1 <= k -> (n < Dec.p10 k)%N -> Dec.ndigits n <= k.
Proof.
  intros Hk Hn. destruct (N.eq_dec n 0%N) as [->|Hne].
  - change (Dec.ndigits 0) with 1. exact Hk.
  - apply ndigits_le_iff; [lia | lia | exact Hn].
Qed.

Lemma fix_in_context (s : bool) (c : N) (e : Z) (d : Decimal) :
  Dec.fix_ s c e = Ok d -> in_context d.
Proof.
  unfold Dec.fix_.
  destruct (c =? 0)%N eqn:Hc.
  { intros [= <-]. simpl. unfold Dec.Etiny, Dec.Emax, Dec.Emin, Dec.prec. lia. }
  apply N.eqb_neq in Hc. assert (Hcpos : (0 < c)%N) by lia.
  pose proof (ndigits_pos c) as Hnd1.
  set (exp_min0 := Dec.ndigits c + e - Dec.prec).
  destruct (exp_min0 >? Dec.Etop) eqn:Hov; [discriminate|].
  rewrite Z.gtb_ltb in Hov. apply Z.ltb_ge in Hov.
  set (exp_min := Z.max exp_min0 Dec.Etiny).
  assert (Hem : exp_min0 <= exp_min /\ Dec.Etiny <= exp_min /\ exp_min <= Dec.Etop).
  { unfold exp_min, Dec.Etiny, Dec.Etop, Dec.Emax, Dec.Emin, Dec.prec in *. lia. }
  destruct (e <? exp_min) eqn:Hround.
  2:{ apply Z.ltb_ge in Hround. intros [= <-]. simpl.
      split; [lia|]. right. unfold exp_min0 in *. repeat split; lia. }
  apply Z.ltb_lt in Hround.
  set (digits := Dec.ndigits c + e - exp_min).
  destruct (digits <? 0) eqn:Hdig.
  - (* nothing is left of the coefficient *)
    replace (exp_min - (exp_min - 1)) with 1 by lia.
    cbv zeta.
    change (1 / Dec.p10 1)%N with 0%N. change (1 mod Dec.p10 1)%N with 1%N.
    change (5 * Dec.p10 (1 - 1))%N with 5%N.
    change ((5 <? 1)%N || ((1 =? 5)%N && N.odd 0)) with false.
    cbv iota.
    change (Dec.ndigits 0 >? Dec.prec) with false.
    cbv iota.
    destruct (exp_min >? Dec.Etop) eqn:Hov2; [discriminate|].
    intros [= <-]. simpl. split; [lia|]. left.
    unfold Dec.Etop, Dec.Emax, Dec.prec in *. lia.
  - apply Z.ltb_ge in Hdig.
    set (shift := exp_min - e).
    assert (Hshift : 0 < shift) by (unfold shift; lia).
    set (q := (c / Dec.p10 shift)%N).
    set (r := (c mod Dec.p10 shift)%N).
    set (up := _ || _).
    set (q1 := if up then (q + 1)%N else q).
    assert (Hq : (q < Dec.p10 Dec.prec)%N).
    { unfold q. apply N.Div0.div_lt_upper_bound.
      rewrite <- p10_add by (unfold Dec.prec; lia).
      apply ndigits_lt_p10; [exact Hcpos | unfold Dec.prec; lia |].
      unfold shift, exp_min0 in *. lia. }
    assert (Hq1 : (q1 <= Dec.p10 Dec.prec)%N) by (unfold q1; destruct up; lia).
    destruct (Dec.ndigits q1 >? Dec.prec) eqn:Hcarry.
    + rewrite Z.gtb_ltb in Hcarry. apply Z.ltb_lt in Hcarry.
      destruct (exp_min + 1 >? Dec.Etop) eqn:Hov2; [discriminate|].
      rewrite Z.gtb_ltb in Hov2. apply Z.ltb_ge in Hov2.
      intros [= <-]. simpl. split; [lia|].
      assert (Hq1pos : (0 < q1)%N).
      { destruct (N.eq_dec q1 0%N) as [E|]; [|lia].
        rewrite E in Hcarry. change (Dec.ndigits 0) with 1 in Hcarry.
        unfold Dec.prec in Hcarry. lia. }
      assert (Hge : (Dec.p10 Dec.prec <= q1)%N).
      { unfold Dec.p10. apply ndigits_gt_iff; [exact Hq1pos | unfold Dec.prec; lia | lia]. }
      assert (q1 = Dec.p10 Dec.prec) as -> by lia.
      right.
      change (Dec.p10 Dec.prec / 10)%N with 1000000000000000000000000000%N.
      change (Dec.ndigits 1000000000000000000000000000) with 28.
      split; [reflexivity|].
      unfold Dec.Etop, Dec.Emax, Dec.prec in *. lia.
    + rewrite Z.gtb_ltb in Hcarry. apply Z.ltb_ge in Hcarry.
      destruct (exp_min >? Dec.Etop) eqn:Hov2; [discriminate|].
      intros [= <-]. simpl. split; [lia|].
      destruct (N.eq_dec q1 0%N) as [->|Hne].
      * left. unfold Dec.Etop, Dec.Emax, Dec.prec in *. lia.
      * right. repeat split; [lia | exact Hcarry |].
        unfold Dec.prec in *. lia.
Qed.

Lemma div_mul_p10 (c : N) (k shift : Z) :
  0 <= shift <= k ->
  ((c * Dec.p10 k) / Dec.p10 shift = c * Dec.p10 (k - shift)
   /\ (c * Dec.p10 k) mod Dec.p10 shift = 0)%N.
Proof.
  intros Hs. pose proof (p10_pos shift) as Hp.
  replace k with ((k - shift) + shift) at 1 3 by lia.
  rewrite p10_add by lia. rewrite N.mul_assoc.
  split; [apply N.div_mul; lia | apply N.Div0.mod_mul].
Qed.

(** [fix_] accepts a number of the context written with trailing zeros. *)
Lemma fix_padded_ok (s : bool) (c : N) (e k : Z) :
  (0 < c)%N -> Dec.ndigits c <= Dec.prec -> Dec.Etiny <= e ->
  Dec.ndigits c + e - Dec.prec <= Dec.Etop -> 0 <= k ->
  exists d, Dec.fix_ s (c * Dec.p10 k) (e - k) = Ok d.
Proof.
  intros Hc Hnd He Htop Hk. unfold Dec.fix_.
  pose proof (p10_pos k) as Hpk.
  pose proof (ndigits_pos c) as Hnd1.
  assert (Hne : ((c * Dec.p10 k =? 0) = false)%N) by (apply N.eqb_neq; lia).
  rewrite Hne, ndigits_mul_pow10 by lia.
  replace (Dec.ndigits c + k + (e - k) - Dec.prec)
    with (Dec.ndigits c + e - Dec.prec) by lia.
  set (exp_min0 := Dec.ndigits c + e - Dec.prec).
  assert (Hov : (exp_min0 >? Dec.Etop) = false)
    by (rewrite Z.gtb_ltb; apply Z.ltb_ge; exact Htop).
  rewrite Hov.
  set (exp_min := Z.max exp_min0 Dec.Etiny).
  assert (Hem : exp_min0 <= exp_min /\ Dec.Etiny <= exp_min /\ exp_min <= Dec.Etop
                /\ exp_min <= e).
  { unfold exp_min, exp_min0, Dec.Etiny, Dec.Etop, Dec.Emax, Dec.Emin, Dec.prec in *. lia. }
  destruct (e - k <? exp_min) eqn:Hround; [|eexists; reflexivity].
  apply Z.ltb_lt in Hround.
  assert (Hdig : (Dec.ndigits c + k + (e - k) - exp_min <? 0) = false)
    by (apply Z.ltb_ge; lia).
  rewrite Hdig.
  set (shift := exp_min - (e - k)).
  assert (Hshift : 0 < shift <= k) by (unfold shift; lia).
  destruct (div_mul_p10 c k shift ltac:(lia)) as [Hq Hr].
  rewrite Hq, Hr.
  assert (Hhalf : (0 < 5 * Dec.p10 (shift - 1))%N)
    by (pose proof (p10_pos (shift - 1)); lia).
  assert (Hup : ((5 * Dec.p10 (shift - 1) <? 0)%N
                 || ((0 =? 5 * Dec.p10 (shift - 1))%N
                     && N.odd (c * Dec.p10 (k - shift)))) = false).
  { rewrite (proj2 (N.ltb_ge _ _)) by lia.
    rewrite (proj2 (N.eqb_neq _ _)) by lia. reflexivity. }
  rewrite Hup.
  rewrite ndigits_mul_pow10 by lia.
  assert (Hcarry : (Dec.ndigits c + (k - shift) >? Dec.prec) = false).
  { rewrite Z.gtb_ltb. apply Z.ltb_ge. unfold shift, exp_min0 in *. lia. }
  rewrite Hcarry.
  assert (Hov2 : (exp_min >? Dec.Etop) = false)
    by (rewrite Z.gtb_ltb; apply Z.ltb_ge; lia).
  rewrite Hov2. eexists; reflexivity.
Qed.

(** Subtracting [Decimal('0')] from a number of the context succeeds. *)
Lemma sub_zero_ok (d : Decimal) :
  in_context d -> exists d', Dec.sub d dec_zero = Ok d'.
Proof.
  destruct d as [s c e | |]; simpl; try contradiction.
  intros [He Hd].
  unfold Dec.sub, dec_zero, Dec.check_nans2, Dec.neg, Dec.add.
  destruct Hd as [[-> Hmax] | (Hc & Hnd & Htop)].
  - simpl. eexists; reflexivity.
  - assert (Hne : ((c =? 0) = false)%N) by (apply N.eqb_neq; lia).
    rewrite Hne. cbn [andb].
    set (em := Z.min e 0).
    rewrite N.mul_0_l. change (Dec.signedZ (negb false) 0) with 0.
    rewrite Z.add_0_r.
    pose proof (p10_pos (e - em)) as Hp.
    assert (Habs : Z.abs_N (Dec.signedZ s (c * Dec.p10 (e - em)))
                   = (c * Dec.p10 (e - em))%N).
    { unfold Dec.signedZ. destruct s; lia. }
    rewrite Habs.
    change (Dec.check_nans2 (DFinite s c e) (DFinite (negb false) 0 0))
      with (@None (res Decimal)).
    pose proof (fix_padded_ok (Dec.signedZ s (c * Dec.p10 (e - em)) <? 0)
                  c e (e - em) Hc Hnd He Htop ltac:(unfold em; lia)) as Hfix.
    replace (e - (e - em)) with em in Hfix by lia. exact Hfix.
Qed.

End DecimalFacts.

(* ===================================================================== *)
(** * Properties of the wallet analyzer *)
(* ===================================================================== *)

(** The wallet passes the minimum-amount filter of the analyzer. *)
Definition not_below_threshold (config : option Config) (total : Decimal) : Prop :=
  match config with
  | Some cfg => Dec.lt total (Flt.repr_decimal (min_token_amount cfg)) = Ok false
  | None => True
  end.

Section AnalyzerFacts.
Context `{Platform}.

Lemma analyze_body_flags (w : string) (txs : list WalletTransaction)
    (config : option Config) (a : WalletAnalysis) :
  analyze_wallet_body w txs config = Ok (Some a) ->
  is_likely_airdrop a = true -> is_likely_buyer a = false.
Proof.
  unfold analyze_wallet_body.
  destruct (sort_by_key block_number txs) as [|first rest]; [discriminate|].
  destruct (sum_amounts (first :: rest) dec_zero dec_zero) as [[r s]|e];
    cbn [rbind]; [|discriminate].
  destruct (Dec.sub r s) as [net|e]; cbn [rbind]; [|discriminate].
  destruct (match config with
            | Some cfg => Dec.lt r (Flt.repr_decimal (min_token_amount cfg))
            | None => Ok false
            end) as [[|]|e]; cbn [rbind]; try discriminate.
  set (airdrop := _ && _ && _ && _).
  destruct airdrop; cbn [negb rbind].
  - intros [= <-]. reflexivity.
  - destruct (Dec.gt r (Dec.of_Z 0)) as [[|]|e]; cbn [rbind]; try discriminate;
      intros [= <-]; discriminate.
Qed.

Lemma is_round_number_inf (s : bool) : is_round_number (DInf s) = false.
Proof. destruct s; vm_compute; reflexivity. Qed.

Lemma is_round_number_nan (sg : bool) : is_round_number (DNaN sg) = false.
Proof. destruct sg; reflexivity. Qed.

(** The sum of [Decimal('0')] and an amount, when it is a finite number,
    is a number of the context. *)
Lemma add_zero_in_context (amount : Decimal) (s : bool) (c : N) (e : Z) :
  Dec.add dec_zero amount = Ok (DFinite s c e) -> in_context (DFinite s c e).
Proof.
  unfold Dec.add, dec_zero.
  destruct amount as [sa ca ea| sa | [|]]; simpl Dec.check_nans2; cbv iota;
    try discriminate.
  destruct ((0 =? 0)%N && (ca =? 0)%N); apply fix_in_context.
Qed.

End AnalyzerFacts.

(** C2. Whenever [analyze_wallet_transactions] returns a summary, its
    flags [is_likely_buyer] and [is_likely_airdrop] are not both true. *)
Theorem flags_mutually_exclusive `{Platform} (w : string)
    (txs : list WalletTransaction) (config : option Config) (a : WalletAnalysis) :
  analyze_wallet_transactions w txs config = Some a ->
  is_likely_buyer a && is_likely_airdrop a = false.
Proof.
  unfold analyze_wallet_transactions.
  destruct (analyze_wallet_body w txs config) as [r|e] eqn:Hb; [|discriminate].
  intros ->.
  destruct (is_likely_airdrop a) eqn:Ha.
  - rewrite (analyze_body_flags _ _ _ _ Hb Ha). reflexivity.
  - apply andb_false_r.
Qed.

(** The theorem on a wallet with one inbound transfer of 1000 tokens from
    a router: the analyzer returns a summary, flagged airdrop only. *)
Lemma flags_mutually_exclusive_witness :
  exists a,
    analyze_wallet_transactions (H := RefPlatform.platform) wallet_b
      [transfer uniswap_v2_router wallet_b 100 thousand_tokens]
      (Some default_config) = Some a
    /\ is_likely_airdrop a = true
    /\ is_likely_buyer a && is_likely_airdrop a = false.
Proof.
  eexists. split; [vm_compute; reflexivity|]. split; [reflexivity|].
  apply (flags_mutually_exclusive (H := RefPlatform.platform) wallet_b
           [transfer uniswap_v2_router wallet_b 100 thousand_tokens]
           (Some default_config)).
  vm_compute. reflexivity.
Defined.

(** C3 (as amended). A wallet with exactly one record that is inbound,
    comes from a likely contract and whose total received is a round
    number is classified as an airdrop and not as a buyer, provided the
    total is not below the configured minimum amount (a wallet below it is
    discarded before it is classified). *)
Theorem single_round_inbound_is_airdrop `{Platform} (w : string)
    (tx : WalletTransaction) (config : option Config) (total : Decimal) :
  direction tx = "in" ->
  is_likely_contract (from_address tx) = true ->
  Dec.add dec_zero (token_amount tx) = Ok total ->
  is_round_number total = true ->
  not_below_threshold config total ->
  exists a,
    analyze_wallet_transactions w [tx] config = Some a
    /\ is_likely_airdrop a = true /\ is_likely_buyer a = false
    /\ total_received a = total /\ first_transaction a = tx
    /\ transaction_count a = 1.
Proof.
  intros Hdir Hfrom Hsum Hround Hthr.
  assert (Hctx : in_context total).
  { destruct total as [s c e | s | sg].
    - now apply add_zero_in_context with (amount := token_amount tx).
    - now rewrite is_round_number_inf in Hround.
    - now rewrite is_round_number_nan in Hround. }
  destruct (sub_zero_ok total Hctx) as [net Hnet].
  unfold analyze_wallet_transactions, analyze_wallet_body.
  cbn [sort_by_key foldr insert_by_key sum_amounts].
  rewrite Hdir. cbn [String.eqb Ascii.eqb Bool.eqb]. rewrite Hsum. cbn [rbind].
  rewrite Hnet. cbn [rbind].
  assert (Hbelow : match config with
                   | Some cfg => Dec.lt total (Flt.repr_decimal (min_token_amount cfg))
                   | None => Ok false
                   end = Ok false).
  { destruct config; [exact Hthr | reflexivity]. }
  rewrite Hbelow. cbn [rbind].
  rewrite Hfrom, Hround.
  eexists. split; [reflexivity|]. repeat split.
Qed.

(** The theorem at the example of the specification: a single inbound
    transfer of exactly 1000 tokens from the Uniswap V2 router, under the
    default configuration. *)
Lemma single_round_inbound_is_airdrop_witness :
  exists a,
    analyze_wallet_transactions (H := RefPlatform.platform) wallet_b
      [transfer uniswap_v2_router wallet_b 100 thousand_tokens]
      (Some default_config) = Some a
    /\ is_likely_airdrop a = true /\ is_likely_buyer a = false.
Proof.
  destruct (single_round_inbound_is_airdrop (H := RefPlatform.platform) wallet_b
              (transfer uniswap_v2_router wallet_b 100 thousand_tokens)
              (Some default_config) thousand_tokens)
    as (a & Ha & Hair & Hbuy & _).
  - reflexivity.
  - vm_compute; reflexivity.
  - vm_compute; reflexivity.
  - vm_compute; reflexivity.
  - vm_compute; reflexivity.
  - exists a. repeat split; assumption.
Defined.

(** C3 (counterexample). The same wallet under a configuration whose
    minimum amount is 5000 tokens: every premise of the claim holds, and
    the analyzer returns nothing, so no flag is set. *)
Lemma single_round_inbound_below_threshold :
  let tx := transfer uniswap_v2_router wallet_b 100 thousand_tokens in
  let cfg := {| max_early_wallets := 50; min_token_amount := float_5000;
                include_likely_airdrops := true |} in
  direction tx = "in"
  /\ is_likely_contract (from_address tx) = true
  /\ is_round_number (H := RefPlatform.platform) thousand_tokens = true
  /\ analyze_wallet_transactions (H := RefPlatform.platform) wallet_b [tx] (Some cfg)
     = None.
Proof. repeat split; vm_compute; reflexivity. Qed.

(** C9. An empty transfer history gives, without an exception, a report
    with no transaction, no wallet and an empty list of wallets. *)
Theorem empty_history_gives_empty_report `{Platform} (token : TokenInfo)
    (eth_price_usd : spec_float) (config : Config) (now : datetime) :
  exists report,
    analyze_token_interactions token [] eth_price_usd config now = Ok report
    /\ total_transactions report = 0
    /\ unique_wallets report = 0
    /\ earliest_wallets report = []
    /\ token_info report = token.
Proof.
  eexists. split; [reflexivity|]. repeat split.
Qed.

(* ===================================================================== *)
(** * Properties of the numeric conversions *)
(* ===================================================================== *)

(** The exceptions of the [decimal] module. *)
Definition decimal_exn (e : exn) : Prop :=
  e = DecInvalidOperation \/ e = DecDivisionByZero \/ e = DecOverflow.

(** [wei_to_ether(gas_price) * Decimal(gas_used) * Decimal(str(price))],
    the product the specification gives for the cost. *)
Definition cost_product (gas_used : Z) (gas_price : string) (price : spec_float)
    : res Decimal :=
  let* gas_price_ether := wei_to_ether gas_price in
  let* eth_cost := Dec.mul gas_price_ether (Dec.of_Z gas_used) in
  Dec.mul eth_cost (Flt.repr_decimal price).

Section ConversionFacts.

Lemma fix_raises (s : bool) (c : N) (e : Z) (x : exn) :
  Dec.fix_ s c e = Raise x -> x = DecOverflow.
Proof.
  unfold Dec.fix_.
  repeat match goal with
         | |- context [if ?b then _ else _] => destruct b
         end; cbv zeta beta iota;
  repeat match goal with
         | |- context [if ?b then _ else _] => destruct b
         end; congruence.
Qed.

Lemma check_nans2_raises (a b : Decimal) (x : exn) :
  Dec.check_nans2 a b = Some (Raise x) -> x = DecInvalidOperation.
Proof.
  destruct a as [? ? ?|?|[|]], b as [? ? ?|?|[|]]; simpl; congruence.
Qed.

Lemma mul_raises (a b : Decimal) (x : exn) :
  Dec.mul a b = Raise x -> decimal_exn x.
Proof.
  unfold Dec.mul, decimal_exn.
  destruct (Dec.check_nans2 a b) as [[d|e]|] eqn:Hn.
  - discriminate.
  - intros [= <-]. apply check_nans2_raises in Hn. auto.
  - destruct a as [sa ca ea|sa|?], b as [sb cb eb|sb|?]; try discriminate.
    + intros Hf. apply fix_raises in Hf. auto.
    + destruct (ca =? 0)%N; [|discriminate]. intros [= <-]. auto.
    + destruct (cb =? 0)%N; [|discriminate]. intros [= <-]. auto.
Qed.

Lemma div_raises (a b : Decimal) (x : exn) :
  Dec.div a b = Raise x -> decimal_exn x.
Proof.
  unfold Dec.div, decimal_exn.
  destruct (Dec.check_nans2 a b) as [[d|e]|] eqn:Hn.
  - discriminate.
  - intros [= <-]. apply check_nans2_raises in Hn. auto.
  - destruct a as [sa ca ea|sa|?], b as [sb cb eb|sb|?]; try discriminate.
    + destruct (cb =? 0)%N.
      { destruct (ca =? 0)%N; intros [= <-]; auto. }
      destruct (ca =? 0)%N.
      { intros Hf. apply fix_raises in Hf. auto. }
      destruct (if 0 <=? _ then _ else _) as [q r].
      destruct (if (r =? 0)%N then _ else _) as [q' e'].
      intros Hf. apply fix_raises in Hf. auto.
    + intros [= <-]. auto.
Qed.

Lemma of_string_raises (s : string) (x : exn) :
  Dec.of_string s = Raise x -> x = DecInvalidOperation.
Proof.
  unfold Dec.of_string.
  destruct (match _ with [] => _ | _ :: _ => _ end) as [sg l].
  destruct (Dec.parse_number l) as [[c e]|]; [discriminate|].
  destruct (Dec.parse_special sg l); congruence.
Qed.

(** Dividing by [10^18] never raises [DivisionByZero]. *)
Lemma div_by_wei_raises (w : Decimal) (x : exn) :
  Dec.div w (DFinite false 1000000000000000000 0) = Raise x ->
  x = DecInvalidOperation \/ x = DecOverflow.
Proof.
  unfold Dec.div.
  destruct (Dec.check_nans2 w _) as [[d|e]|] eqn:Hn.
  - discriminate.
  - intros [= <-]. apply check_nans2_raises in Hn. auto.
  - destruct w as [sa ca ea|sa|?]; try discriminate.
    change (1000000000000000000 =? 0)%N with false. cbv iota.
    destruct (ca =? 0)%N.
    { intros Hf. apply fix_raises in Hf. auto. }
    destruct (if 0 <=? _ then _ else _) as [q r].
    destruct (if (r =? 0)%N then _ else _) as [q' e'].
    intros Hf. apply fix_raises in Hf. auto.
Qed.

(** [wei_to_ether] lets the exceptions of the [decimal] module through:
    its [except] clause names none of their classes. *)
Lemma wei_to_ether_unfold (wei : string) :
  wei_to_ether wei
  = let* w := Dec.of_string wei in Dec.div w (DFinite false 1000000000000000000 0).
Proof.
  unfold wei_to_ether, try_except, rbind.
  destruct (Dec.of_string wei) as [w|x] eqn:Hw.
  - destruct (Dec.div w _) as [d|x] eqn:Hd; [reflexivity|].
    apply div_by_wei_raises in Hd as [-> | ->]; reflexivity.
  - apply of_string_raises in Hw as ->. reflexivity.
Qed.

Lemma wei_to_ether_raises (wei : string) (x : exn) :
  wei_to_ether wei = Raise x -> x = DecInvalidOperation \/ x = DecOverflow.
Proof.
  rewrite wei_to_ether_unfold. unfold rbind.
  destruct (Dec.of_string wei) as [w|y] eqn:Hw.
  - apply div_by_wei_raises.
  - intros [= <-]. apply of_string_raises in Hw. auto.
Qed.

End ConversionFacts.

(** C6 (as amended). [estimate_transaction_cost_usd] returns nothing when
    [gas_used] is missing or zero, when [gas_price] is missing or the empty
    string, and when the ETH/USD price is missing or at most zero. In every
    other case it is the product
    [wei_to_ether(gas_price) * gas_used * price], an exception of the
    decimal module included. In particular it returns nothing for a price
    of 0, and 0.84 for 21000 gas at 20 gwei and a price of 2000.0. *)
Theorem estimate_cost_cases (gas_used : option Z) (gas_price : option string)
    (eth_price_usd : option spec_float) :
  (falsy_int gas_used = true ->
   estimate_transaction_cost_usd gas_used gas_price eth_price_usd = Ok None)
  /\ (falsy_str gas_price = true ->
      estimate_transaction_cost_usd gas_used gas_price eth_price_usd = Ok None)
  /\ (eth_price_usd = None ->
      estimate_transaction_cost_usd gas_used gas_price eth_price_usd = Ok None)
  /\ (forall p, eth_price_usd = Some p -> Flt.leb p Flt.zero = true ->
      estimate_transaction_cost_usd gas_used gas_price eth_price_usd = Ok None)
  /\ (forall gu gp p,
        gas_used = Some gu -> gu <> 0 -> gas_price = Some gp -> gp <> "" ->
        eth_price_usd = Some p -> Flt.leb p Flt.zero = false ->
        estimate_transaction_cost_usd gas_used gas_price eth_price_usd
        = let* cost := cost_product gu gp p in Ok (Some cost))
  /\ estimate_transaction_cost_usd (Some 21000) (Some "20000000000")
       (Some Flt.zero) = Ok None
  /\ estimate_transaction_cost_usd (Some 21000) (Some "20000000000")
       (Some price_2000) = Ok (Some (DFinite false 840000000 (-9)))
  /\ Dec.gt (DFinite false 840000000 (-9)) (Dec.of_Z 0) = Ok true.
Proof.
  unfold estimate_transaction_cost_usd.
  split; [intros ->; reflexivity|].
  split; [intros ->; destruct (falsy_int gas_used); reflexivity|].
  split.
  { intros ->. destruct (falsy_int gas_used); [reflexivity|].
    destruct (falsy_str gas_price); reflexivity. }
  split.
  { intros p -> Hp. destruct (falsy_int gas_used); [reflexivity|].
    destruct (falsy_str gas_price); [reflexivity|].
    unfold price_le_zero. rewrite Hp. reflexivity. }
  split.
  { intros gu gp p -> Hgu -> Hgp -> Hp.
    assert (Hfi : falsy_int (Some gu) = false) by (apply Z.eqb_neq; exact Hgu).
    assert (Hfs : falsy_str (Some gp) = false) by (apply String.eqb_neq; exact Hgp).
    rewrite Hfi, Hfs. unfold price_le_zero. rewrite Hp. cbn [rbind].
    unfold try_except, cost_product, rbind.
    destruct (wei_to_ether gp) as [ether|x] eqn:Hw.
    - destruct (Dec.mul ether (Dec.of_Z gu)) as [cost|x] eqn:Hm.
      + destruct (Dec.mul cost (Flt.repr_decimal p)) as [usd|x] eqn:Hm2;
          [reflexivity|].
        apply mul_raises in Hm2 as [-> | [-> | ->]]; reflexivity.
      + apply mul_raises in Hm as [-> | [-> | ->]]; reflexivity.
    - apply wei_to_ether_raises in Hw as [-> | ->]; reflexivity. }
  repeat split; vm_compute; reflexivity.
Qed.

(** The theorem at the example of the specification. *)
Lemma estimate_cost_cases_witness :
  estimate_transaction_cost_usd (Some 21000) (Some "20000000000") (Some price_2000)
  = (let* cost := cost_product 21000 "20000000000" price_2000 in Ok (Some cost))
  /\ cost_product 21000 "20000000000" price_2000 = Ok (DFinite false 840000000 (-9)).
Proof.
  split; [|vm_compute; reflexivity].
  apply (proj1 (proj2 (proj2 (proj2 (proj2
           (estimate_cost_cases (Some 21000) (Some "20000000000") (Some price_2000)))))));
    first [reflexivity | discriminate].
Defined.

(** C6 (counterexample). A gas price of zero wei is not positive, and the
    estimate is a zero cost, not nothing; a negative [gas_used] gives a
    negative cost. *)
Lemma estimate_cost_zero_gas_price :
  estimate_transaction_cost_usd (Some 21000) (Some "0") (Some price_2000)
  = Ok (Some (DFinite false 0 (-1)))
  /\ estimate_transaction_cost_usd (Some (-1)) (Some "20000000000") (Some price_2000)
     = Ok (Some (DFinite true 40000 (-9))).
Proof. split; vm_compute; reflexivity. Qed.

(** C7 (the code at the failing inputs). On a raw amount of [10^41] with
    18 decimals the quotient has 24 integer digits, [quantize] raises
    [InvalidOperation], and the [except] clause of [format_token_amount]
    does not name that class: the exception reaches the caller. On a
    29-digit raw amount with 7 decimals the division rounds to 28 digits
    before [quantize] truncates, so the last digit is rounded up. With
    [decimals = 0] the amount is returned unchanged. *)
Theorem format_token_amount_raises :
  format_token_amount (Dec.of_Z (10 ^ 41)) 18 = Raise DecInvalidOperation
  /\ format_token_amount (Dec.of_Z 12345678901234567890123456789) 7
     = Ok (DFinite false 1234567890123456789012345679 (-6))
  /\ (forall amount, format_token_amount amount 0 = Ok amount).
Proof.
  split; [vm_compute; reflexivity|].
  split; [vm_compute; reflexivity|].
  intros amount. reflexivity.
Qed.

(* ===================================================================== *)
(** * Properties of the ranking *)
(* ===================================================================== *)

(** The summary the loop of [analyze_token_interactions] keeps for one
    entry of the dictionary, before the cost estimate: the analysis of the
    wallet, when there is one and its total reaches the threshold. *)
Definition eligible `{Platform} (config : Config)
    (item : string * list WalletTransaction) : option WalletAnalysis :=
  match analyze_wallet_transactions (fst item) (snd item) (Some config) with
  | Some a =>
      match Dec.ge (total_received a) (Flt.to_decimal (min_token_amount config)) with
      | Ok true => Some a
      | _ => None
      end
  | None => None
  end.

(** [a] is [e] with its cost estimate filled in. *)
Definition costed (eth_price_usd : spec_float) (a e : WalletAnalysis) : Prop :=
  with_cost e eth_price_usd = Ok a.


(** Ascending order of first-transaction block numbers. *)
Definition ranked (ws : list WalletAnalysis) : Prop :=
  StronglySorted (fun a b => first_block a <= first_block b) ws.

(** A raw transfer row with the required fields and gas data. *)
Definition raw_row (ts value hash bn from_ to_ : string) : raw_tx :=
  list_to_map [("timeStamp", ts); ("value", value); ("hash", hash);
               ("blockNumber", bn); ("from", from_); ("to", to_);
               ("gasUsed", "21000"); ("gasPrice", "20000000000")].

Definition sample_token : TokenInfo :=
  {| name := "Sample"; symbol := "SMP"; contract_address := uniswap_v2_router;
     decimals := 18; total_supply := None |}.

Section SortFacts.
Context {A : Type} (key : A -> Z).

Let le_key (a b : A) : Prop := key a <= key b.

Lemma insert_by_key_perm (x : A) (l : list A) :
  insert_by_key key x l ≡ₚ x :: l.
Proof.
  induction l as [|y r IH]; simpl; [reflexivity|].
  destruct (key x <=? key y); [reflexivity|].
  rewrite IH. apply Permutation_swap.
Qed.

Lemma sort_by_key_perm (l : list A) : sort_by_key key l ≡ₚ l.
Proof.
  induction l as [|x r IH]; simpl; [reflexivity|].
  rewrite insert_by_key_perm. now rewrite IH.
Qed.

Lemma insert_by_key_sorted (x : A) (l : list A) :
  StronglySorted le_key l -> StronglySorted le_key (insert_by_key key x l).
Proof.
  induction 1 as [|y r Hr IH Hy]; simpl.
  - repeat constructor.
  - destruct (key x <=? key y) eqn:Hxy.
    + apply Z.leb_le in Hxy. constructor; [now constructor|].
      constructor; [exact Hxy|].
      eapply Forall_impl; [exact Hy|]. unfold le_key. intros; lia.
    + apply Z.leb_gt in Hxy. constructor; [exact IH|].
      rewrite insert_by_key_perm. constructor; [unfold le_key; lia | exact Hy].
Qed.

Lemma sort_by_key_sorted (l : list A) : StronglySorted le_key (sort_by_key key l).
Proof.
  induction l as [|x r IH]; simpl; [constructor|].
  now apply insert_by_key_sorted.
Qed.


End SortFacts.




Section RankingFacts.
Context `{Platform}.

Lemma with_cost_first (a e : WalletAnalysis) (p : spec_float) :
  with_cost e p = Ok a -> first_transaction a = first_transaction e.
Proof.
  unfold with_cost.
  destruct (_ && _ && _); [|now intros [= <-]].
  destruct (estimate_transaction_cost_usd _ _ _); cbn [rbind]; [|discriminate].
  now intros [= <-].
Qed.

Lemma analysis_loop_spec (items : wallet_dict WalletTransaction) (cfg : Config)
    (p : spec_float) (acc was : list WalletAnalysis) :
  analysis_loop items cfg p acc = Ok was ->
  exists kept,
    was = acc ++ kept
    /\ Forall2 (costed p) kept
         (take (Z.to_nat (max_early_wallets cfg - Z.of_nat (List.length acc)))
               (omap (eligible cfg) items)).
Proof.
  revert acc. induction items as [|[w txs] rest IH]; intros acc; simpl.
  - intros [= <-]. exists []. rewrite app_nil_r, take_nil.
    split; [reflexivity | constructor].
  - destruct (max_early_wallets cfg <=? Z.of_nat (List.length acc)) eqn:Hmax.
    + apply Z.leb_le in Hmax. intros [= <-]. exists []. rewrite app_nil_r.
      replace (Z.to_nat _) with 0%nat by lia.
      split; [reflexivity | constructor].
    + apply Z.leb_gt in Hmax. unfold eligible at 1. cbn [fst snd].
      destruct (analyze_wallet_transactions w txs (Some cfg)) as [a|] eqn:Ha;
        [|apply IH].
      destruct (Dec.ge (total_received a) (Flt.to_decimal (min_token_amount cfg)))
        as [[|]|e] eqn:Hge; cbn [rbind]; [| apply IH | discriminate].
      destruct (with_cost a p) as [a'|e] eqn:Hc; cbn [rbind]; [|discriminate].
      intros Hloop. apply IH in Hloop as (kept & -> & HF).
      exists (a' :: kept). split; [now rewrite <- app_assoc|].
      rewrite length_app in HF. simpl in HF.
      replace (Z.to_nat (max_early_wallets cfg - Z.of_nat (List.length acc)))
        with (S (Z.to_nat (max_early_wallets cfg
                           - Z.of_nat (List.length acc + 1)%nat))) by lia.
      simpl. constructor; [exact Hc | exact HF].
Qed.










Lemma Forall2_elem_l {A B} (P : A -> B -> Prop) (l : list A) (k : list B) (x : A) :
  Forall2 P l k -> x ∈ l -> exists y, y ∈ k /\ P x y.
Proof.
  induction 1 as [|a b l k Hab HF IH]; intros Hx.
  - now apply elem_of_nil in Hx.
  - apply elem_of_cons in Hx as [-> | Hx].
    + exists b. split; [left | exact Hab].
    + destruct (IH Hx) as (y & Hy & Hp). exists y. split; [now right | exact Hp].
Qed.


End RankingFacts.


(** Two transfers from the router, of 1000 tokens each: to [wallet_a] in
    block 100 and to [wallet_b] in block 50. *)
Definition row_a_100 : raw_tx :=
  raw_row "1600001200" "1000000000000000000000" "0xaa" "100" uniswap_v2_router wallet_a.
Definition row_b_50 : raw_tx :=
  raw_row "1600000600" "1000000000000000000000" "0xbb" "50" uniswap_v2_router wallet_b.





(* ===================================================================== *)
(** * Further properties of the address utilities *)
(* ===================================================================== *)

(** Forty hexadecimal digits. *)
Definition forty_hex (h : string) : Prop :=
  String.length h = 40%nat /\ all_hex h = true.

Section AddressShape.

Lemma lower_char_idem (c : ascii) : lower_char (lower_char c) = lower_char c.
Proof. destruct c as [[] [] [] [] [] [] [] []]; reflexivity. Qed.

Lemma lower_idem (s : string) : lower (lower s) = lower s.
Proof.
  induction s as [|c r IH]; simpl; [reflexivity|].
  now rewrite lower_char_idem, IH.
Qed.

Lemma lower_empty (s : string) : lower s = "" -> s = "".
Proof. destruct s; [reflexivity | discriminate]. Qed.

Lemma append_cons (c : ascii) (a b : string) :
  String c a +:+ b = String c (a +:+ b).
Proof. reflexivity. Qed.

Lemma string_length_app (a b : string) :
  String.length (a +:+ b) = (String.length a + String.length b)%nat.
Proof.
  induction a as [|c r IH]; [reflexivity|].
  rewrite append_cons. simpl. now rewrite IH.
Qed.

Lemma string_drop_app (a b : string) :
  string_drop (String.length a) (a +:+ b) = b.
Proof.
  induction a as [|c r IH]; [reflexivity|].
  rewrite append_cons. simpl. exact IH.
Qed.

Lemma substring_app (a b : string) :
  substring 0 (String.length a) (a +:+ b) = a.
Proof.
  induction a as [|c r IH].
  - change ("" +:+ b) with b. now destruct b.
  - rewrite append_cons. simpl. now rewrite IH.
Qed.

Lemma substring_drop (n : nat) (s : string) :
  s = substring 0 n s +:+ string_drop n s.
Proof.
  revert s. induction n as [|n IH]; intros s.
  - destruct s; reflexivity.
  - destruct s as [|c r]; simpl; [reflexivity|]. rewrite append_cons.
    f_equal. apply IH.
Qed.

Lemma substring_length (n : nat) (s : string) :
  (n <= String.length s)%nat -> String.length (substring 0 n s) = n.
Proof.
  revert s. induction n as [|n IH]; intros s Hn.
  - destruct s; reflexivity.
  - destruct s as [|c r]; simpl in *; [lia|]. rewrite IH; [reflexivity | lia].
Qed.

Lemma all_hex_no_prefix (h : string) :
  all_hex h = true -> startswith h "0x" = false.
Proof.
  intros Hh. destruct (startswith h "0x") eqn:Hp; [|reflexivity].
  apply startswith_two in Hp as [r ->]. simpl in Hh.
  discriminate.
Qed.

Lemma match_hex40_iff (b : string) :
  match_hex40 b = true
  <-> exists h, forty_hex h /\ (b = h \/ b = h +:+ newline).
Proof.
  unfold match_hex40, forty_hex.
  rewrite orb_true_iff, !andb_true_iff. split.
  - intros [[Hl Hh] | [[Hl Hh] Hn]].
    + apply Nat.eqb_eq in Hl. exists b. auto.
    + apply Nat.eqb_eq in Hl. apply String.eqb_eq in Hn.
      exists (substring 0 40 b). split.
      * split; [apply substring_length; lia | exact Hh].
      * right. rewrite <- Hn. apply substring_drop.
  - intros (h & [Hl Hh] & [-> | ->]).
    + left. split; [now apply Nat.eqb_eq | exact Hh].
    + right. rewrite string_length_app, Hl.
      split; [split; [reflexivity|]|].
      * rewrite <- Hl, substring_app. exact Hh.
      * rewrite <- Hl, string_drop_app. apply String.eqb_refl.
Qed.

End AddressShape.

(** X1. [normalize_address] is idempotent. *)
Theorem normalize_address_idempotent (s : string) :
  normalize_address (normalize_address s) = normalize_address s.
Proof.
  destruct (String.eqb s "") eqn:Hs.
  { apply String.eqb_eq in Hs. subst s. reflexivity. }
  assert (Hne : lower s <> "").
  { intros He. apply lower_empty in He. subst s. discriminate. }
  assert (Hn : normalize_address s
               = if startswith (lower s) "0x" then lower s else "0x" +:+ lower s)
    by (unfold normalize_address; now rewrite Hs).
  rewrite Hn.
  destruct (startswith (lower s) "0x") eqn:Hp; unfold normalize_address.
  - rewrite (proj2 (String.eqb_neq _ _) Hne), lower_idem, Hp. reflexivity.
  - change (lower ("0x" +:+ lower s)) with ("0x" +:+ lower (lower s)).
    rewrite lower_idem.
    replace (startswith ("0x" +:+ lower s) "0x") with true
      by (symmetry; apply startswith_two; now exists (lower s)).
    reflexivity.
Qed.

(** X2. [is_valid_ethereum_address] accepts exactly forty hexadecimal
    digits, with or without the prefix [0x], and with or without one
    newline at the end (the [$] of the pattern matches before a final
    newline). *)
Theorem is_valid_ethereum_address_iff (s : string) :
  is_valid_ethereum_address s = true
  <-> exists h, forty_hex h
                /\ (s = h \/ s = "0x" +:+ h
                    \/ s = h +:+ newline \/ s = "0x" +:+ h +:+ newline).
Proof.
  unfold is_valid_ethereum_address. split.
  - destruct (String.eqb s "") eqn:Hs; [discriminate|].
    destruct (startswith s "0x") eqn:Hp.
    + apply startswith_two in Hp as [r ->].
      change (string_drop 2 (String "0" (String "x" r))) with r.
      intros Hm. apply match_hex40_iff in Hm as (h & Hh & [-> | ->]);
        exists h; split; auto.
    + intros Hm. apply match_hex40_iff in Hm as (h & Hh & [-> | ->]);
        exists h; split; auto.
  - intros (h & Hh & Hcase).
    assert (Hm : match_hex40 h = true /\ match_hex40 (h +:+ newline) = true)
      by (split; apply match_hex40_iff; exists h; auto).
    destruct Hm as [Hm1 Hm2]. destruct Hh as [Hl Hh].
    assert (Hnp : startswith h "0x" = false) by now apply all_hex_no_prefix.
    assert (Hnp' : startswith (h +:+ newline) "0x" = false).
    { destruct (startswith (h +:+ newline) "0x") eqn:Hp; [|reflexivity].
      apply startswith_two in Hp as [r Hr].
      destruct h as [|c1 [|c2 h]]; simpl in Hl; try discriminate.
      simpl in Hr. injection Hr as -> -> _. simpl in Hh. discriminate. }
    assert (Hpre : forall b, startswith ("0x" +:+ b) "0x" = true)
      by (intros b; apply startswith_two; now exists b).
    destruct Hcase as [-> | [-> | [-> | ->]]].
    + rewrite Hnp. destruct h; [discriminate | exact Hm1].
    + rewrite Hpre. exact Hm1.
    + rewrite Hnp'. destruct h; [discriminate | exact Hm2].
    + rewrite Hpre. exact Hm2.
Qed.

(* ===================================================================== *)
(** * Properties of the transaction parser *)
(* ===================================================================== *)

(** What the parser establishes of every record it returns. *)
Definition well_parsed (t : WalletTransaction) : Prop :=
  wallet_address t = to_address t
  /\ direction t = "in"
  /\ is_valid_ethereum_address (from_address t) = true
  /\ is_valid_ethereum_address (to_address t) = true.

(** The record [t] was read from the row [tx]. *)
Definition parsed_from `{Platform} (token : TokenInfo) (tx : raw_tx)
    (t : WalletTransaction) : Prop :=
  tx !! "hash" = Some (tx_hash t)
  /\ tx !! "value" = Some (token_amount_raw t)
  /\ (exists bn, tx !! "blockNumber" = Some bn /\ py_int bn = Ok (block_number t))
  /\ (exists f, tx !! "from" = Some f /\ from_address t = normalize_address f)
  /\ (exists a, tx !! "to" = Some a /\ to_address t = normalize_address a)
  /\ (exists d, Dec.of_string (token_amount_raw t) = Ok d
                /\ format_token_amount d (decimals token) = Ok (token_amount t))
  /\ gas_price t = tx !! "gasPrice".

Section ParserFacts.
Context `{Platform}.

Local Ltac bind_step :=
  match goal with
  | |- rbind ?m _ = _ -> _ =>
      let E := fresh "E" in
      destruct m eqn:E; cbn [rbind]; [|discriminate]
  end.

Lemma getitem_ok (tx : raw_tx) (k v : string) :
  getitem tx k = Ok v -> tx !! k = Some v.
Proof. unfold getitem. destruct (tx !! k); congruence. Qed.

Lemma parse_row_some (tx : raw_tx) (token : TokenInfo) (t : WalletTransaction) :
  parse_row tx token = Ok (Some t) -> well_parsed t /\ parsed_from token tx t.
Proof.
  unfold parse_row.
  destruct (negb (forallb (has_field tx) required_fields)); [discriminate|].
  do 8 bind_step.
  match goal with
  | |- (if ?c then _ else _) = _ -> _ => destruct c eqn:Hv; [discriminate|]
  end.
  apply orb_false_iff in Hv as [Hf Ht].
  apply negb_false_iff in Hf, Ht.
  do 4 bind_step.
  intros [= <-]. unfold well_parsed, parsed_from. cbn.
  repeat split; try assumption; try reflexivity; eauto using getitem_ok.
Qed.

(** The loop only adds records, each read from a row, in the order of
    the rows. *)
Lemma parse_loop_spec (raw : list raw_tx) (token : TokenInfo)
    (acc out : list WalletTransaction) :
  parse_loop raw token acc = Ok out ->
  exists rows new,
    out = acc ++ new /\ rows `sublist_of` raw
    /\ Forall2 (parsed_from token) rows new /\ Forall well_parsed new.
Proof.
  revert acc. induction raw as [|tx rest IH]; intros acc; cbn [parse_loop].
  - intros [= <-]. exists [], []. rewrite app_nil_r.
    repeat split; constructor.
  - destruct (parse_row tx token) as [[t|]|e] eqn:Hrow.
    + intros Hl. apply IH in Hl as (rows & new & -> & Hsub & HF & HW).
      apply parse_row_some in Hrow as [Hw Hp].
      exists (tx :: rows), (t :: new). rewrite <- app_assoc.
      repeat split; [now constructor | now constructor | now constructor].
    + intros Hl. apply IH in Hl as (rows & new & -> & Hsub & HF & HW).
      exists rows, new. repeat split; [now constructor | assumption..].
    + destruct (catches [ValueError; KeyError; TypeError; OverflowError] e);
        [|discriminate].
      intros Hl. apply IH in Hl as (rows & new & -> & Hsub & HF & HW).
      exists rows, new. repeat split; [now constructor | assumption..].
Qed.

Lemma parse_loop_app (pre post : list raw_tx) (token : TokenInfo)
    (acc : list WalletTransaction) :
  parse_loop (pre ++ post) token acc
  = let* mid := parse_loop pre token acc in parse_loop post token mid.
Proof.
  revert acc.
  induction pre as [|tx pre IH]; intros acc; cbn [parse_loop app rbind];
    [reflexivity|].
  destruct (parse_row tx token) as [[t|]|e]; try apply IH.
  destruct (catches [ValueError; KeyError; TypeError; OverflowError] e);
    [apply IH | reflexivity].
Qed.

Lemma parse_unfold (raw : list raw_tx) (token : TokenInfo) :
  parse_etherscan_transactions raw token = parse_loop raw token [].
Proof. destruct raw; reflexivity. Qed.

Lemma parse_row_missing_field (tx : raw_tx) (token : TokenInfo) :
  forallb (has_field tx) required_fields = false ->
  parse_row tx token = Ok None.
Proof. intros Hm. unfold parse_row. now rewrite Hm. Qed.


End ParserFacts.

(** X3. Every record the parser returns is attributed to the recipient
    with direction [in], and both of its addresses are valid. *)
Theorem parsed_records_well_formed `{Platform} (raw : list raw_tx)
    (token : TokenInfo) (transactions : list WalletTransaction) :
  parse_etherscan_transactions raw token = Ok transactions ->
  Forall well_parsed transactions.
Proof.
  rewrite parse_unfold. intros Hp.
  apply parse_loop_spec in Hp as (rows & new & -> & _ & _ & HW). exact HW.
Qed.

(** X4. The parser preserves the order of the rows and invents nothing:
    the records it returns were read, one each and in order, from a
    subsequence of the rows, so there are at most as many records as
    rows. *)
Theorem parsed_records_in_order `{Platform} (raw : list raw_tx)
    (token : TokenInfo) (transactions : list WalletTransaction) :
  parse_etherscan_transactions raw token = Ok transactions ->
  (exists rows, rows `sublist_of` raw
                /\ Forall2 (parsed_from token) rows transactions)
  /\ (List.length transactions <= List.length raw)%nat.
Proof.
  rewrite parse_unfold. intros Hp.
  apply parse_loop_spec in Hp as (rows & new & -> & Hsub & HF & _).
  simpl. split; [now exists rows|].
  rewrite <- (Forall2_length _ _ _ HF). now apply sublist_length.
Qed.

(** X5. A row that lacks one of the required fields is skipped: the
    result is that of the history without the row. *)
Theorem row_with_missing_field_skipped `{Platform} (pre post : list raw_tx)
    (tx : raw_tx) (token : TokenInfo) :
  forallb (has_field tx) required_fields = false ->
  parse_etherscan_transactions (pre ++ tx :: post) token
  = parse_etherscan_transactions (pre ++ post) token.
Proof.
  intros Hm. rewrite !parse_unfold, !parse_loop_app.
  destruct (parse_loop pre token []) as [mid|e]; cbn [rbind]; [|reflexivity].
  cbn [parse_loop]. now rewrite (parse_row_missing_field tx token Hm).
Qed.


(** A row without a hash, and a row whose value is no number. *)
Definition row_without_hash : raw_tx := delete "hash" row_a_100.

(** X3 on a history of two transfers. *)
Lemma parsed_records_well_formed_witness :
  exists transactions,
    parse_etherscan_transactions (H := RefPlatform.platform)
      [row_b_50; row_a_100] sample_token = Ok transactions
    /\ map tx_hash transactions = ["0xbb"; "0xaa"]
    /\ Forall well_parsed transactions.
Proof.
  eexists. split; [vm_compute; reflexivity|]. split; [vm_compute; reflexivity|].
  apply (parsed_records_well_formed (H := RefPlatform.platform)
           [row_b_50; row_a_100] sample_token).
  vm_compute. reflexivity.
Defined.

(** X4 on a history whose second row is skipped. *)
Lemma parsed_records_in_order_witness :
  exists transactions,
    parse_etherscan_transactions (H := RefPlatform.platform)
      [row_b_50; row_without_hash; row_a_100] sample_token = Ok transactions
    /\ map tx_hash transactions = ["0xbb"; "0xaa"]
    /\ (exists rows, rows `sublist_of` [row_b_50; row_without_hash; row_a_100]
                     /\ Forall2 (parsed_from (H := RefPlatform.platform)
                                   sample_token) rows transactions)
    /\ (List.length transactions <= 3)%nat.
Proof.
  eexists. split; [vm_compute; reflexivity|]. split; [vm_compute; reflexivity|].
  apply (parsed_records_in_order (H := RefPlatform.platform)
           [row_b_50; row_without_hash; row_a_100] sample_token).
  vm_compute. reflexivity.
Defined.

(** X5 on the row without a hash. *)
Lemma row_with_missing_field_skipped_witness :
  forallb (has_field row_without_hash) required_fields = false
  /\ parse_etherscan_transactions (H := RefPlatform.platform)
       ([row_b_50] ++ row_without_hash :: [row_a_100]) sample_token
     = parse_etherscan_transactions (H := RefPlatform.platform)
         ([row_b_50] ++ [row_a_100]) sample_token.
Proof.
  split; [vm_compute; reflexivity|].
  apply (row_with_missing_field_skipped (H := RefPlatform.platform)
           [row_b_50] [row_a_100] row_without_hash sample_token).
  vm_compute. reflexivity.
Defined.


(* ===================================================================== *)
(** * The dictionary the grouper builds *)
(* ===================================================================== *)

(** The record [t] is filed under the wallet [w] it is about: as an
    inbound record of its recipient or an outbound record of its sender. *)
Definition filed_under (w : string) (t : WalletTransaction) : Prop :=
  wallet_address t = w
  /\ ((direction t = "in" /\ to_address t = w)
      \/ (direction t = "out" /\ from_address t = w
          /\ is_likely_contract w = false)).

(** The wallets transfer [r] is filed under. *)
Definition wallets_of (r : WalletTransaction) : list string :=
  to_address r
  :: (if is_likely_contract (from_address r) then [] else [from_address r]).

(** The dictionary of values a dictionary of addresses stands for in the
    store [h]. *)
Definition deref (h : list WalletTransaction) (d : wallet_dict nat)
    : wallet_dict WalletTransaction :=
  map (fun e => (fst e, omap (fun l => h !! l) (snd e))) d.

Section DictFacts.

Lemma dict_append_keys {A} (k : string) (v : A) (d : wallet_dict A) :
  map fst (dict_append k v d)
  = if bool_decide (k ∈ map fst d) then map fst d else map fst d ++ [k].
Proof.
  induction d as [|[k' l] r IH]; simpl; [reflexivity|].
  destruct (String.eqb k k') eqn:Hk.
  - apply String.eqb_eq in Hk. subst k'. simpl.
    rewrite bool_decide_eq_true_2 by (left). reflexivity.
  - apply String.eqb_neq in Hk. simpl. rewrite IH.
    destruct (bool_decide (k ∈ map fst r)) eqn:Hin.
    + apply bool_decide_eq_true_1 in Hin.
      rewrite bool_decide_eq_true_2 by (now right). reflexivity.
    + apply bool_decide_eq_false_1 in Hin.
      rewrite bool_decide_eq_false_2; [reflexivity|].
      rewrite elem_of_cons. intros [?|?]; [congruence | contradiction].
Qed.

Lemma dict_append_keys_nodup {A} (k : string) (v : A) (d : wallet_dict A) :
  NoDup (map fst d) -> NoDup (map fst (dict_append k v d)).
Proof.
  intros Hnd. rewrite dict_append_keys.
  destruct (bool_decide (k ∈ map fst d)) eqn:Hin; [exact Hnd|].
  apply bool_decide_eq_false_1 in Hin.
  apply NoDup_app. split; [exact Hnd|]. split.
  - intros x Hx Hk. apply list_elem_of_singleton in Hk. now subst x.
  - apply NoDup_singleton.
Qed.

Lemma dict_append_key_elem {A} (w k : string) (v : A) (d : wallet_dict A) :
  w ∈ map fst (dict_append k v d) <-> w ∈ map fst d \/ w = k.
Proof.
  rewrite dict_append_keys.
  destruct (bool_decide (k ∈ map fst d)) eqn:Hin.
  - apply bool_decide_eq_true_1 in Hin. split; [now left|].
    intros [? | ->]; assumption.
  - rewrite elem_of_app, list_elem_of_singleton. reflexivity.
Qed.

Lemma dict_append_entries {A} (P : string -> A -> Prop) (k : string) (v : A)
    (d : wallet_dict A) :
  Forall (fun e => snd e <> [] /\ Forall (P (fst e)) (snd e)) d -> P k v ->
  Forall (fun e => snd e <> [] /\ Forall (P (fst e)) (snd e)) (dict_append k v d).
Proof.
  intros Hd Hv. induction d as [|[k' l] r IH]; simpl.
  - repeat constructor; [discriminate | exact Hv].
  - apply Forall_cons in Hd as [[Hne Hl] Hr]. simpl in Hne, Hl.
    destruct (String.eqb k k') eqn:Hk.
    + apply String.eqb_eq in Hk. subst k'.
      constructor; [|exact Hr]. simpl. split.
      * destruct l; discriminate.
      * apply Forall_app. split; [exact Hl | now repeat constructor].
    + constructor; [now split | now apply IH].
Qed.

Lemma recipient_filed (tx : WalletTransaction) :
  filed_under (to_address tx) (recipient_of tx).
Proof. split; [reflexivity|]. left. now split. Qed.

Lemma sender_filed (tx : WalletTransaction) :
  is_likely_contract (from_address tx) = false ->
  filed_under (from_address tx) (sender_of tx).
Proof. intros Hc. split; [reflexivity|]. right. now repeat split. Qed.

(** What the grouping loop preserves. *)
Definition grouped (d : wallet_dict WalletTransaction) : Prop :=
  NoDup (map fst d)
  /\ Forall (fun e => snd e <> [] /\ Forall (filed_under (fst e)) (snd e)) d.

Lemma group_step_grouped (d : wallet_dict WalletTransaction)
    (tx : WalletTransaction) :
  grouped d -> grouped (group_step d tx).
Proof.
  intros [Hnd Hd]. unfold group_step.
  destruct (is_likely_contract (from_address tx)) eqn:Hc; cbn [negb].
  - split; [now apply dict_append_keys_nodup|].
    apply dict_append_entries; [exact Hd | apply recipient_filed].
  - split; [now apply dict_append_keys_nodup, dict_append_keys_nodup|].
    apply dict_append_entries; [|now apply sender_filed].
    apply dict_append_entries; [exact Hd | apply recipient_filed].
Qed.

Lemma group_fold_grouped (txs : list WalletTransaction)
    (d : wallet_dict WalletTransaction) :
  grouped d -> grouped (fold_left group_step txs d).
Proof.
  revert d. induction txs as [|tx txs IH]; intros d Hd; simpl; [exact Hd|].
  apply IH, group_step_grouped, Hd.
Qed.

Lemma group_step_keys (d : wallet_dict WalletTransaction)
    (tx : WalletTransaction) (w : string) :
  w ∈ map fst (group_step d tx) <-> w ∈ map fst d \/ w ∈ wallets_of tx.
Proof.
  unfold group_step, wallets_of.
  destruct (is_likely_contract (from_address tx)); cbn [negb].
  - rewrite dict_append_key_elem, list_elem_of_singleton. reflexivity.
  - rewrite !dict_append_key_elem, !elem_of_cons, elem_of_nil. tauto.
Qed.

Lemma group_fold_keys (txs : list WalletTransaction)
    (d : wallet_dict WalletTransaction) (w : string) :
  w ∈ map fst (fold_left group_step txs d)
  <-> w ∈ map fst d \/ exists r, r ∈ txs /\ w ∈ wallets_of r.
Proof.
  revert d. induction txs as [|tx txs IH]; intros d; simpl.
  - split; [now left|]. intros [?|(r & Hr & _)]; [assumption|].
    now apply elem_of_nil in Hr.
  - rewrite IH, group_step_keys. split.
    + intros [[?|?]|(r & Hr & Hw)].
      * now left.
      * right. exists tx. split; [left | assumption].
      * right. exists r. split; [now right | assumption].
    + intros [?|(r & Hr & Hw)]; [now left; left|].
      apply elem_of_cons in Hr as [-> | Hr]; [now left; right|].
      right. now exists r.
Qed.

Lemma group_step_length (d : wallet_dict WalletTransaction)
    (tx : WalletTransaction) :
  (List.length d <= List.length (group_step d tx) <= List.length d + 2)%nat.
Proof.
  assert (Happ : forall A k (v : A) (d : wallet_dict A),
             (List.length d <= List.length (dict_append k v d)
              <= List.length d + 1)%nat).
  { intros A k v d0. induction d0 as [|[k' l] r IH]; simpl; [lia|].
    destruct (String.eqb k k'); simpl; lia. }
  unfold group_step.
  pose proof (Happ _ (to_address tx) (recipient_of tx) d) as H1.
  destruct (negb (is_likely_contract (from_address tx))); [|lia].
  pose proof (Happ _ (from_address tx) (sender_of tx)
                (dict_append (to_address tx) (recipient_of tx) d)) as H2.
  lia.
Qed.

Lemma group_fold_length (txs : list WalletTransaction)
    (d : wallet_dict WalletTransaction) :
  (List.length d <= List.length (fold_left group_step txs d)
   <= List.length d + 2 * List.length txs)%nat.
Proof.
  revert d. induction txs as [|tx txs IH]; intros d; simpl; [lia|].
  pose proof (IH (group_step d tx)) as H1.
  pose proof (group_step_length d tx) as H2. lia.
Qed.

End DictFacts.

(** X7. The dictionary of the grouper has each wallet once as a key; no
    list is empty; and every record is filed under the wallet it is
    about, as an inbound record of its recipient or as an outbound record
    of its sender, which is then no likely contract. *)
Theorem grouped_dictionary_well_formed (transactions : list WalletTransaction) :
  NoDup (map fst (group_transactions_by_wallet transactions))
  /\ Forall (fun e => snd e <> [] /\ Forall (filed_under (fst e)) (snd e))
            (group_transactions_by_wallet transactions).
Proof.
  apply (group_fold_grouped transactions []).
  split; constructor.
Qed.

(** X8. The keys of the dictionary are the recipients of the transfers
    and the senders that are no likely contracts; so the number of keys
    (the report's [unique_wallets]) is at most twice the number of
    transfers. *)
Theorem grouped_keys (transactions : list WalletTransaction) (w : string) :
  (w ∈ map fst (group_transactions_by_wallet transactions)
   <-> exists r, r ∈ transactions
                 /\ (w = to_address r
                     \/ (w = from_address r
                         /\ is_likely_contract (from_address r) = false)))
  /\ (List.length (group_transactions_by_wallet transactions)
      <= 2 * List.length transactions)%nat.
Proof.
  split.
  - unfold group_transactions_by_wallet. rewrite group_fold_keys. simpl.
    split.
    + intros [Hnil|(r & Hr & Hw)]; [now apply elem_of_nil in Hnil|].
      exists r. split; [exact Hr|]. unfold wallets_of in Hw.
      apply elem_of_cons in Hw as [-> | Hw]; [now left|].
      destruct (is_likely_contract (from_address r)) eqn:Hc;
        [now apply elem_of_nil in Hw|].
      apply list_elem_of_singleton in Hw. right. now split.
    + intros (r & Hr & Hw). right. exists r. split; [exact Hr|].
      unfold wallets_of. destruct Hw as [-> | [-> Hc]]; [left|].
      rewrite Hc. right. left.
  - pose proof (group_fold_length transactions []) as Hl.
    unfold group_transactions_by_wallet. simpl in Hl. lia.
Qed.

(* ===================================================================== *)
(** * The grouper on the store and the grouper on values *)
(* ===================================================================== *)

Section RefinementFacts.

Lemma deref_dict_append (h : list WalletTransaction) (k : string) (r : nat)
    (v : WalletTransaction) (d : wallet_dict nat) :
  h !! r = Some v ->
  deref h (dict_append k r d) = dict_append k v (deref h d).
Proof.
  intros Hr. unfold deref. induction d as [|[k' l] d IH]; simpl.
  - now rewrite Hr.
  - destruct (String.eqb k k'); simpl.
    + rewrite omap_app. simpl. now rewrite Hr.
    + now rewrite IH.
Qed.

Lemma deref_ext (h h' : list WalletTransaction) (d : wallet_dict nat) :
  (forall x, x ∈ locs d -> h' !! x = h !! x) -> deref h' d = deref h d.
Proof.
  unfold deref, locs. induction d as [|[k l] d IH]; intros Hx; simpl;
    [reflexivity|].
  rewrite IH.
  - f_equal. f_equal. simpl in Hx.
    assert (Hl : forall x, x ∈ l -> h' !! x = h !! x).
    { intros x Hin. apply Hx. apply elem_of_app. now left. }
    apply list_omap_ext. clear Hx IH.
    induction l as [|x l IHl]; constructor.
    + apply Hl. left.
    + apply IHl. intros y Hy. apply Hl. now right.
  - intros x Hin. apply Hx. simpl. apply elem_of_app. now right.
Qed.

Lemma assign_lookup_eq (h : list WalletTransaction) (r : nat) f
    (o : WalletTransaction) :
  h !! r = Some o -> assign h r f !! r = Some (f o).
Proof.
  intros Hr. unfold assign. rewrite Hr.
  apply list_lookup_insert_eq. now apply lookup_lt_Some in Hr.
Qed.

(** The store and the dictionary of addresses after a step stand for the
    dictionary of values after the same step. *)
Definition refines (h0 : list WalletTransaction)
    (st : list WalletTransaction * wallet_dict nat)
    (d : wallet_dict WalletTransaction) : Prop :=
  (List.length h0 <= List.length (fst st))%nat
  /\ (forall l, (l < List.length h0)%nat -> fst st !! l = h0 !! l)
  /\ (forall x, x ∈ locs (snd st) -> (x < List.length (fst st))%nat)
  /\ deref (fst st) (snd st) = d.

Lemma group_step_refines (h0 : list WalletTransaction)
    (st : list WalletTransaction * wallet_dict nat)
    (d : wallet_dict WalletTransaction) (l : nat) (tx : WalletTransaction) :
  h0 !! l = Some tx -> refines h0 st d ->
  refines h0 (group_step_st st l) (group_step d tx).
Proof.
  destruct st as [h dl]. intros Hl (Hlen & Hold & Hrange & Hd); simpl in *.
  assert (Hhl : h !! l = Some tx).
  { rewrite Hold; [exact Hl|]. now apply lookup_lt_Some in Hl. }
  unfold group_step_st, group_step. rewrite Hhl. unfold alloc.
  set (r := List.length h).
  set (f1 := fun o => set_wallet_address o (to_address tx)).
  set (f2 := fun o => set_direction o "in").
  set (h1 := assign (assign (h ++ [tx]) r f1) r f2).
  assert (Hlen1 : List.length h1 = S (List.length h)).
  { unfold h1. rewrite !assign_length, length_app. simpl. lia. }
  assert (Hold1 : forall x, (x < List.length h)%nat -> h1 !! x = h !! x).
  { intros x Hx. unfold h1.
    rewrite !assign_lookup_ne by (unfold r; lia). now apply lookup_app_l. }
  assert (Hr : h1 !! r = Some (recipient_of tx)).
  { unfold h1.
    rewrite (assign_lookup_eq _ r f2 (f1 tx)); [reflexivity|].
    apply assign_lookup_eq. unfold r. rewrite lookup_app_r by lia.
    now rewrite Nat.sub_diag. }
  assert (Hd1 : deref h1 (dict_append (to_address tx) r dl)
                = dict_append (to_address tx) (recipient_of tx) d).
  { rewrite (deref_dict_append h1 _ r (recipient_of tx) dl Hr). f_equal.
    rewrite <- Hd. apply deref_ext.
    intros x Hx. apply Hold1. now apply Hrange. }
  assert (Hrange1 : forall x, x ∈ locs (dict_append (to_address tx) r dl) ->
            (x < List.length h1)%nat).
  { intros x. rewrite locs_dict_append, elem_of_cons. intros [-> | Hin].
    - unfold r. lia.
    - apply Hrange in Hin. lia. }
  destruct (negb (is_likely_contract (from_address tx))).
  - set (s := List.length h1).
    unfold refines; simpl.
    split; [rewrite length_app; simpl; lia|].
    split.
    { intros x Hx. rewrite lookup_app_l by lia.
      rewrite Hold1 by lia. now apply Hold. }
    split.
    { intros x. rewrite locs_dict_append, elem_of_cons, length_app. simpl.
      intros [-> | Hin]; [unfold s; lia|].
      apply Hrange1 in Hin. lia. }
    rewrite (deref_dict_append _ _ s (sender_of tx)).
    + f_equal. rewrite <- Hd1. apply deref_ext.
      intros x Hx. apply lookup_app_l. now apply Hrange1.
    + unfold s. rewrite lookup_app_r by lia. now rewrite Nat.sub_diag.
  - unfold refines; simpl.
    split; [lia|].
    split; [intros x Hx; rewrite Hold1 by lia; now apply Hold|].
    split; assumption.
Qed.

Lemma group_fold_refines (h0 : list WalletTransaction) (ls : list nat)
    (txs : list WalletTransaction)
    (st : list WalletTransaction * wallet_dict nat)
    (d : wallet_dict WalletTransaction) :
  Forall2 (fun l tx => h0 !! l = Some tx) ls txs -> refines h0 st d ->
  refines h0 (fold_left group_step_st ls st) (fold_left group_step txs d).
Proof.
  intros HF. revert st d.
  induction HF as [|l tx ls txs Hl HF IH]; intros st d Hst; simpl;
    [exact Hst|].
  apply IH. now apply group_step_refines.
Qed.

End RefinementFacts.

(** X9. The grouper on the store computes the dictionary of the grouper
    on values: when the list it is given holds addresses of objects of
    the store, reading the addresses of the resulting dictionary in the
    resulting store gives the dictionary that grouping the values of
    those objects gives. *)
Theorem store_grouper_refines (h : list WalletTransaction)
    (transactions : list nat) (values : list WalletTransaction) :
  Forall2 (fun l tx => h !! l = Some tx) transactions values ->
  deref (fst (group_transactions_by_wallet_st h transactions))
        (snd (group_transactions_by_wallet_st h transactions))
  = group_transactions_by_wallet values.
Proof.
  intros HF.
  apply (group_fold_refines h transactions values (h, []) [] HF).
  unfold refines, locs. simpl.
  split; [lia|]. split; [reflexivity|]. split; [|reflexivity].
  intros x Hx. now apply elem_of_nil in Hx.
Qed.

(** X9 on a store that holds one transfer between two wallets. *)
Lemma store_grouper_refines_witness :
  let h := [transfer wallet_a wallet_b 100 thousand_tokens] in
  deref (fst (group_transactions_by_wallet_st h [0%nat]))
        (snd (group_transactions_by_wallet_st h [0%nat]))
  = group_transactions_by_wallet h.
Proof.
  apply (store_grouper_refines
           [transfer wallet_a wallet_b 100 thousand_tokens] [0%nat]
           [transfer wallet_a wallet_b 100 thousand_tokens]).
  repeat constructor.
Defined.

(* ===================================================================== *)
(** * Further properties of the wallet analyzer *)
(* ===================================================================== *)

(** [acc + x1 + x2 + ...], added from the left. *)
Fixpoint dec_sum (amounts : list Decimal) (acc : Decimal) : res Decimal :=
  match amounts with
  | [] => Ok acc
  | x :: r => let* acc := Dec.add acc x in dec_sum r acc
  end.

(** The amounts of the inbound records, and of the other records. *)
Definition inbound_amounts (txs : list WalletTransaction) : list Decimal :=
  map token_amount (List.filter (has_direction "in") txs).
Definition outbound_amounts (txs : list WalletTransaction) : list Decimal :=
  map token_amount (List.filter (fun t => negb (has_direction "in" t)) txs).

(** The condition under which the analyzer flags a buyer, once the
    wallet is no airdrop recipient and its total is positive. *)
Definition buyer_pattern `{Platform} (n : Z) (first : WalletTransaction)
    (total : Decimal) : bool :=
  negb (is_round_number total) || (1 <? n)
  || ((n =? 1) && negb (is_likely_contract (from_address first))).

Definition airdrop_pattern `{Platform} (n : Z) (first : WalletTransaction)
    (total : Decimal) : bool :=
  (n =? 1) && String.eqb (direction first) "in"
  && is_likely_contract (from_address first) && is_round_number total.

Section SummaryFacts.
Context `{Platform}.

Lemma add_raises (a b : Decimal) (x : exn) :
  Dec.add a b = Raise x -> decimal_exn x.
Proof.
  unfold Dec.add, decimal_exn.
  destruct (Dec.check_nans2 a b) as [[d|e]|] eqn:Hn.
  - discriminate.
  - intros [= <-]. apply check_nans2_raises in Hn. auto.
  - destruct a as [sa ca ea|sa|?], b as [sb cb eb|sb|?]; try discriminate.
    + destruct ((ca =? 0)%N && (cb =? 0)%N);
        intros Hf; apply fix_raises in Hf; auto.
    + destruct (Bool.eqb sa sb); [discriminate|]. intros [= <-]. auto.
Qed.

Lemma decimal_exn_not_caught (x : exn) :
  decimal_exn x -> catches [TypeError; ValueError] x = false.
Proof. intros [->|[->| ->]]; reflexivity. Qed.

(** The inner [except] clause of the summing loop never fires: a record
    is never skipped. *)
Lemma sum_amounts_cons (tx : WalletTransaction) (rest : list WalletTransaction)
    (r s : Decimal) :
  sum_amounts (tx :: rest) r s
  = if String.eqb (direction tx) "in"
    then let* r' := Dec.add r (token_amount tx) in sum_amounts rest r' s
    else let* s' := Dec.add s (token_amount tx) in sum_amounts rest r s'.
Proof.
  cbn [sum_amounts].
  destruct (String.eqb (direction tx) "in").
  - destruct (Dec.add r (token_amount tx)) as [r'|x] eqn:Ha; cbn [rbind];
      [reflexivity|].
    now rewrite (decimal_exn_not_caught x (add_raises _ _ _ Ha)).
  - destruct (Dec.add s (token_amount tx)) as [s'|x] eqn:Ha; cbn [rbind];
      [reflexivity|].
    now rewrite (decimal_exn_not_caught x (add_raises _ _ _ Ha)).
Qed.

Lemma sum_amounts_sums (txs : list WalletTransaction) (r s r' s' : Decimal) :
  sum_amounts txs r s = Ok (r', s')
  <-> dec_sum (inbound_amounts txs) r = Ok r'
      /\ dec_sum (outbound_amounts txs) s = Ok s'.
Proof.
  revert r s. induction txs as [|tx rest IH]; intros r s.
  - simpl. split; [intros [= <- <-]; now split | intros [[= <-] [= <-]]; reflexivity].
  - rewrite sum_amounts_cons. unfold inbound_amounts, outbound_amounts.
    cbn [List.filter].
    change (has_direction "in" tx) with (String.eqb (direction tx) "in").
    destruct (String.eqb (direction tx) "in"); cbn [negb map dec_sum].
    + destruct (Dec.add r (token_amount tx)) as [r1|x]; cbn [rbind].
      * apply IH.
      * split; [discriminate | intros [? _]; discriminate].
    + destruct (Dec.add s (token_amount tx)) as [s1|x]; cbn [rbind].
      * apply IH.
      * split; [discriminate | intros [_ ?]; discriminate].
Qed.

Lemma analyze_body_inv (w : string) (txs : list WalletTransaction)
    (config : option Config) (a : WalletAnalysis) :
  analyze_wallet_body w txs config = Ok (Some a) ->
  exists first rest,
    sort_by_key block_number txs = first :: rest
    /\ sum_amounts (first :: rest) dec_zero dec_zero
       = Ok (total_received a, total_sent a)
    /\ Dec.sub (total_received a) (total_sent a) = Ok (net_position a)
    /\ not_below_threshold config (total_received a)
    /\ wa_wallet_address a = w /\ first_transaction a = first
    /\ transaction_count a = Z.of_nat (List.length (first :: rest))
    /\ estimated_eth_cost a = None /\ estimated_usd_value a = None
    /\ is_likely_airdrop a
       = airdrop_pattern (transaction_count a) first (total_received a)
    /\ (if is_likely_airdrop a then is_likely_buyer a = false
        else exists positive,
            Dec.gt (total_received a) (Dec.of_Z 0) = Ok positive
            /\ is_likely_buyer a
               = positive && buyer_pattern (transaction_count a) first
                               (total_received a)).
Proof.
  unfold analyze_wallet_body.
  destruct (sort_by_key block_number txs) as [|first rest]; [discriminate|].
  destruct (sum_amounts (first :: rest) dec_zero dec_zero) as [[r s]|e] eqn:Hsum;
    cbn [rbind]; [|discriminate].
  destruct (Dec.sub r s) as [net|e] eqn:Hsub; cbn [rbind]; [|discriminate].
  destruct (match config with
            | Some cfg => Dec.lt r (Flt.repr_decimal (min_token_amount cfg))
            | None => Ok false
            end) as [[|]|e] eqn:Hthr; cbn [rbind]; try discriminate.
  assert (Hnb : not_below_threshold config r).
  { unfold not_below_threshold. destruct config; [exact Hthr | exact I]. }
  fold (airdrop_pattern (Z.of_nat (List.length (first :: rest))) first r).
  fold (buyer_pattern (Z.of_nat (List.length (first :: rest))) first r).
  destruct (airdrop_pattern _ first r) eqn:Hair; cbn [negb rbind].
  - intros [= <-]. exists first, rest.
    cbn [wa_wallet_address first_transaction total_received total_sent
         net_position transaction_count estimated_eth_cost
         estimated_usd_value is_likely_buyer is_likely_airdrop].
    change (S (List.length rest)) with (List.length (first :: rest)).
    rewrite Hair. repeat split; assumption.
  - destruct (Dec.gt r (Dec.of_Z 0)) as [positive|e] eqn:Hgt; cbn [rbind];
      [|discriminate].
    assert (Hb : (if positive
                  then Ok (buyer_pattern (Z.of_nat (List.length (first :: rest)))
                             first r)
                  else Ok false)
                 = Ok (positive && buyer_pattern
                                     (Z.of_nat (List.length (first :: rest)))
                                     first r))
      by (destruct positive; reflexivity).
    rewrite Hb. cbn [rbind]. intros [= <-]. exists first, rest.
    cbn [wa_wallet_address first_transaction total_received total_sent
         net_position transaction_count estimated_eth_cost
         estimated_usd_value is_likely_buyer is_likely_airdrop].
    change (S (List.length rest)) with (List.length (first :: rest)).
    rewrite Hair. repeat split; try assumption.
    exists positive. split; [exact Hgt | reflexivity].
Qed.

Lemma analyze_inv (w : string) (txs : list WalletTransaction)
    (config : option Config) (a : WalletAnalysis) :
  analyze_wallet_transactions w txs config = Some a ->
  analyze_wallet_body w txs config = Ok (Some a).
Proof.
  unfold analyze_wallet_transactions.
  destruct (analyze_wallet_body w txs config) as [r|e]; [|discriminate].
  now intros ->.
Qed.

Lemma round_number_positive (amount : Decimal) :
  is_round_number amount = true -> positive_amount amount.
Proof.
  unfold is_round_number, is_round_number_body, positive_amount, Dec.le, Dec.gt.
  destruct (Dec.cmp amount (Dec.of_Z 0)) as [[| |]|e]; cbn [rbind];
    try discriminate.
  reflexivity.
Qed.

Lemma sorted_head_min {A} (key : A -> Z) (l : list A) (first : A) (rest : list A) :
  sort_by_key key l = first :: rest ->
  first ∈ l /\ Forall (fun t => key first <= key t) l.
Proof.
  intros Hs.
  pose proof (sort_by_key_perm key l) as Hp.
  pose proof (sort_by_key_sorted key l) as Hsorted.
  rewrite Hs in Hp, Hsorted.
  apply StronglySorted_inv in Hsorted as [_ Hmin].
  split.
  - rewrite <- Hp. left.
  - rewrite <- Hp. constructor; [lia | exact Hmin].
Qed.

End SummaryFacts.

(** X10. The totals of a summary are the sums of the amounts, added from
    [Decimal('0')] in ascending block order: of the inbound records for
    [total_received] and of all other records for [total_sent]; the net
    position is their difference. No record is left out of the sums: the
    inner [except (TypeError, ValueError)] never fires, as an addition of
    decimals raises neither. *)
Theorem summary_totals `{Platform} (w : string) (txs : list WalletTransaction)
    (config : option Config) (a : WalletAnalysis) :
  analyze_wallet_transactions w txs config = Some a ->
  dec_sum (inbound_amounts (sort_by_key block_number txs)) dec_zero
  = Ok (total_received a)
  /\ dec_sum (outbound_amounts (sort_by_key block_number txs)) dec_zero
     = Ok (total_sent a)
  /\ Dec.sub (total_received a) (total_sent a) = Ok (net_position a)
  /\ not_below_threshold config (total_received a).
Proof.
  intros Ha. apply analyze_inv, analyze_body_inv in Ha
    as (first & rest & Hs & Hsum & Hsub & Hnb & _).
  rewrite Hs. apply sum_amounts_sums in Hsum as [Hr Hsent].
  repeat split; assumption.
Qed.

(** X11. A summary names the wallet it was asked about, counts all its
    records, and its first transaction is a record of the wallet in the
    lowest block; the analyzer sets no cost estimate. *)
Theorem summary_fields `{Platform} (w : string) (txs : list WalletTransaction)
    (config : option Config) (a : WalletAnalysis) :
  analyze_wallet_transactions w txs config = Some a ->
  wa_wallet_address a = w
  /\ transaction_count a = Z.of_nat (List.length txs)
  /\ first_transaction a ∈ txs
  /\ Forall (fun t => block_number (first_transaction a) <= block_number t) txs
  /\ estimated_eth_cost a = None /\ estimated_usd_value a = None.
Proof.
  intros Ha. apply analyze_inv, analyze_body_inv in Ha
    as (first & rest & Hs & _ & _ & _ & Hw & Hf & Hn & Hc1 & Hc2 & _).
  apply sorted_head_min in Hs as Hmin. destruct Hmin as [Hin Hmin].
  rewrite Hf. repeat split; try assumption.
  rewrite Hn, <- Hs. now rewrite (sort_by_key_perm block_number txs).
Qed.

(** X12. A summary is flagged, as buyer or as airdrop, exactly when its
    total received is positive. *)
Theorem flagged_iff_positive `{Platform} (w : string)
    (txs : list WalletTransaction) (config : option Config) (a : WalletAnalysis) :
  analyze_wallet_transactions w txs config = Some a ->
  is_likely_buyer a || is_likely_airdrop a = true
  <-> positive_amount (total_received a).
Proof.
  intros Ha. apply analyze_inv, analyze_body_inv in Ha
    as (first & rest & Hs & Hsum & _ & _ & _ & _ & Hn & _ & _ & Hair & Hbuy).
  destruct (is_likely_airdrop a) eqn:Ea.
  - rewrite orb_true_r. split; [intros _ | reflexivity].
    symmetry in Hair. unfold airdrop_pattern in Hair.
    apply andb_true_iff in Hair as [_ Hround].
    now apply round_number_positive.
  - rewrite orb_false_r. destruct Hbuy as (positive & Hgt & Hb).
    unfold positive_amount. rewrite Hgt, Hb. split.
    + intros Hp. apply andb_true_iff in Hp as [-> _]. reflexivity.
    + intros [= ->]. cbn [andb].
      destruct (buyer_pattern (transaction_count a) first (total_received a))
        eqn:Hpat; [reflexivity | exfalso].
      unfold buyer_pattern in Hpat.
      apply orb_false_iff in Hpat as [Hpat Hone].
      apply orb_false_iff in Hpat as [Hround Hmany].
      apply negb_false_iff in Hround. apply Z.ltb_ge in Hmany.
      assert (Hrest : rest = []).
      { rewrite Hn in Hmany. destruct rest; [reflexivity | simpl in Hmany; lia]. }
      subst rest. rewrite Hn in Hone, Hair. unfold airdrop_pattern in Hair.
      change (Z.of_nat (List.length [first]) =? 1) with true in Hone, Hair.
      cbn [andb] in Hone, Hair.
      apply negb_false_iff in Hone.
      symmetry in Hair. rewrite Hone, Hround, !andb_true_r in Hair.
      rewrite sum_amounts_cons, Hair in Hsum.
      destruct (Dec.add dec_zero (token_amount first)); cbn [rbind] in Hsum;
        [|discriminate].
      injection Hsum as Hr _. rewrite <- Hr in Hgt. discriminate.
Qed.

(** X13. A wallet that has no inbound record (one that only sent tokens)
    gets, when it gets a summary, a total received of [Decimal('0')] and
    neither flag. *)
Theorem sender_only_unflagged `{Platform} (w : string)
    (txs : list WalletTransaction) (config : option Config) (a : WalletAnalysis) :
  Forall (fun t => has_direction "in" t = false) txs ->
  analyze_wallet_transactions w txs config = Some a ->
  total_received a = dec_zero
  /\ is_likely_buyer a = false /\ is_likely_airdrop a = false.
Proof.
  intros Hout Ha. apply analyze_inv, analyze_body_inv in Ha
    as (first & rest & Hs & Hsum & _ & _ & _ & _ & _ & _ & _ & Hair & Hbuy).
  assert (Hsorted : Forall (fun t => has_direction "in" t = false) (first :: rest)).
  { rewrite <- Hs. now rewrite (sort_by_key_perm block_number txs). }
  apply sum_amounts_sums in Hsum as [Hr _].
  assert (Hnone : inbound_amounts (first :: rest) = []).
  { unfold inbound_amounts. clear -Hsorted.
    induction Hsorted as [|t l Ht Hl IH]; [reflexivity|].
    cbn [List.filter]. rewrite Ht. exact IH. }
  rewrite Hnone in Hr. injection Hr as Hr.
  assert (Hno : is_likely_airdrop a = false).
  { rewrite Hair. unfold airdrop_pattern.
    apply Forall_cons in Hsorted as [Hf _]. unfold has_direction in Hf.
    rewrite Hf. now rewrite andb_false_r. }
  rewrite Hno in Hbuy. destruct Hbuy as (positive & Hgt & Hb).
  rewrite <- Hr in Hgt. injection Hgt as <-.
  split; [now symmetry|]. split; [exact Hb | exact Hno].
Qed.

(** Two inbound transfers to [wallet_b], the later one first, and the
    outbound record of a transfer from [wallet_a]. *)
Definition two_inbound : list WalletTransaction :=
  [transfer wallet_a wallet_b 120 thousand_tokens;
   transfer uniswap_v2_router wallet_b 100 thousand_tokens].
Definition one_outbound : list WalletTransaction :=
  [sender_of (transfer wallet_a wallet_b 100 thousand_tokens)].

(** X10 on the two inbound transfers: the total is 2000 tokens. *)
Lemma summary_totals_witness :
  exists a,
    analyze_wallet_transactions (H := RefPlatform.platform) wallet_b
      two_inbound (Some default_config) = Some a
    /\ total_received a = DFinite false 2000000000 (-6)
    /\ dec_sum (inbound_amounts (sort_by_key block_number two_inbound)) dec_zero
       = Ok (total_received a)
    /\ dec_sum (outbound_amounts (sort_by_key block_number two_inbound)) dec_zero
       = Ok (total_sent a)
    /\ Dec.sub (total_received a) (total_sent a) = Ok (net_position a)
    /\ not_below_threshold (Some default_config) (total_received a).
Proof.
  eexists. split; [vm_compute; reflexivity|]. split; [vm_compute; reflexivity|].
  apply (summary_totals (H := RefPlatform.platform) wallet_b two_inbound
           (Some default_config)).
  vm_compute. reflexivity.
Defined.

(** X11 on the two inbound transfers: the first transaction is the one
    of block 100, which is second in the list. *)
Lemma summary_fields_witness :
  exists a,
    analyze_wallet_transactions (H := RefPlatform.platform) wallet_b
      two_inbound (Some default_config) = Some a
    /\ block_number (first_transaction a) = 100
    /\ wa_wallet_address a = wallet_b
    /\ transaction_count a = Z.of_nat (List.length two_inbound)
    /\ first_transaction a ∈ two_inbound
    /\ Forall (fun t => block_number (first_transaction a) <= block_number t)
              two_inbound
    /\ estimated_eth_cost a = None /\ estimated_usd_value a = None.
Proof.
  eexists. split; [vm_compute; reflexivity|]. split; [vm_compute; reflexivity|].
  apply (summary_fields (H := RefPlatform.platform) wallet_b two_inbound
           (Some default_config)).
  vm_compute. reflexivity.
Defined.

(** X12 on the two inbound transfers. *)
Lemma flagged_iff_positive_witness :
  exists a,
    analyze_wallet_transactions (H := RefPlatform.platform) wallet_b
      two_inbound (Some default_config) = Some a
    /\ is_likely_buyer a = true
    /\ (is_likely_buyer a || is_likely_airdrop a = true
        <-> positive_amount (total_received a)).
Proof.
  eexists. split; [vm_compute; reflexivity|]. split; [vm_compute; reflexivity|].
  apply (flagged_iff_positive (H := RefPlatform.platform) wallet_b two_inbound
           (Some default_config)).
  vm_compute. reflexivity.
Defined.

(** X13 on the outbound record: with the default threshold of 0 the
    wallet gets a summary, with neither flag. *)
Lemma sender_only_unflagged_witness :
  exists a,
    analyze_wallet_transactions (H := RefPlatform.platform) wallet_a
      one_outbound (Some default_config) = Some a
    /\ total_received a = dec_zero
    /\ is_likely_buyer a = false /\ is_likely_airdrop a = false.
Proof.
  eexists. split; [vm_compute; reflexivity|].
  apply (sender_only_unflagged (H := RefPlatform.platform) wallet_a one_outbound
           (Some default_config)).
  - repeat constructor.
  - vm_compute. reflexivity.
Defined.

(* ===================================================================== *)
(** * The report and the airdrop filter of [track] ([main.py], lines 366-374) *)
(* ===================================================================== *)

Definition set_earliest_wallets (analysis : TokenAnalysis)
    (ws : list WalletAnalysis) : TokenAnalysis :=
  {| token_info := token_info analysis;
     total_transactions := total_transactions analysis;
     unique_wallets := unique_wallets analysis;
     earliest_wallets := ws;
     analysis_date := analysis_date analysis |}.

(** The statement of [track] that drops the likely airdrops from the
    report when they are not to be included. *)
Definition filter_airdrops (config : Config) (analysis : TokenAnalysis)
    : TokenAnalysis :=
  if negb (include_likely_airdrops config)
  then set_earliest_wallets analysis
         (List.filter (fun wallet => negb (is_likely_airdrop wallet))
                      (earliest_wallets analysis))
  else analysis.

(** The report [track] displays or exports: the analysis, filtered. *)
Definition track_report `{Platform} (token_info : TokenInfo)
    (raw_transactions : list raw_tx) (eth_price_usd : spec_float)
    (config : Config) (now : datetime) : res TokenAnalysis :=
  let* analysis :=
    analyze_token_interactions token_info raw_transactions eth_price_usd
      config now in
  Ok (filter_airdrops config analysis).

(** The summary's total reaches the threshold of the configuration. *)
Definition meets_threshold (config : Config) (a : WalletAnalysis) : Prop :=
  Dec.ge (total_received a) (Flt.to_decimal (min_token_amount config)) = Ok true.

Section ReportFacts.
Context `{Platform}.

Lemma with_cost_fields (a e : WalletAnalysis) (p : spec_float) :
  with_cost e p = Ok a ->
  wa_wallet_address a = wa_wallet_address e
  /\ total_received a = total_received e
  /\ is_likely_airdrop a = is_likely_airdrop e
  /\ is_likely_buyer a = is_likely_buyer e.
Proof.
  unfold with_cost.
  destruct (_ && _ && _); [|now intros [= <-]].
  destruct (estimate_transaction_cost_usd _ _ _); cbn [rbind]; [|discriminate].
  now intros [= <-].
Qed.

Lemma eligible_fields (cfg : Config) (item : string * list WalletTransaction)
    (e : WalletAnalysis) :
  eligible cfg item = Some e ->
  wa_wallet_address e = fst item /\ meets_threshold cfg e.
Proof.
  unfold eligible, meets_threshold.
  destruct (analyze_wallet_transactions (fst item) (snd item) (Some cfg))
    as [a|] eqn:Ha; [|discriminate].
  destruct (Dec.ge _ _) as [[|]|] eqn:Hge; try discriminate.
  intros [= <-]. split; [|exact Hge].
  apply analyze_inv, analyze_body_inv in Ha
    as (first & rest & _ & _ & _ & _ & Hw & _).
  exact Hw.
Qed.

Lemma eligible_keys_sublist (cfg : Config) (d : wallet_dict WalletTransaction) :
  map wa_wallet_address (omap (eligible cfg) d) `sublist_of` map fst d.
Proof.
  induction d as [|item d IH]; simpl; [constructor|].
  destruct (eligible cfg item) as [e|] eqn:He.
  - apply eligible_fields in He as [Hw _]. simpl. rewrite Hw. now constructor.
  - now constructor.
Qed.

Lemma costed_addresses (p : spec_float) (kept es : list WalletAnalysis) :
  Forall2 (costed p) kept es ->
  map wa_wallet_address kept = map wa_wallet_address es.
Proof.
  induction 1 as [|a e kept es Hc HF IH]; simpl; [reflexivity|].
  apply with_cost_fields in Hc as (-> & _). now rewrite IH.
Qed.

Lemma costed_threshold (cfg : Config) (p : spec_float)
    (kept es : list WalletAnalysis) :
  Forall2 (costed p) kept es -> Forall (meets_threshold cfg) es ->
  Forall (meets_threshold cfg) kept.
Proof.
  induction 1 as [|a e kept es Hc HF IH]; intros Hes; [constructor|].
  apply Forall_cons in Hes as [He Hes].
  constructor; [|now apply IH].
  apply with_cost_fields in Hc as (_ & Hr & _).
  unfold meets_threshold in *. now rewrite Hr.
Qed.

Lemma eligible_all_meet (cfg : Config) (d : wallet_dict WalletTransaction) :
  Forall (meets_threshold cfg) (omap (eligible cfg) d).
Proof.
  apply Forall_forall. intros e He.
  apply list_elem_of_omap in He as (item & _ & He).
  now apply eligible_fields in He.
Qed.

Lemma slice_to_take {A} (l : list A) (n : Z) : exists k, slice_to l n = take k l.
Proof. unfold slice_to. destruct (0 <=? n); eexists; reflexivity. Qed.

Lemma StronglySorted_sublist {A} (R : A -> A -> Prop) (l k : list A) :
  l `sublist_of` k -> StronglySorted R k -> StronglySorted R l.
Proof.
  induction 1 as [|x l k Hs IH|x l k Hs IH]; intros Hk.
  - constructor.
  - apply StronglySorted_inv in Hk as [Hk Hx].
    constructor; [now apply IH|].
    apply Forall_forall. intros y Hy. rewrite Forall_forall in Hx.
    apply Hx. eapply elem_of_sublist; [exact Hy | exact Hs].
  - apply StronglySorted_inv in Hk as [Hk _]. now apply IH.
Qed.

Lemma filter_sublist {A} (f : A -> bool) (l : list A) :
  List.filter f l `sublist_of` l.
Proof.
  induction l as [|x l IH]; simpl; [constructor|].
  destruct (f x); now constructor.
Qed.

(** What a successful run of [analyze_token_interactions] computed. *)
Lemma report_inv (token : TokenInfo) (raw : list raw_tx) (p : spec_float)
    (cfg : Config) (now : datetime) (report : TokenAnalysis) :
  analyze_token_interactions token raw p cfg now = Ok report ->
  exists transactions kept k,
    parse_etherscan_transactions raw token = Ok transactions
    /\ Forall2 (costed p) kept
         (take (Z.to_nat (max_early_wallets cfg))
               (omap (eligible cfg) (group_transactions_by_wallet transactions)))
    /\ earliest_wallets report = take k (sort_by_key first_block kept)
    /\ total_transactions report = Z.of_nat (List.length transactions)
    /\ unique_wallets report
       = Z.of_nat (List.length (group_transactions_by_wallet transactions))
    /\ token_info report = token /\ analysis_date report = now.
Proof.
  unfold analyze_token_interactions.
  destruct raw as [|tx0 raw].
  { intros [= <-]. exists [], [], 0%nat.
    split; [reflexivity|]. split; [|repeat split].
    change (omap (eligible cfg) (group_transactions_by_wallet []))
      with (@nil WalletAnalysis).
    rewrite take_nil. constructor. }
  destruct (parse_etherscan_transactions (tx0 :: raw) token)
    as [transactions|x] eqn:Hparse; cbn [rbind]; [|discriminate].
  destruct (analysis_loop (group_transactions_by_wallet transactions) cfg p [])
    as [was|x] eqn:Hloop; cbn [rbind]; [|discriminate].
  intros [= <-].
  apply analysis_loop_spec in Hloop as (kept & -> & HF).
  simpl in HF. rewrite Z.sub_0_r in HF.
  destruct (slice_to_take (sort_by_key first_block kept) (max_early_wallets cfg))
    as [k Hk].
  exists transactions, kept, k. cbn [earliest_wallets total_transactions
    unique_wallets token_info analysis_date]. simpl app. rewrite Hk.
  repeat split; try reflexivity. exact HF.
Qed.

End ReportFacts.

(** X14. In a report no wallet appears twice, every wallet is a key of
    the grouped dictionary and its total reaches the threshold; the
    report counts the parsed transfers (at most the rows) and the keys of
    the dictionary (at most two per transfer), and lists at most as many
    wallets as it counts. *)
Theorem report_wallets_and_counts `{Platform} (token : TokenInfo)
    (raw_transactions : list raw_tx) (eth_price_usd : spec_float)
    (config : Config) (now : datetime) (report : TokenAnalysis) :
  analyze_token_interactions token raw_transactions eth_price_usd config now
  = Ok report ->
  NoDup (map wa_wallet_address (earliest_wallets report))
  /\ Forall (meets_threshold config) (earliest_wallets report)
  /\ (exists transactions,
         parse_etherscan_transactions raw_transactions token = Ok transactions
         /\ map wa_wallet_address (earliest_wallets report)
            ⊆ map fst (group_transactions_by_wallet transactions)
         /\ total_transactions report = Z.of_nat (List.length transactions)
         /\ unique_wallets report
            = Z.of_nat (List.length (group_transactions_by_wallet transactions)))
  /\ 0 <= total_transactions report <= Z.of_nat (List.length raw_transactions)
  /\ unique_wallets report <= 2 * total_transactions report
  /\ Z.of_nat (List.length (earliest_wallets report)) <= unique_wallets report.
Proof.
  intros Hrun.
  apply report_inv in Hrun
    as (transactions & kept & k & Hparse & HF & Hearly & Htotal & Huniq & _).
  set (d := group_transactions_by_wallet transactions) in *.
  set (n := Z.to_nat (max_early_wallets config)) in *.
  pose proof (costed_addresses _ _ _ HF) as Haddr.
  assert (Hsub : map wa_wallet_address kept `sublist_of` map fst d).
  { rewrite Haddr. etransitivity; [|apply eligible_keys_sublist].
    rewrite <- firstn_map. apply sublist_take. }
  assert (Hnd : NoDup (map fst d))
    by (apply (group_fold_grouped transactions []); split; constructor).
  assert (Hperm : map wa_wallet_address (sort_by_key first_block kept)
                  ≡ₚ map wa_wallet_address kept)
    by (now rewrite (sort_by_key_perm first_block kept)).
  assert (Hshown : map wa_wallet_address (earliest_wallets report)
                   `sublist_of` map wa_wallet_address (sort_by_key first_block kept)).
  { rewrite Hearly, <- firstn_map. apply sublist_take. }
  assert (Hnd' : NoDup (map wa_wallet_address (sort_by_key first_block kept))).
  { rewrite Hperm. eapply sublist_NoDup; [exact Hnd | exact Hsub]. }
  split; [eapply sublist_NoDup; [exact Hnd' | exact Hshown]|].
  split.
  { rewrite Hearly. apply Forall_take.
    rewrite (sort_by_key_perm first_block kept).
    eapply costed_threshold; [exact HF|].
    apply Forall_take, eligible_all_meet. }
  split.
  { exists transactions. split; [exact Hparse|]. split; [|now split].
    intros x Hx. apply (elem_of_sublist _ _ _ Hx) in Hshown as Hx'.
    rewrite Hperm in Hx'. exact (elem_of_sublist _ _ _ Hx' Hsub). }
  pose proof (sublist_length _ _ Hshown) as L1.
  pose proof (Permutation_length Hperm) as L2.
  pose proof (sublist_length _ _ Hsub) as L3.
  rewrite !length_map in L1, L2, L3.
  assert (L4 : (List.length d <= 2 * List.length transactions)%nat).
  { pose proof (group_fold_length transactions []) as L4. simpl in L4.
    unfold d, group_transactions_by_wallet. lia. }
  assert (L5 : (List.length transactions <= List.length raw_transactions)%nat).
  { rewrite parse_unfold in Hparse.
    apply parse_loop_spec in Hparse as (rows & new & -> & Hrows & HF2 & _).
    simpl. rewrite <- (Forall2_length _ _ _ HF2). now apply sublist_length. }
  rewrite Htotal, Huniq. lia.
Qed.

(** X15. The report [track] shows is the analysis with, when airdrops
    are excluded, the wallets flagged as airdrop removed and nothing
    else changed: the shown wallets are in ascending order of first block,
    they are the wallets of the analysis that are kept, in the same order,
    and the two counts are those of the analysis, not of the shown list. *)
Theorem track_report_filters `{Platform} (token : TokenInfo)
    (raw_transactions : list raw_tx) (eth_price_usd : spec_float)
    (config : Config) (now : datetime) (shown : TokenAnalysis) :
  track_report token raw_transactions eth_price_usd config now = Ok shown ->
  exists report,
    analyze_token_interactions token raw_transactions eth_price_usd config now
    = Ok report
    /\ ranked (earliest_wallets shown)
    /\ earliest_wallets shown `sublist_of` earliest_wallets report
    /\ (forall a, a ∈ earliest_wallets shown
                  <-> a ∈ earliest_wallets report
                      /\ (include_likely_airdrops config = false ->
                          is_likely_airdrop a = false))
    /\ total_transactions shown = total_transactions report
    /\ unique_wallets shown = unique_wallets report.
Proof.
  unfold track_report.
  destruct (analyze_token_interactions token raw_transactions eth_price_usd
              config now) as [report|x] eqn:Hrun; cbn [rbind]; [|discriminate].
  intros [= <-]. exists report. split; [reflexivity|].
  assert (Hranked : ranked (earliest_wallets report)).
  { apply report_inv in Hrun as (_ & kept & k & _ & _ & -> & _).
    eapply StronglySorted_sublist; [apply sublist_take|].
    apply sort_by_key_sorted. }
  unfold filter_airdrops.
  destruct (include_likely_airdrops config); cbn [negb].
  - split; [exact Hranked|]. split; [reflexivity|].
    split; [|now split].
    intros a. split; [intros Ha; split; [exact Ha | discriminate] | now intros [Ha _]].
  - cbn [set_earliest_wallets earliest_wallets total_transactions unique_wallets].
    split.
    { eapply StronglySorted_sublist; [apply filter_sublist | exact Hranked]. }
    split; [apply filter_sublist|].
    split; [|now split].
    intros a. rewrite list_elem_of_In, filter_In, <- list_elem_of_In.
    rewrite negb_true_iff. split.
    + intros [Ha Hf]. now split.
    + intros [Ha Hf]. split; [exact Ha | now apply Hf].
Qed.

(** A transfer of 1234.567 tokens from the router to [wallet_b] in block
    50, and a configuration that excludes the likely airdrops. *)
Definition row_b_buy : raw_tx :=
  raw_row "1600000600" "1234567000000000000000" "0xbd" "50"
          uniswap_v2_router wallet_b.
Definition exclude_airdrops_config : Config :=
  {| max_early_wallets := 50; min_token_amount := S754_zero false;
     include_likely_airdrops := false |}.

(** X14 on a history of two transfers: two wallets out of two keys. *)
Lemma report_wallets_and_counts_witness :
  exists report,
    analyze_token_interactions (H := RefPlatform.platform) sample_token
      [row_b_buy; row_a_100] price_2000 default_config 0 = Ok report
    /\ map wa_wallet_address (earliest_wallets report) = [wallet_b; wallet_a]
    /\ unique_wallets report = 2
    /\ NoDup (map wa_wallet_address (earliest_wallets report))
    /\ Forall (meets_threshold default_config) (earliest_wallets report)
    /\ (exists transactions,
           parse_etherscan_transactions (H := RefPlatform.platform)
             [row_b_buy; row_a_100] sample_token = Ok transactions
           /\ map wa_wallet_address (earliest_wallets report)
              ⊆ map fst (group_transactions_by_wallet transactions)
           /\ total_transactions report = Z.of_nat (List.length transactions)
           /\ unique_wallets report
              = Z.of_nat (List.length (group_transactions_by_wallet transactions)))
    /\ 0 <= total_transactions report <= 2
    /\ unique_wallets report <= 2 * total_transactions report
    /\ Z.of_nat (List.length (earliest_wallets report)) <= unique_wallets report.
Proof.
  eexists. split; [vm_compute; reflexivity|]. split; [vm_compute; reflexivity|].
  split; [vm_compute; reflexivity|].
  apply (report_wallets_and_counts (H := RefPlatform.platform) sample_token
           [row_b_buy; row_a_100] price_2000 default_config 0).
  vm_compute. reflexivity.
Defined.

(** X15 on the same history with airdrops excluded: of the two wallets
    the buyer is shown, and the counts still count both. *)
Lemma track_report_filters_witness :
  exists shown,
    track_report (H := RefPlatform.platform) sample_token
      [row_b_buy; row_a_100] price_2000 exclude_airdrops_config 0 = Ok shown
    /\ map wa_wallet_address (earliest_wallets shown) = [wallet_b]
    /\ unique_wallets shown = 2
    /\ exists report,
         analyze_token_interactions (H := RefPlatform.platform) sample_token
           [row_b_buy; row_a_100] price_2000 exclude_airdrops_config 0
         = Ok report
         /\ ranked (earliest_wallets shown)
         /\ earliest_wallets shown `sublist_of` earliest_wallets report
         /\ (forall a, a ∈ earliest_wallets shown
                       <-> a ∈ earliest_wallets report
                           /\ (include_likely_airdrops exclude_airdrops_config
                               = false -> is_likely_airdrop a = false))
         /\ total_transactions shown = total_transactions report
         /\ unique_wallets shown = unique_wallets report.
Proof.
  eexists. split; [vm_compute; reflexivity|]. split; [vm_compute; reflexivity|].
  split; [vm_compute; reflexivity|].
  apply (track_report_filters (H := RefPlatform.platform) sample_token
           [row_b_buy; row_a_100] price_2000 exclude_airdrops_config 0).
  vm_compute. reflexivity.
Defined.

(* ===================================================================== *)
(** * Normalising a valid address *)
(* ===================================================================== *)

(** The canonical form of an address: the prefix [0x] and forty
    hexadecimal digits without capitals, and possibly the newline the
    validator lets through. *)
Definition canonical_address (a : string) : Prop :=
  exists h, forty_hex h /\ lower h = h
            /\ (a = "0x" +:+ h \/ a = "0x" +:+ h +:+ newline).

Section NormalizeFacts.

Lemma hex_lower_char (c : ascii) :
  is_hex_char c = true -> is_hex_char (lower_char c) = true.
Proof. destruct c as [[] [] [] [] [] [] [] []]; intros Hc; (exact Hc || reflexivity). Qed.

Lemma all_hex_lower (s : string) : all_hex s = true -> all_hex (lower s) = true.
Proof.
  induction s as [|c r IH]; simpl; [reflexivity|].
  rewrite !andb_true_iff. intros [Hc Hr].
  split; [apply hex_lower_char, Hc | apply IH, Hr].
Qed.

Lemma lower_app (a b : string) : lower (a +:+ b) = lower a +:+ lower b.
Proof.
  induction a as [|c r IH]; [reflexivity|].
  rewrite append_cons. simpl. rewrite append_cons. now rewrite IH.
Qed.

Lemma forty_hex_lower (h : string) :
  forty_hex h -> forty_hex (lower h) /\ lower (lower h) = lower h.
Proof.
  intros [Hl Hh]. split; [split|].
  - now rewrite lower_length.
  - now apply all_hex_lower.
  - apply lower_idem.
Qed.

Lemma forty_hex_not_empty (h : string) : forty_hex h -> h <> "".
Proof. intros [Hl _] ->. discriminate. Qed.

Lemma startswith_prefixed (b : string) : startswith ("0x" +:+ b) "0x" = true.
Proof. apply startswith_two. now exists b. Qed.

Lemma newline_no_prefix (h : string) :
  forty_hex h -> startswith (h +:+ newline) "0x" = false.
Proof.
  intros [Hl Hh].
  destruct (startswith (h +:+ newline) "0x") eqn:Hp; [|reflexivity].
  apply startswith_two in Hp as [r Hr].
  destruct h as [|c1 [|c2 h]]; simpl in Hl; try discriminate.
  simpl in Hr. injection Hr as -> -> _. simpl in Hh. discriminate.
Qed.

Lemma canonical_valid (a : string) :
  canonical_address a -> is_valid_ethereum_address a = true.
Proof.
  intros (h & Hh & _ & Ha). unfold is_valid_ethereum_address.
  assert (Hm : match_hex40 h = true /\ match_hex40 (h +:+ newline) = true)
    by (split; apply match_hex40_iff; exists h; auto).
  destruct Ha as [-> | ->]; rewrite startswith_prefixed; apply Hm.
Qed.

Lemma normalize_canonical (s : string) :
  is_valid_ethereum_address s = true -> canonical_address (normalize_address s).
Proof.
  intros Hv.
  unfold is_valid_ethereum_address in Hv. unfold normalize_address.
  destruct (String.eqb s "") eqn:Hs; [discriminate|].
  destruct (startswith s "0x") eqn:Hp.
  - apply startswith_two in Hp as [r ->].
    change (string_drop 2 (String "0" (String "x" r))) with r in Hv.
    change (lower (String "0" (String "x" r))) with ("0x" +:+ lower r).
    rewrite startswith_prefixed.
    apply match_hex40_iff in Hv as (h & Hh & [-> | ->]);
      destruct (forty_hex_lower h Hh) as [Hlh Hid];
      exists (lower h); repeat split; try apply Hlh; try exact Hid.
    + now left.
    + right. now rewrite lower_app.
  - apply match_hex40_iff in Hv as (h & Hh & Hcase).
    destruct (forty_hex_lower h Hh) as [Hlh Hid].
    assert (Hnp : startswith (lower s) "0x" = false).
    { destruct Hcase as [-> | ->].
      - apply all_hex_no_prefix, Hlh.
      - rewrite lower_app. change (lower newline) with newline.
        now apply newline_no_prefix. }
    rewrite Hnp. exists (lower h). repeat split; try apply Hlh; try exact Hid.
    destruct Hcase as [-> | ->]; [now left|].
    right. now rewrite lower_app.
Qed.

End NormalizeFacts.

(** X16. [normalize_address] turns every address the validator accepts
    into its canonical form, which the validator accepts again: the
    prefix [0x] followed by the forty digits in lower case (and by the
    final newline, had the address one). *)
Theorem normalize_valid_address (s : string) :
  is_valid_ethereum_address s = true ->
  canonical_address (normalize_address s)
  /\ is_valid_ethereum_address (normalize_address s) = true.
Proof.
  intros Hv. pose proof (normalize_canonical s Hv) as Hc.
  split; [exact Hc | now apply canonical_valid].
Qed.

(** X16 on an address in capitals without prefix. *)
Lemma normalize_valid_address_witness :
  normalize_address "1234567890ABCDEF1234567890ABCDEF12345678" = wallet_a
  /\ canonical_address
       (normalize_address "1234567890ABCDEF1234567890ABCDEF12345678")
  /\ is_valid_ethereum_address
       (normalize_address "1234567890ABCDEF1234567890ABCDEF12345678") = true.
Proof.
  split; [reflexivity|].
  apply (normalize_valid_address "1234567890ABCDEF1234567890ABCDEF12345678").
  reflexivity.
Defined.

(* ===================================================================== *)
(** * Scaling a raw amount *)
(* ===================================================================== *)

(** The amount [n] of a token of [decimals] decimals, cut off after six
    decimal places: the [Decimal] with coefficient
    [n * 10^6 // 10^decimals] and exponent [-6]. *)
Definition scaled_amount (n decimals : Z) : Decimal :=
  DFinite false (Z.to_N (n * 10 ^ 6 / 10 ^ decimals)) (-6).

(** The raw amount is in the range where scaling is exact: at most 28
    digits, 1 to 27 decimals, and at most 22 digits left of the point
    once scaled. *)
Definition amount_in_range (n decimals : Z) : Prop :=
  0 <= n < 10 ^ 28 /\ 1 <= decimals <= 27 /\ n < 10 ^ (22 + decimals).

Section ScalingFacts.

Lemma fix_small (s : bool) (c : N) (e : Z) :
  (0 < c)%N -> Dec.ndigits c <= Dec.prec -> Dec.Etiny <= e ->
  e <= Dec.Etop -> Dec.fix_ s c e = Ok (DFinite s c e).
Proof.
  intros Hc Hnd He Htop. unfold Dec.fix_.
  rewrite (proj2 (N.eqb_neq c 0)) by lia.
  assert (Hov : (Dec.ndigits c + e - Dec.prec >? Dec.Etop) = false)
    by (rewrite Z.gtb_ltb; apply Z.ltb_ge; lia).
  rewrite Hov.
  assert (Hr : (e <? Z.max (Dec.ndigits c + e - Dec.prec) Dec.Etiny) = false)
    by (apply Z.ltb_ge; lia).
  now rewrite Hr.
Qed.

Lemma ndigits_p10 (k : Z) : 0 <= k -> Dec.ndigits (Dec.p10 k) = 1 + k.
Proof.
  intros Hk. rewrite <- (N.mul_1_l (Dec.p10 k)).
  rewrite ndigits_mul_pow10 by lia. reflexivity.
Qed.

Lemma pow10_small (d : Z) :
  1 <= d <= 27 -> Dec.pow10 d = Ok (DFinite false (Dec.p10 d) 0).
Proof.
  intros Hd. unfold Dec.pow10.
  rewrite (proj2 (Z.leb_gt 1000000 d)) by lia.
  rewrite (proj2 (Z.leb_le 0 d)) by lia.
  unfold Dec.prec. rewrite Z.min_l by lia. rewrite Z.sub_diag.
  apply fix_small.
  - apply p10_pos.
  - rewrite ndigits_p10 by lia. unfold Dec.prec. lia.
  - unfold Dec.Etiny, Dec.Emin, Dec.prec. lia.
  - unfold Dec.Etop, Dec.Emax, Dec.prec. lia.
Qed.

Lemma p10_succ (k : Z) : 0 <= k -> Dec.p10 (k + 1) = (Dec.p10 k * 10)%N.
Proof. intros Hk. rewrite p10_add by lia. reflexivity. Qed.

(** The loop of the division drops at least the zeros that stand above
    the ideal exponent. *)
Lemma strip_zeros_skip (j : nat) (fuel : nat) (c : N) (e ideal : Z) :
  e + Z.of_nat j <= ideal ->
  Dec.strip_zeros (j + fuel) (c * Dec.p10 (Z.of_nat j)) e ideal
  = Dec.strip_zeros fuel c (e + Z.of_nat j) ideal.
Proof.
  revert e. induction j as [|j IH]; intros e He.
  - simpl. change (Dec.p10 0) with 1%N. rewrite N.mul_1_r. f_equal. lia.
  - cbn [Nat.add Dec.strip_zeros].
    replace (Z.of_nat (S j)) with (Z.of_nat j + 1) in * by lia.
    rewrite p10_succ by lia. rewrite N.mul_assoc.
    rewrite N.Div0.mod_mul, N.div_mul by lia.
    rewrite (proj2 (Z.ltb_lt e ideal)) by lia. cbn [andb N.eqb].
    rewrite IH by lia. f_equal. lia.
Qed.

(** What the loop returns denotes the number it was given. *)
Lemma strip_zeros_spec (fuel : nat) (c : N) (e ideal : Z) :
  e <= ideal ->
  exists k, 0 <= k
            /\ c = (fst (Dec.strip_zeros fuel c e ideal) * Dec.p10 k)%N
            /\ snd (Dec.strip_zeros fuel c e ideal) = e + k
            /\ e + k <= ideal.
Proof.
  revert c e. induction fuel as [|fuel IH]; intros c e He.
  - exists 0. simpl. change (Dec.p10 0) with 1%N. rewrite N.mul_1_r.
    repeat split; lia.
  - cbn [Dec.strip_zeros].
    destruct ((e <? ideal) && (c mod 10 =? 0)%N) eqn:Hgo.
    + apply andb_true_iff in Hgo as [Hlt Hmod].
      apply Z.ltb_lt in Hlt. apply N.eqb_eq in Hmod.
      destruct (IH (c / 10)%N (e + 1) ltac:(lia)) as (k & Hk & Hc & He' & Hle).
      exists (k + 1). split; [lia|]. split; [|split; lia].
      rewrite p10_succ by lia. rewrite N.mul_assoc, <- Hc.
      pose proof (N.div_mod c 10 ltac:(lia)) as Hdm. lia.
    + exists 0. simpl. change (Dec.p10 0) with 1%N. rewrite N.mul_1_r.
      repeat split; lia.
Qed.

Lemma p10_le_mono (a b : Z) : 0 <= a <= b -> (Dec.p10 a <= Dec.p10 b)%N.
Proof. intros H. unfold Dec.p10. apply N.pow_le_mono_r; lia. Qed.

Lemma p10_Z (k : Z) : 0 <= k -> Z.of_N (Dec.p10 k) = 10 ^ k.
Proof.
  intros Hk. unfold Dec.p10. rewrite N2Z.inj_pow. f_equal. lia.
Qed.

(** An amount of at most 28 digits divided by [10^d]: the division is
    exact, and the quotient is the coefficient without some of its
    trailing zeros. *)
Lemma div_by_p10 (c : N) (d : Z) :
  (0 < c)%N -> Dec.ndigits c <= Dec.prec -> 1 <= d <= 27 ->
  exists q k,
    0 <= k <= d /\ c = (q * Dec.p10 k)%N
    /\ Dec.div (DFinite false c 0) (DFinite false (Dec.p10 d) 0)
       = Ok (DFinite false q (k - d)).
Proof.
  intros Hc Hnd Hd.
  pose proof (ndigits_pos c) as Hnd1.
  pose proof (p10_pos d) as Hpd.
  unfold Dec.div. cbn [Dec.check_nans2 xorb].
  rewrite (proj2 (N.eqb_neq (Dec.p10 d) 0)) by lia.
  rewrite (proj2 (N.eqb_neq c 0)) by lia.
  rewrite ndigits_p10 by lia.
  set (shift := 1 + d - Dec.ndigits c + Dec.prec + 1).
  assert (Hshift : d + 2 <= shift) by (unfold shift; lia).
  rewrite (proj2 (Z.leb_le 0 shift)) by lia.
  destruct (div_mul_p10 c shift d ltac:(lia)) as [Hq Hr].
  assert (Hde : N.div_eucl (c * Dec.p10 shift) (Dec.p10 d)
                = (c * Dec.p10 (shift - d), 0)%N).
  { rewrite <- Hq, <- Hr. unfold N.div, N.modulo.
    now destruct (N.div_eucl (c * Dec.p10 shift) (Dec.p10 d)). }
  rewrite Hde. cbn [N.eqb].
  rewrite ndigits_mul_pow10 by lia.
  replace (0 - 0 - shift) with (- shift) by lia.
  replace (Z.to_nat (Dec.ndigits c + (shift - d)))
    with (Z.to_nat (shift - d) + Z.to_nat (Dec.ndigits c))%nat by lia.
  set (j := Z.to_nat (shift - d)).
  assert (Hj : shift - d = Z.of_nat j) by (unfold j; lia).
  rewrite Hj. change (0 - 0) with 0.
  rewrite strip_zeros_skip by lia.
  replace (- shift + Z.of_nat j) with (- d) by lia.
  destruct (strip_zeros_spec (Z.to_nat (Dec.ndigits c)) c (- d) 0 ltac:(lia))
    as (k & Hk & Hck & Hek & Hle).
  destruct (Dec.strip_zeros (Z.to_nat (Dec.ndigits c)) c (- d) 0) as [q e'].
  cbn [fst snd] in Hck, Hek. subst e'.
  exists q, k. split; [lia|]. split; [exact Hck|].
  replace (- d + k) with (k - d) by lia.
  pose proof (p10_pos k) as Hpk.
  assert (Hq0 : (0 < q)%N) by (destruct q; [simpl in Hck; lia | lia]).
  assert (Hqc : (q <= c)%N) by nia.
  apply fix_small.
  - exact Hq0.
  - apply ndigits_le_of_lt; [unfold Dec.prec; lia|].
    eapply N.le_lt_trans; [exact Hqc|].
    apply ndigits_lt_p10; [exact Hc | unfold Dec.prec; lia | exact Hnd].
  - unfold Dec.Etiny, Dec.Emin, Dec.prec. lia.
  - unfold Dec.Etop, Dec.Emax, Dec.prec. lia.
Qed.

Lemma p10_split (a b : Z) :
  0 <= b <= a -> Dec.p10 a = (Dec.p10 (a - b) * Dec.p10 b)%N.
Proof. intros H. rewrite <- p10_add by lia. f_equal. lia. Qed.

Lemma pow10_split (a b : Z) : 0 <= b <= a -> 10 ^ a = 10 ^ (a - b) * 10 ^ b.
Proof. intros H. rewrite <- Z.pow_add_r by lia. f_equal. lia. Qed.

(** Quantizing to six places, rounding down, a number of at most 22
    integer digits. *)
Lemma quantize_truncates (q : N) (e : Z) :
  (0 < q)%N -> -27 <= e <= 0 -> (q < Dec.p10 (22 - e))%N ->
  Dec.quantize_down (DFinite false q e) (-6)
  = Ok (DFinite false (Z.to_N (Z.of_N q * 10 ^ 6 / 10 ^ (- e))) (-6)).
Proof.
  intros Hq He Hlt. unfold Dec.quantize_down.
  change (negb ((Dec.Etiny <=? -6) && (-6 <=? Dec.Emax))) with false. cbv iota.
  rewrite (proj2 (N.eqb_neq q 0)) by lia.
  pose proof (ndigits_pos q) as Hnd1.
  assert (Hnd : Dec.ndigits q <= 22 - e)
    by (apply ndigits_le_of_lt; [lia | exact Hlt]).
  assert (H1 : (Dec.ndigits q + e - 1 >? Dec.Emax) = false)
    by (rewrite Z.gtb_ltb; apply Z.ltb_ge; unfold Dec.Emax; lia).
  assert (H2 : (Dec.ndigits q + e - 1 - -6 + 1 >? Dec.prec) = false)
    by (rewrite Z.gtb_ltb; apply Z.ltb_ge; unfold Dec.prec; lia).
  rewrite H1, H2.
  set (c' := if -6 <=? e then (q * Dec.p10 (e - -6))%N
             else (q / Dec.p10 (-6 - e))%N).
  assert (Hval : Z.of_N c' = Z.of_N q * 10 ^ 6 / 10 ^ (- e)).
  { unfold c'. destruct (-6 <=? e) eqn:Hcase.
    - apply Z.leb_le in Hcase.
      rewrite N2Z.inj_mul, p10_Z by lia.
      rewrite (pow10_split 6 (- e)) by lia.
      rewrite Z.mul_assoc, Z.div_mul by (apply Z.pow_nonzero; lia).
      f_equal. f_equal. lia.
    - apply Z.leb_gt in Hcase.
      rewrite N2Z.inj_div, p10_Z by lia.
      rewrite (pow10_split (- e) 6) by lia.
      rewrite Z.div_mul_cancel_r by (apply Z.pow_nonzero; lia).
      f_equal. f_equal. lia. }
  assert (Hbound : (c' < Dec.p10 28)%N).
  { unfold c'. destruct (-6 <=? e) eqn:Hcase.
    - apply Z.leb_le in Hcase.
      rewrite (p10_split 28 (e - -6)) by lia.
      replace (28 - (e - -6)) with (22 - e) by lia.
      apply N.mul_lt_mono_pos_r; [apply p10_pos | exact Hlt].
    - apply Z.leb_gt in Hcase.
      apply N.Div0.div_lt_upper_bound.
      rewrite N.mul_comm, <- p10_add by lia.
      now replace (28 + (-6 - e)) with (22 - e) by lia. }
  assert (Hnd' : Dec.ndigits c' <= 28) by (apply ndigits_le_of_lt; [lia | exact Hbound]).
  pose proof (ndigits_pos c') as Hnd1'.
  assert (H3 : (Dec.ndigits c' + -6 - 1 >? Dec.Emax) = false)
    by (rewrite Z.gtb_ltb; apply Z.ltb_ge; unfold Dec.Emax; lia).
  assert (H4 : (Dec.ndigits c' >? Dec.prec) = false)
    by (rewrite Z.gtb_ltb; apply Z.ltb_ge; unfold Dec.prec; lia).
  rewrite H3, H4.
  rewrite <- Hval, N2Z.id.
  clearbody c'.
  destruct (N.eq_dec c' 0%N) as [Hz | Hne]; [rewrite Hz; reflexivity|].
  apply fix_small.
  - lia.
  - unfold Dec.prec. lia.
  - unfold Dec.Etiny, Dec.Emin, Dec.prec. lia.
  - unfold Dec.Etop, Dec.Emax, Dec.prec. lia.
Qed.

Lemma format_token_amount_scaled (n decimals : Z) :
  amount_in_range n decimals ->
  format_token_amount (Dec.of_Z n) decimals = Ok (scaled_amount n decimals).
Proof.
  intros (Hn & Hd & Hint). unfold format_token_amount, scaled_amount.
  rewrite (proj2 (Z.eqb_neq decimals 0)) by lia.
  rewrite pow10_small by exact Hd. cbn [rbind].
  unfold Dec.of_Z. rewrite (proj2 (Z.ltb_ge n 0)) by lia.
  destruct (Z.eq_dec n 0) as [-> | Hne].
  { rewrite Z.mul_0_l, Z.div_0_l by (apply Z.pow_nonzero; lia).
    unfold Dec.div. cbn [Dec.check_nans2 Z.abs_N xorb].
    rewrite (proj2 (N.eqb_neq (Dec.p10 decimals) 0))
      by (pose proof (p10_pos decimals); lia).
    reflexivity. }
  set (c := Z.abs_N n).
  assert (Hcn : Z.of_N c = n) by (unfold c; lia).
  assert (Hc : (0 < c)%N) by lia.
  assert (Hnd : Dec.ndigits c <= Dec.prec).
  { apply ndigits_le_of_lt; [unfold Dec.prec; lia|].
    apply N2Z.inj_lt. rewrite Hcn, p10_Z by (unfold Dec.prec; lia). apply Hn. }
  destruct (div_by_p10 c decimals Hc Hnd Hd) as (q & k & Hk & Hck & Hdiv).
  rewrite Hdiv. cbn [rbind try_except].
  pose proof (p10_pos k) as Hpk.
  assert (Hq : (0 < q)%N) by (destruct q; [simpl in Hck; lia | lia]).
  assert (Hlt : (q < Dec.p10 (22 - (k - decimals)))%N).
  { apply (N.mul_lt_mono_pos_r (Dec.p10 k)); [exact Hpk|].
    rewrite <- Hck, <- p10_add by lia.
    apply N2Z.inj_lt. rewrite Hcn, p10_Z by lia.
    now replace (22 - (k - decimals) + k) with (22 + decimals) by lia. }
  rewrite (quantize_truncates q (k - decimals) Hq ltac:(lia) Hlt).
  unfold try_except. do 3 f_equal.
  rewrite <- Hcn, Hck, N2Z.inj_mul, p10_Z by lia.
  rewrite (pow10_split decimals k) by lia.
  replace (Z.of_N q * 10 ^ k * 10 ^ 6) with (Z.of_N q * 10 ^ 6 * 10 ^ k) by lia.
  rewrite Z.div_mul_cancel_r by (apply Z.pow_nonzero; lia).
  f_equal. f_equal. lia.
Qed.

End ScalingFacts.

(** X17. On a raw amount of at most 28 digits and a token of 1 to 27
    decimals, with at most 22 digits left of the point once scaled,
    [format_token_amount] returns the amount divided by [10^decimals]
    and cut off (not rounded) after the sixth decimal place: the result
    has exponent [-6], is never above the exact amount, and is less than
    one unit of the sixth place below it. *)
Theorem format_token_amount_truncates (n decimals : Z) :
  amount_in_range n decimals ->
  exists c : Z,
    format_token_amount (Dec.of_Z n) decimals = Ok (DFinite false (Z.to_N c) (-6))
    /\ 0 <= c
    /\ c * 10 ^ decimals <= n * 10 ^ 6 < (c + 1) * 10 ^ decimals.
Proof.
  intros Hr. exists (n * 10 ^ 6 / 10 ^ decimals).
  split; [exact (format_token_amount_scaled n decimals Hr)|].
  destruct Hr as (Hn & Hd & _).
  assert (Hp : 0 < 10 ^ decimals) by (apply Z.pow_pos_nonneg; lia).
  pose proof (Z.div_mod (n * 10 ^ 6) (10 ^ decimals) ltac:(lia)) as Hdm.
  pose proof (Z.mod_pos_bound (n * 10 ^ 6) (10 ^ decimals) Hp) as Hm.
  split; [apply Z.div_pos; lia|]. nia.
Qed.

(** X17 on 1234.5678912 tokens of 18 decimals. *)
Lemma format_token_amount_truncates_witness :
  exists c : Z,
    format_token_amount (Dec.of_Z 1234567891200000000000) 18
    = Ok (DFinite false (Z.to_N c) (-6))
    /\ 0 <= c
    /\ c * 10 ^ 18 <= 1234567891200000000000 * 10 ^ 6 < (c + 1) * 10 ^ 18.
Proof.
  apply (format_token_amount_truncates 1234567891200000000000 18).
  unfold amount_in_range. lia.
Defined.

(* ===================================================================== *)
(** * Rows and amounts written in decimal digits *)
(* ===================================================================== *)

(** A non-empty string of decimal digits, as the block explorer writes
    its numbers, and the number it stands for. *)
Definition digit_string (s : string) : Prop :=
  s <> "" /\ Forall (fun c => is_digit c = true) (list_ascii_of_string s).

Definition digits_value (s : string) : Z :=
  Z.of_N (digits_val (list_ascii_of_string s)).

Section DigitFacts.

Lemma digit_plain (c : ascii) :
  is_digit c = true ->
  is_space c = false /\ char_eqb c "_" = false /\ char_eqb c "-" = false
  /\ char_eqb c "+" = false /\ char_eqb c "." = false.
Proof.
  destruct c as [[] [] [] [] [] [] [] []]; intros Hc;
    (discriminate Hc || (repeat split; reflexivity)).
Qed.

Lemma lstrip_digits (l : list ascii) :
  match l with c :: _ => is_digit c = true | [] => True end -> lstrip l = l.
Proof.
  destruct l as [|c r]; [reflexivity|]. intros Hc. simpl.
  now rewrite (proj1 (digit_plain c Hc)).
Qed.

Lemma strip_digits (l : list ascii) :
  Forall (fun c => is_digit c = true) l -> strip l = l.
Proof.
  intros Hl. unfold strip.
  rewrite (lstrip_digits l) by (destruct Hl; [exact I | assumption]).
  rewrite lstrip_digits; [apply rev_involutive|].
  apply Forall_rev in Hl. destruct Hl; [exact I | assumption].
Qed.

Lemma filter_digits (l : list ascii) :
  Forall (fun c => is_digit c = true) l ->
  List.filter (fun c => negb (char_eqb c "_")) l = l.
Proof.
  induction 1 as [|c r Hc Hr IH]; simpl; [reflexivity|].
  destruct (digit_plain c Hc) as (_ & -> & _). simpl. now rewrite IH.
Qed.

Lemma span_digits (l : list ascii) :
  Forall (fun c => is_digit c = true) l -> span is_digit l = (l, []).
Proof.
  induction 1 as [|c r Hc Hr IH]; simpl; [reflexivity|].
  now rewrite Hc, IH.
Qed.


Lemma digit_string_chars (s : string) :
  digit_string s ->
  exists c r, list_ascii_of_string s = c :: r /\ is_digit c = true
              /\ Forall (fun c => is_digit c = true) (c :: r).
Proof.
  intros [Hne Hall]. destruct s as [|c s]; [contradiction|].
  simpl in *. exists c, (list_ascii_of_string s).
  split; [reflexivity|]. split; [|exact Hall].
  now apply Forall_cons in Hall as [Hc _].
Qed.

(** [Decimal(s)] of a digit string is the integer it stands for. *)
Lemma of_string_digits (s : string) :
  digit_string s -> Dec.of_string s = Ok (Dec.of_Z (digits_value s)).
Proof.
  intros Hs. destruct (digit_string_chars s Hs) as (c & r & Hl & Hc & Hall).
  unfold Dec.of_string, digits_value. rewrite Hl.
  rewrite (strip_digits _ Hall), (filter_digits _ Hall).
  destruct (digit_plain c Hc) as (_ & _ & -> & -> & _).
  unfold Dec.parse_number. rewrite (span_digits _ Hall).
  cbn [List.length Nat.add Nat.eqb]. rewrite app_nil_r.
  unfold Dec.of_Z.
  rewrite (proj2 (Z.ltb_ge _ 0)) by lia.
  now rewrite Zabs2N.id.
Qed.


End DigitFacts.



Section RowFacts.
Context `{Platform}.


End RowFacts.



Section WeiFacts.

Lemma div_zero_by_wei :
  Dec.div (DFinite false 0 0) (DFinite false 1000000000000000000 0)
  = Ok (DFinite false 0 0).
Proof. reflexivity. Qed.

End WeiFacts.

(** X19. [wei_to_ether] of a digit string of at most 28 digits is exact:
    the result is the number of wei with the point moved 18 places,
    written without some of its trailing zeros; nothing is rounded. *)
Theorem wei_to_ether_exact (wei : string) :
  digit_string wei -> digits_value wei < 10 ^ 28 ->
  exists (q : N) (k : Z),
    0 <= k <= 18
    /\ digits_value wei = Z.of_N q * 10 ^ k
    /\ wei_to_ether wei = Ok (DFinite false q (k - 18)).
Proof.
  intros Hd Hlt.
  rewrite wei_to_ether_unfold, (of_string_digits wei Hd). cbn [rbind].
  unfold digits_value in *. set (c := digits_val (list_ascii_of_string wei)) in *.
  unfold Dec.of_Z. rewrite (proj2 (Z.ltb_ge _ 0)) by lia. rewrite Zabs2N.id.
  clearbody c.
  destruct (N.eq_dec c 0%N) as [Hz | Hne].
  - exists 0%N, 18. rewrite Hz.
    split; [lia|]. split; [reflexivity | exact div_zero_by_wei].
  - assert (Hnd : Dec.ndigits c <= Dec.prec).
    { apply ndigits_le_of_lt; [unfold Dec.prec; lia|].
      apply N2Z.inj_lt. rewrite p10_Z by (unfold Dec.prec; lia). exact Hlt. }
    destruct (div_by_p10 c 18 ltac:(lia) Hnd ltac:(lia))
      as (q & k & Hk & Hck & Hdiv).
    exists q, k. split; [exact Hk|]. split.
    + rewrite Hck at 1. rewrite N2Z.inj_mul, p10_Z by lia. reflexivity.
    + exact Hdiv.
Qed.

(** X19 on a gas price of 20 gwei: [Decimal('2E-8')]. *)
Lemma wei_to_ether_exact_witness :
  wei_to_ether "20000000000" = Ok (DFinite false 2 (-8))
  /\ exists (q : N) (k : Z),
       0 <= k <= 18
       /\ digits_value "20000000000" = Z.of_N q * 10 ^ k
       /\ wei_to_ether "20000000000" = Ok (DFinite false q (k - 18)).
Proof.
  split; [vm_compute; reflexivity|].
  apply (wei_to_ether_exact "20000000000").
  - split; [discriminate | repeat constructor].
  - change (digits_value "20000000000") with 20000000000. lia.
Defined.

(* ===================================================================== *)
(** * Scaled amounts and round numbers *)
(* ===================================================================== *)

From Stdlib Require DecimalPos.

Section DigitStringFacts.

Lemma append_nil_r (s : string) : s +:+ "" = s.
Proof.
  induction s as [|c r IH]; [reflexivity|].
  rewrite append_cons. now rewrite IH.
Qed.

Lemma append_assoc (a b c : string) : (a +:+ b) +:+ c = a +:+ (b +:+ c).
Proof.
  induction a as [|x r IH]; [reflexivity|].
  rewrite !append_cons. now rewrite IH.
Qed.

Lemma string_of_revapp (a b : Decimal.uint) :
  NilEmpty.string_of_uint (Decimal.revapp a b)
  = NilEmpty.string_of_uint (Decimal.revapp a Decimal.Nil)
    +:+ NilEmpty.string_of_uint b.
Proof.
  revert b. induction a as [|a IH|a IH|a IH|a IH|a IH|a IH|a IH|a IH|a IH|a IH];
    intros b; cbn [Decimal.revapp];
    [symmetry; reflexivity | ..];
    rewrite IH; symmetry; rewrite IH; rewrite append_assoc; reflexivity.
Qed.

(** The digits of ten times a positive number: a zero is appended. *)
Lemma digits_of_tenfold (c : N) :
  (0 < c)%N -> Dec.digits_of (10 * c) = Dec.digits_of c +:+ "0".
Proof.
  intros Hc. destruct c as [|p]; [lia|].
  unfold Dec.digits_of.
  change (N.to_uint (10 * N.pos p))
    with (Decimal.rev (DecimalPos.Unsigned.to_lu (10 * N.pos p))).
  rewrite DecimalPos.Unsigned.to_ldec_tenfold.
  change (N.to_uint (N.pos p))
    with (Decimal.rev (DecimalPos.Unsigned.to_lu (N.pos p))).
  unfold Decimal.rev. cbn [Decimal.revapp].
  apply string_of_revapp.
Qed.

Lemma digits_of_five_zeros (c : N) :
  (0 < c)%N -> Dec.digits_of (c * 100000) = Dec.digits_of c +:+ "00000".
Proof.
  intros Hc.
  replace (c * 100000)%N with (10 * (10 * (10 * (10 * (10 * c)))))%N by lia.
  rewrite !digits_of_tenfold by lia.
  rewrite !append_assoc. reflexivity.
Qed.

Lemma string_drop_app_add (a b : string) (k : nat) :
  string_drop (String.length a + k) (a +:+ b) = string_drop k b.
Proof.
  induction a as [|c r IH]; [reflexivity|].
  rewrite append_cons. simpl. exact IH.
Qed.

Lemma endswith_app (a b suf : string) :
  endswith b suf = true -> endswith (a +:+ b) suf = true.
Proof.
  unfold endswith. rewrite !andb_true_iff, !Nat.leb_le, string_length_app.
  intros [Hl He]. split; [lia|].
  replace (String.length a + String.length b - String.length suf)%nat
    with (String.length a + (String.length b - String.length suf))%nat by lia.
  now rewrite string_drop_app_add.
Qed.

Lemma endswith_refl (s : string) : endswith s s = true.
Proof.
  unfold endswith. rewrite Nat.leb_refl, Nat.sub_diag. simpl.
  apply String.eqb_refl.
Qed.

Lemma string_drop_length (n : nat) (s : string) :
  String.length (string_drop n s) = (String.length s - n)%nat.
Proof.
  revert s. induction n as [|n IH]; intros s; [simpl; lia|].
  destruct s as [|c r]; [reflexivity|]. simpl. apply IH.
Qed.

Lemma string_drop_drop (n m : nat) (s : string) :
  string_drop n (string_drop m s) = string_drop (m + n) s.
Proof.
  revert s. induction m as [|m IH]; intros s; [reflexivity|].
  destruct s as [|c r]; simpl; [now destruct n | apply IH].
Qed.

(** A suffix of [s] is a suffix of what is left of [s] when fewer
    characters are dropped than stand before it. *)
Lemma endswith_drop (n : nat) (s suf : string) :
  endswith s suf = true -> (n + String.length suf <= String.length s)%nat ->
  endswith (string_drop n s) suf = true.
Proof.
  unfold endswith. rewrite !andb_true_iff, !Nat.leb_le, string_drop_length.
  intros [Hl He] Hn. split; [lia|].
  rewrite string_drop_drop.
  now replace (n + (String.length s - n - String.length suf))%nat
    with (String.length s - String.length suf)%nat by lia.
Qed.

End DigitStringFacts.

Section RoundAmountFacts.
Context `{Platform}.

Lemma digits_of_not_empty (c : N) : (0 < c)%N -> Dec.digits_of c <> "".
Proof.
  intros Hc. destruct c as [|p]; [lia|]. unfold Dec.digits_of.
  pose proof (DecimalPos.Unsigned.to_uint_nonnil p) as Hn.
  change (N.to_uint (N.pos p)) with (Pos.to_uint p).
  destruct (Pos.to_uint p); [contradiction | discriminate..].
Qed.

(** The string of a positive amount with six decimal places of which
    the last five are zeros ends in five zeros. *)
Lemma to_string_tenths (m : N) :
  (0 < m)%N ->
  endswith (Dec.to_string (DFinite false (m * 100000) (-6))) "00000" = true.
Proof.
  intros Hm. unfold Dec.to_string.
  rewrite (digits_of_five_zeros m Hm).
  set (ds' := Dec.digits_of m).
  assert (Hne : (1 <= String.length ds')%nat).
  { pose proof (digits_of_not_empty m Hm) as Hn. fold ds' in Hn.
    destruct ds'; [contradiction | simpl; lia]. }
  assert (Hds : endswith (ds' +:+ "00000") "00000" = true)
    by apply endswith_app, endswith_refl.
  set (ds := ds' +:+ "00000") in *.
  assert (Hlen : String.length ds = (String.length ds' + 5)%nat)
    by (unfold ds; now rewrite string_length_app).
  set (len := Z.of_nat (String.length ds)).
  assert (Hl : 6 <= len) by (unfold len; lia).
  cbv zeta.
  change (-6 <=? 0) with true. cbn [andb].
  rewrite (proj2 (Z.ltb_lt (-6) (-6 + len))) by lia.
  replace (-6 + len - (-6 + len)) with 0 by lia.
  change (0 =? 0) with true. cbv iota.
  change ("" +:+ ?x) with x. rewrite append_nil_r.
  destruct (-6 + len <=? 0) eqn:Hdp.
  - apply endswith_app, endswith_app, Hds.
  - apply Z.leb_gt in Hdp.
    rewrite (proj2 (Z.leb_gt len (-6 + len))) by lia.
    apply endswith_app, endswith_app, endswith_drop; [exact Hds|].
    simpl String.length. unfold len. lia.
Qed.

Lemma tenths_are_round (m : N) :
  (0 < m)%N -> is_round_number (DFinite false (m * 100000) (-6)) = true.
Proof.
  intros Hm. unfold is_round_number, is_round_number_body.
  assert (Hle : Dec.le (DFinite false (m * 100000) (-6)) (Dec.of_Z 0) = Ok false).
  { unfold Dec.le, Dec.cmp, Dec.of_Z, Dec.cmp_finite. cbn [rbind].
    change (Z.min (-6) 0) with (-6). change (Dec.p10 (-6 - -6)) with 1%N.
    change (Z.abs_N 0) with 0%N. rewrite N.mul_0_l.
    unfold Dec.signedZ. change (0 <? 0) with false. cbv iota.
    assert (Hc : (Z.of_N (m * 100000 * 1) ?= Z.of_N 0) = Gt)
      by (apply Z.compare_gt_iff; lia).
    now rewrite Hc. }
  rewrite Hle. cbn [rbind].
  assert (Hf : exists f, Flt.of_decimal (DFinite false (m * 100000) (-6)) = Ok f).
  { unfold Flt.of_decimal. destruct (m * 100000)%N as [|p]; [eexists; reflexivity|].
    change (0 <=? -6) with false. cbv iota.
    change (Dec.p10 (- -6)) with 1000000%N. eexists; reflexivity. }
  destruct Hf as [f Hf]. rewrite Hf. cbn [rbind].
  rewrite (to_string_tenths m Hm), orb_true_r. reflexivity.
Qed.

End RoundAmountFacts.

(** X20. Scaling makes whole tenths round. For a positive raw amount in
    the range where scaling is exact that is a whole number of tenths of
    a token, the amount [format_token_amount] returns is a round number
    for [is_round_number]: it is printed with six decimal places, five
    zeros at the end. So 7 tokens or 0.3 tokens count as round. *)
Theorem scaled_tenths_are_round `{Platform} (n decimals : Z) :
  amount_in_range n decimals -> 0 < n -> n mod 10 ^ (decimals - 1) = 0 ->
  exists amount,
    format_token_amount (Dec.of_Z n) decimals = Ok amount
    /\ is_round_number amount = true.
Proof.
  intros Hr Hn Hmod. exists (scaled_amount n decimals).
  split; [exact (format_token_amount_scaled n decimals Hr)|].
  destruct Hr as (_ & Hd & _).
  assert (Hp : 0 < 10 ^ (decimals - 1)) by (apply Z.pow_pos_nonneg; lia).
  apply Z.div_exact in Hmod; [|lia].
  set (k := n / 10 ^ (decimals - 1)) in *.
  assert (Hk : 0 < k) by nia.
  assert (Hc : n * 10 ^ 6 / 10 ^ decimals = k * 100000).
  { replace decimals with (decimals - 1 + 1) at 1 by lia.
    rewrite Z.pow_add_r by lia. rewrite Hmod.
    replace (10 ^ (decimals - 1) * k * 10 ^ 6)
      with (k * 100000 * (10 ^ (decimals - 1) * 10 ^ 1)) by lia.
    apply Z.div_mul. lia. }
  unfold scaled_amount. rewrite Hc.
  replace (Z.to_N (k * 100000)) with (Z.to_N k * 100000)%N by lia.
  apply tenths_are_round. lia.
Qed.

(** X20 on 7 tokens of 18 decimals. *)
Lemma scaled_tenths_are_round_witness :
  exists amount,
    format_token_amount (Dec.of_Z 7000000000000000000) 18 = Ok amount
    /\ is_round_number (H := RefPlatform.platform) amount = true.
Proof.
  apply (scaled_tenths_are_round (H := RefPlatform.platform)
           7000000000000000000 18).
  - unfold amount_in_range. lia.
  - lia.
  - reflexivity.
Defined.

(* ===================================================================== *)
(** * Configuration from the environment ([config.py]) *)
(* ===================================================================== *)

(** The check [float] and [int] apply to the underscores of a numeric
    string: each stands between two digits. *)
Fixpoint underscores_ok (prev : option ascii) (l : list ascii) : bool :=
  match l with
  | [] => match prev with
          | Some p => negb (char_eqb p "_")
          | None => true
          end
  | c :: r =>
      let prev_digit := match prev with Some p => is_digit p | None => false end in
      let prev_underscore :=
        match prev with Some p => char_eqb p "_" | None => false end in
      if char_eqb c "_" then prev_digit && underscores_ok (Some c) r
      else negb (prev_underscore && negb (is_digit c)) && underscores_ok (Some c) r
  end.

(** [float(s)] for a string: surrounding whitespace is dropped, single
    underscores between digits are allowed; then an optional sign and
    either a decimal number with optional fraction and exponent, or
    [inf], [infinity] or [nan] in any case. The value is the nearest
    float; a number beyond the range of floats gives an infinity.
    Anything else raises [ValueError]. *)
Definition py_float (s : string) : res spec_float :=
  let l := strip (list_ascii_of_string s) in
  if negb (underscores_ok None l) then Raise ValueError
  else
    let l := List.filter (fun c => negb (char_eqb c "_")) l in
    let '(sg, l) :=
      match l with
      | c :: r =>
          if char_eqb c "-" then (true, r)
          else if char_eqb c "+" then (false, r) else (false, l)
      | [] => (false, l)
      end in
    match Dec.parse_number l with
    | Some (c, e) => Flt.of_decimal (DFinite sg c e)
    | None =>
        let w := lower (string_of_list_ascii l) in
        if String.eqb w "inf" || String.eqb w "infinity" then Ok (S754_infinity sg)
        else if String.eqb w "nan" then Ok S754_nan
        else Raise ValueError
    end.

(** The configuration the analysis reads, from its three values. *)
Definition analysis_settings (max_wallets : Z) (min_amount : spec_float)
    (airdrops : bool) : Config :=
  {| max_early_wallets := max_wallets; min_token_amount := min_amount;
     include_likely_airdrops := airdrops |}.

Module Env.

(** The dataclass [Config], with all its fields. *)
Record Config : Type := {
  etherscan_api_key : string;
  coingecko_api_key : option string;
  alchemy_api_key : option string;
  etherscan_base_url : string;
  coingecko_base_url : string;
  max_early_wallets : Z;
  max_transactions_per_request : Z;
  rate_limit_delay : spec_float;
  output_format : string;
  include_likely_airdrops : bool;
  min_token_amount : spec_float
}.

(** The literal [0.2]. *)
Definition lit_0_2 : spec_float := Flt.of_ratio false 1 5.

(** [Config(etherscan_api_key=key)]: the defaults of the fields. *)
Definition defaults (key : string) : Config :=
  {| etherscan_api_key := key;
     coingecko_api_key := None;
     alchemy_api_key := None;
     etherscan_base_url := "https://api.etherscan.io/api";
     coingecko_base_url := "https://api.coingecko.com/api/v3";
     max_early_wallets := 50;
     max_transactions_per_request := 10000;
     rate_limit_delay := lit_0_2;
     output_format := "table";
     include_likely_airdrops := true;
     min_token_amount := S754_zero false |}.

(** The environment: the variables that are set, with their values. *)
Definition environ : Type := gmap string string.

(** [os.getenv(name, default)]. *)
Definition getenv (env : environ) (name default : string) : string :=
  match env !! name with Some v => v | None => default end.

(** [Config.from_env()]. *)
Definition from_env (env : environ) : res Config :=
  match env !! "ETHERSCAN_API_KEY" with
  | None => Raise ValueError
  | Some etherscan_key =>
      if String.eqb etherscan_key "" then Raise ValueError
      else
        let* mew := py_int (getenv env "MAX_EARLY_WALLETS" "50") in
        let* mtr := py_int (getenv env "MAX_TRANSACTIONS_PER_REQUEST" "10000") in
        let* rld := py_float (getenv env "RATE_LIMIT_DELAY" "0.2") in
        let* mta := py_float (getenv env "MIN_TOKEN_AMOUNT" "0.0") in
        Ok {| etherscan_api_key := etherscan_key;
              coingecko_api_key := env !! "COINGECKO_API_KEY";
              alchemy_api_key := env !! "ALCHEMY_API_KEY";
              etherscan_base_url := "https://api.etherscan.io/api";
              coingecko_base_url := "https://api.coingecko.com/api/v3";
              max_early_wallets := mew;
              max_transactions_per_request := mtr;
              rate_limit_delay := rld;
              output_format := getenv env "OUTPUT_FORMAT" "table";
              include_likely_airdrops :=
                String.eqb (lower (getenv env "INCLUDE_LIKELY_AIRDROPS" "true"))
                           "true";
              min_token_amount := mta |}
  end.

(** The fields the analysis reads. *)
Definition analysis_view (c : Config) :=
  analysis_settings (max_early_wallets c) (min_token_amount c)
                    (include_likely_airdrops c).

(** The variables [from_env] reads besides the API key. *)
Definition optional_variables : list string :=
  ["COINGECKO_API_KEY"; "ALCHEMY_API_KEY"; "MAX_EARLY_WALLETS";
   "MAX_TRANSACTIONS_PER_REQUEST"; "RATE_LIMIT_DELAY"; "OUTPUT_FORMAT";
   "INCLUDE_LIKELY_AIRDROPS"; "MIN_TOKEN_AMOUNT"].

End Env.

Section EnvFacts.

Lemma py_int_raises (s : string) (e : exn) : py_int s = Raise e -> e = ValueError.
Proof.
  unfold py_int.
  destruct (match strip (list_ascii_of_string s) with
            | [] => _ | _ :: _ => _ end) as [neg l].
  destruct l as [|d r]; [congruence|].
  destruct (is_digit d); [|congruence].
  destruct (int_digits r (digit_val d)); congruence.
Qed.

Lemma of_decimal_finite (s : bool) (c : N) (e : Z) :
  exists f, Flt.of_decimal (DFinite s c e) = Ok f.
Proof.
  unfold Flt.of_decimal. destruct c as [|p]; [eexists; reflexivity|].
  destruct (0 <=? e); [eexists; reflexivity|].
  destruct (Dec.p10 (- e)); eexists; reflexivity.
Qed.

Lemma py_float_raises (s : string) (e : exn) :
  py_float s = Raise e -> e = ValueError.
Proof.
  unfold py_float.
  destruct (negb (underscores_ok None (strip (list_ascii_of_string s))));
    [congruence|].
  destruct (match List.filter _ (strip (list_ascii_of_string s)) with
            | [] => _ | _ :: _ => _ end) as [sg l].
  destruct (Dec.parse_number l) as [[c x]|].
  - destruct (of_decimal_finite sg c x) as [f ->]. discriminate.
  - destruct (_ || _); [discriminate|].
    destruct (String.eqb _ "nan"); congruence.
Qed.

End EnvFacts.

(** X21. [Config.from_env] raises nothing but [ValueError]: for a
    missing or empty API key, and for a numeric variable that [int] or
    [float] does not accept. So the [except ValueError] clause of
    [load_config] handles every failure of it. *)
Theorem from_env_raises_value_error (env : Env.environ) (e : exn) :
  Env.from_env env = Raise e -> e = ValueError.
Proof.
  unfold Env.from_env.
  destruct (env !! "ETHERSCAN_API_KEY") as [key|]; [|congruence].
  destruct (String.eqb key ""); [congruence|].
  destruct (py_int (Env.getenv env "MAX_EARLY_WALLETS" "50")) as [mew|x] eqn:H1;
    cbn [rbind]; [|intros [= <-]; exact (py_int_raises _ _ H1)].
  destruct (py_int (Env.getenv env "MAX_TRANSACTIONS_PER_REQUEST" "10000"))
    as [mtr|x] eqn:H2; cbn [rbind]; [|intros [= <-]; exact (py_int_raises _ _ H2)].
  destruct (py_float (Env.getenv env "RATE_LIMIT_DELAY" "0.2")) as [rld|x] eqn:H3;
    cbn [rbind]; [|intros [= <-]; exact (py_float_raises _ _ H3)].
  destruct (py_float (Env.getenv env "MIN_TOKEN_AMOUNT" "0.0")) as [mta|x] eqn:H4;
    cbn [rbind]; [discriminate | intros [= <-]; exact (py_float_raises _ _ H4)].
Qed.

(** X21 on an environment whose limit of wallets is no number. *)
Lemma from_env_raises_value_error_witness :
  Env.from_env {[ "ETHERSCAN_API_KEY" := "key"; "MAX_EARLY_WALLETS" := "fifty" ]}
  = Raise ValueError.
Proof.
  pose proof (from_env_raises_value_error
                {[ "ETHERSCAN_API_KEY" := "key"; "MAX_EARLY_WALLETS" := "fifty" ]})
    as Hv.
  destruct (Env.from_env _) as [c|e] eqn:Hrun; [vm_compute in Hrun; discriminate|].
  now rewrite (Hv e).
Defined.

(** X22. With the API key set and none of the other variables,
    [Config.from_env] returns the configuration of the dataclass
    defaults: the default strings it passes to [int] and [float] stand
    for the default values of the fields. Its analysis settings are 50
    wallets, no minimum amount, airdrops included. *)
Theorem from_env_defaults (env : Env.environ) (key : string) :
  env !! "ETHERSCAN_API_KEY" = Some key -> key <> "" ->
  Forall (fun name => env !! name = None) Env.optional_variables ->
  Env.from_env env = Ok (Env.defaults key)
  /\ Env.analysis_view (Env.defaults key) = default_config.
Proof.
  intros Hkey Hne Hopt. split; [|reflexivity].
  unfold Env.optional_variables in Hopt.
  repeat (apply Forall_cons in Hopt as [? Hopt]).
  unfold Env.from_env, Env.getenv.
  rewrite Hkey, (proj2 (String.eqb_neq key "") Hne).
  repeat match goal with Hn : _ !! _ = None |- _ => rewrite Hn; clear Hn end.
  change (py_int "50") with (Ok 50). change (py_int "10000") with (Ok 10000).
  cbn [rbind].
  replace (py_float "0.2") with (Ok Env.lit_0_2) by (vm_compute; reflexivity).
  replace (py_float "0.0") with (Ok (S754_zero false)) by (vm_compute; reflexivity).
  reflexivity.
Qed.

(** X22 on the environment that sets the API key only. *)
Lemma from_env_defaults_witness :
  Env.from_env {[ "ETHERSCAN_API_KEY" := "key" ]} = Ok (Env.defaults "key")
  /\ Env.analysis_view (Env.defaults "key") = default_config.
Proof.
  apply (from_env_defaults {[ "ETHERSCAN_API_KEY" := "key" ]} "key").
  - reflexivity.
  - discriminate.
  - repeat constructor.
Defined.

(* ===================================================================== *)
(** * Number formatting ([utils.py], lines 359-378) *)
(* ===================================================================== *)

(** [a == b] for two [Decimal]s: an equality test signals
    [InvalidOperation] on a signaling NaN only; a quiet NaN is equal to
    nothing. *)
Definition decimal_eq (a b : Decimal) : res bool :=
  match a, b with
  | DNaN true, _ | _, DNaN true => Raise DecInvalidOperation
  | DNaN false, _ | _, DNaN false => Ok false
  | _, _ => let* c := Dec.cmp a b in Ok (match c with Eq => true | _ => false end)
  end.

(** The float of an [int] that floats represent exactly. *)
Definition float_of_int (n : Z) : spec_float :=
  binary_normalize Flt.fprec Flt.femax n 0 false.

(** [x / y] for floats, [y] not zero. *)
Definition float_div (x y : spec_float) : spec_float :=
  SFdiv Flt.fprec Flt.femax x y.

(** The integer nearest to [m * 2^e * 100], ties to even. *)
Definition hundredths (m : positive) (e : Z) : Z :=
  if 0 <=? e then Zpos m * 2 ^ e * 100
  else
    let d := 2 ^ (- e) in
    let q := Zpos m * 100 / d in
    let r := (Zpos m * 100) mod d in
    match 2 * r ?= d with
    | Lt => q
    | Gt => q + 1
    | Eq => if Z.even q then q else q + 1
    end.

(** [f"{x:.2f}"]: the decimal expansion of the float, correctly rounded
    to two places; the sign of a negative zero is kept. *)
Definition fixed2 (x : spec_float) : string :=
  match x with
  | S754_nan => "nan"
  | S754_infinity s => (if s then "-" else "") +:+ "inf"
  | S754_zero s => (if s then "-" else "") +:+ "0.00"
  | S754_finite s m e =>
      let ds := Dec.digits_of (Z.to_N (hundredths m e)) in
      let ds := Dec.zeros (3 - Z.of_nat (String.length ds)) +:+ ds in
      let n := (String.length ds - 2)%nat in
      (if s then "-" else "") +:+ substring 0 n ds +:+ "." +:+ string_drop n ds
  end.

(** The [try] block of [format_number(number)], the second parameter
    left at its default [decimals = 2], as in every call of the
    repository. *)
Definition format_number_body (number : Decimal) : res string :=
  let* zero := decimal_eq number (Dec.of_Z 0) in
  if zero then Ok "0"
  else
    let* num := Flt.of_decimal number in
    if Flt.leb (float_of_int 1000000000) num
    then Ok (fixed2 (float_div num (float_of_int 1000000000)) +:+ "B")
    else if Flt.leb (float_of_int 1000000) num
    then Ok (fixed2 (float_div num (float_of_int 1000000)) +:+ "M")
    else if Flt.leb (float_of_int 1000) num
    then Ok (fixed2 (float_div num (float_of_int 1000)) +:+ "K")
    else Ok (fixed2 num).

(** [format_number]: [str(number)] when the block raises [ValueError],
    [TypeError] or [OverflowError]. *)
Definition format_number (number : Decimal) : res string :=
  try_except (format_number_body number)
    [ValueError; TypeError; OverflowError]
    (Ok (Dec.to_string number)).

Section FormatFacts.

Lemma decimal_eq_zero_ok (number : Decimal) :
  number <> DNaN true -> exists b, decimal_eq number (Dec.of_Z 0) = Ok b.
Proof.
  intros Hn. destruct number as [s c e|s|[|]]; [ | |contradiction|];
    eexists; reflexivity.
Qed.

Lemma body_ok (number : Decimal) :
  number <> DNaN true -> exists s, format_number_body number = Ok s.
Proof.
  intros Hn. unfold format_number_body.
  destruct (decimal_eq_zero_ok number Hn) as [b ->]. cbn [rbind].
  destruct b; [eexists; reflexivity|].
  assert (Hf : exists f, Flt.of_decimal number = Ok f).
  { destruct number as [s c e|s|[|]]; [apply of_decimal_finite | | contradiction |];
      eexists; reflexivity. }
  destruct Hf as [f ->]. cbn [rbind].
  destruct (Flt.leb (float_of_int 1000000000) f); [eexists; reflexivity|].
  destruct (Flt.leb (float_of_int 1000000) f); [eexists; reflexivity|].
  destruct (Flt.leb (float_of_int 1000) f); eexists; reflexivity.
Qed.

(** A negative float is below every threshold of the suffixes. *)
Lemma negative_below (x : spec_float) (k : Z) :
  SFltb x Flt.zero = true ->
  In k [1000; 1000000; 1000000000] -> Flt.leb (float_of_int k) x = false.
Proof.
  intros Hx Hk.
  assert (Hc : exists m e, float_of_int k = S754_finite false m e).
  { simpl in Hk. destruct Hk as [<-|[<-|[<-|[]]]]; eexists _, _; vm_compute; reflexivity. }
  destruct Hc as (m & e & ->).
  destruct x as [s|s| |s m' e']; try discriminate.
  - destruct s; [reflexivity | discriminate].
  - destruct s; [reflexivity | discriminate].
Qed.

Lemma negative_not_zero (number : Decimal) (x : spec_float) :
  Flt.of_decimal number = Ok x -> SFltb x Flt.zero = true ->
  decimal_eq number (Dec.of_Z 0) = Ok false.
Proof.
  destruct number as [s c e|s|[|]]; simpl Flt.of_decimal.
  - destruct c as [|p]; [intros [= <-]; destruct s; discriminate|].
    intros _ _. unfold decimal_eq, Dec.of_Z, Dec.cmp, Dec.cmp_finite.
    cbn [rbind]. change (Z.abs_N 0) with 0%N. rewrite N.mul_0_l.
    change (Dec.signedZ (0 <? 0) 0) with 0.
    pose proof (p10_pos (e - Z.min e 0)) as Hp.
    assert (Hnz : Dec.signedZ s (N.pos p * Dec.p10 (e - Z.min e 0)) <> 0)
      by (unfold Dec.signedZ; destruct s; lia).
    destruct (Z.compare_spec (Dec.signedZ s (N.pos p * Dec.p10 (e - Z.min e 0))) 0);
      [contradiction | reflexivity | reflexivity].
  - intros [= <-]. destruct s; [reflexivity | discriminate].
  - discriminate.
  - intros [= <-]. discriminate.
Qed.

End FormatFacts.

(** X23. [format_number] never falls back on [str(number)]: on a
    signaling NaN the comparison with zero raises [InvalidOperation],
    which its [except] clause does not name, and on every other number
    the [try] block returns a string. *)
Theorem format_number_never_falls_back (number : Decimal) :
  (number = DNaN true /\ format_number number = Raise DecInvalidOperation)
  \/ (number <> DNaN true
      /\ exists s, format_number_body number = Ok s
                   /\ format_number number = Ok s).
Proof.
  assert (Hcase : number = DNaN true \/ number <> DNaN true).
  { destruct number as [s c e|s|[|]]; [right | right | left | right];
      (reflexivity || discriminate). }
  destruct Hcase as [-> | Hn].
  - left. split; reflexivity.
  - right. split; [exact Hn|].
    destruct (body_ok number Hn) as [s Hs]. exists s. split; [exact Hs|].
    unfold format_number. now rewrite Hs.
Qed.

(** X24. The edge cases of [format_number]: every zero, whatever its
    sign and exponent, is printed as [0]; a quiet NaN as [nan]; the
    positive infinity as [infB] and the negative one, which is below
    every threshold, as [-inf]. *)
Theorem format_number_edge_cases :
  (forall s e, format_number (DFinite s 0 e) = Ok "0")
  /\ format_number (DNaN false) = Ok "nan"
  /\ format_number (DInf false) = Ok "infB"
  /\ format_number (DInf true) = Ok "-inf".
Proof.
  split; [|repeat split; vm_compute; reflexivity].
  intros s e. unfold format_number, format_number_body, decimal_eq.
  unfold Dec.cmp, Dec.of_Z, Dec.cmp_finite. cbn [rbind].
  rewrite N.mul_0_l. change (Z.abs_N 0) with 0%N. rewrite N.mul_0_l.
  destruct s; reflexivity.
Qed.

(** X25. A number whose float is negative gets no suffix, however large
    its magnitude: it is printed in full with two decimal places. *)
Theorem format_number_negative (number : Decimal) (x : spec_float) :
  Flt.of_decimal number = Ok x -> SFltb x Flt.zero = true ->
  format_number number = Ok (fixed2 x).
Proof.
  intros Hx Hneg. unfold format_number, format_number_body.
  rewrite (negative_not_zero number x Hx Hneg), Hx. cbn [rbind].
  rewrite !(negative_below x) by (exact Hneg || (simpl; tauto)).
  reflexivity.
Qed.

(** X25 on minus five million. *)
Lemma format_number_negative_witness :
  format_number (Dec.of_Z (-5000000)) = Ok "-5000000.00".
Proof.
  apply (format_number_negative (Dec.of_Z (-5000000))
           (S754_finite true 5368709120000000 (-30)));
    vm_compute; reflexivity.
Defined.

(* ===================================================================== *)
(** * Cost estimates in the report, and malformed rows *)
(* ===================================================================== *)

Section CostFacts.
Context `{Platform}.

Lemma with_cost_no_price (e : WalletAnalysis) (p : spec_float) :
  Flt.ltb Flt.zero p = false -> with_cost e p = Ok e.
Proof. intros Hp. unfold with_cost. now rewrite Hp, andb_false_r. Qed.

Lemma eligible_no_estimate (cfg : Config) (item : string * list WalletTransaction)
    (e : WalletAnalysis) :
  eligible cfg item = Some e -> estimated_usd_value e = None.
Proof.
  unfold eligible.
  destruct (analyze_wallet_transactions (fst item) (snd item) (Some cfg))
    as [a|] eqn:Ha; [|discriminate].
  destruct (Dec.ge _ _) as [[|]|]; try discriminate. intros [= <-].
  apply analyze_inv, analyze_body_inv in Ha
    as (first & rest & _ & _ & _ & _ & _ & _ & _ & _ & Hc & _).
  exact Hc.
Qed.

Lemma costed_no_price (cfg : Config) (p : spec_float)
    (kept es : list WalletAnalysis) :
  Flt.ltb Flt.zero p = false ->
  Forall2 (costed p) kept es ->
  Forall (fun e => estimated_usd_value e = None) es ->
  Forall (fun a => estimated_usd_value a = None) kept.
Proof.
  intros Hp. induction 1 as [|a e kept es Hc HF IH]; intros Hes; [constructor|].
  apply Forall_cons in Hes as [He Hes].
  constructor; [|now apply IH].
  unfold costed in Hc. rewrite (with_cost_no_price e p Hp) in Hc.
  injection Hc as <-. exact He.
Qed.

(** The estimate of a first transaction with gas data, at a positive
    price, when the gas price is no number: the conversion raises. *)
Lemma with_cost_bad_gas_price (a : WalletAnalysis) (p : spec_float)
    (gu : Z) (gp : string) (e : exn) :
  gas_used (first_transaction a) = Some gu -> gu <> 0 ->
  gas_price (first_transaction a) = Some gp -> gp <> "" ->
  Dec.of_string gp = Raise e -> Flt.ltb Flt.zero p = true ->
  with_cost a p = Raise DecInvalidOperation.
Proof.
  intros Hgu Hnz Hgp Hne Hbad Hp. unfold with_cost.
  rewrite Hgu, Hgp, Hp. unfold falsy_int, falsy_str.
  rewrite (proj2 (Z.eqb_neq gu 0) Hnz), (proj2 (String.eqb_neq gp "") Hne).
  cbn [negb andb].
  unfold estimate_transaction_cost_usd, falsy_int, falsy_str, price_le_zero.
  rewrite (proj2 (Z.eqb_neq gu 0) Hnz), (proj2 (String.eqb_neq gp "") Hne).
  assert (Hle : Flt.leb p Flt.zero = false).
  { unfold Flt.ltb, Flt.leb, SFltb, SFleb, Flt.zero in *.
    destruct p as [s|s| |s m x]; try discriminate; destruct s; try discriminate;
      reflexivity. }
  rewrite Hle. cbn [rbind].
  rewrite wei_to_ether_unfold, Hbad. cbn [rbind].
  rewrite (of_string_raises gp e Hbad). reflexivity.
Qed.

End CostFacts.

(** X26. When the ETH price is not positive (the price service gave 0),
    no wallet of the report has a cost estimate. *)
Theorem no_price_no_estimates `{Platform} (token : TokenInfo)
    (raw_transactions : list raw_tx) (eth_price_usd : spec_float)
    (config : Config) (now : datetime) (report : TokenAnalysis) :
  Flt.ltb Flt.zero eth_price_usd = false ->
  analyze_token_interactions token raw_transactions eth_price_usd config now
  = Ok report ->
  Forall (fun a => estimated_usd_value a = None) (earliest_wallets report).
Proof.
  intros Hp Hrun.
  apply report_inv in Hrun as (transactions & kept & k & _ & HF & -> & _).
  apply Forall_take. rewrite (sort_by_key_perm first_block kept).
  eapply (costed_no_price config); [exact Hp | exact HF |].
  apply Forall_take, Forall_forall. intros e He.
  apply list_elem_of_omap in He as (item & _ & He).
  now apply eligible_no_estimate in He.
Qed.

(** X26 on a history of two transfers, at price 0. *)
Lemma no_price_no_estimates_witness :
  exists report,
    analyze_token_interactions (H := RefPlatform.platform) sample_token
      [row_b_50; row_a_100] (S754_zero false) default_config 0 = Ok report
    /\ List.length (earliest_wallets report) = 2%nat
    /\ Forall (fun a => estimated_usd_value a = None) (earliest_wallets report).
Proof.
  eexists. split; [vm_compute; reflexivity|]. split; [vm_compute; reflexivity|].
  apply (no_price_no_estimates (H := RefPlatform.platform) sample_token
           [row_b_50; row_a_100] (S754_zero false) default_config 0).
  - reflexivity.
  - vm_compute. reflexivity.
Defined.

(** X27. A row whose timestamp [int] does not accept is skipped: the
    [ValueError] is caught by the loop, and the result is that of the
    history without the row. *)
Theorem row_with_bad_timestamp_skipped `{Platform} (pre post : list raw_tx)
    (tx : raw_tx) (token : TokenInfo) (ts : string) (e : exn) :
  forallb (has_field tx) required_fields = true ->
  tx !! "timeStamp" = Some ts -> py_int ts = Raise e ->
  parse_etherscan_transactions (pre ++ tx :: post) token
  = parse_etherscan_transactions (pre ++ post) token.
Proof.
  intros Hall Hts Hbad. rewrite !parse_unfold, !parse_loop_app.
  destruct (parse_loop pre token []) as [mid|x]; cbn [rbind]; [|reflexivity].
  cbn [parse_loop].
  assert (Hrow : parse_row tx token = Raise ValueError).
  { unfold parse_row, getitem. rewrite Hall, Hts. cbn [negb rbind].
    rewrite Hbad. cbn [rbind]. now rewrite (py_int_raises ts e Hbad). }
  now rewrite Hrow.
Qed.

(** A row whose timestamp is written in hexadecimal. *)
Definition row_hex_timestamp : raw_tx :=
  raw_row "0x5f5e100" "1000000000000000000000" "0xcc" "150"
          uniswap_v2_router wallet_a.

(** X27 on that row. *)
Lemma row_with_bad_timestamp_skipped_witness :
  parse_etherscan_transactions (H := RefPlatform.platform)
    ([row_b_50] ++ row_hex_timestamp :: [row_a_100]) sample_token
  = parse_etherscan_transactions (H := RefPlatform.platform)
      ([row_b_50] ++ [row_a_100]) sample_token.
Proof.
  apply (row_with_bad_timestamp_skipped (H := RefPlatform.platform)
           [row_b_50] [row_a_100] row_hex_timestamp sample_token
           "0x5f5e100" ValueError);
    vm_compute; reflexivity.
Defined.

(** X28. A gas price that is no number aborts the analysis. When the
    loop of [analyze_token_interactions] reaches a wallet that it keeps
    and whose first transaction has gas data with such a gas price, at a
    positive ETH price, the cost estimate raises [InvalidOperation];
    neither [wei_to_ether] nor [estimate_transaction_cost_usd] nor the
    loop catches it, so the loop ends with that exception whatever
    follows. *)
Theorem bad_gas_price_aborts_analysis `{Platform} (w : string)
    (txs : list WalletTransaction) (rest : wallet_dict WalletTransaction)
    (config : Config) (eth_price_usd : spec_float)
    (acc : list WalletAnalysis) (a : WalletAnalysis)
    (gu : Z) (gp : string) (e : exn) :
  Z.of_nat (List.length acc) < max_early_wallets config ->
  eligible config (w, txs) = Some a ->
  gas_used (first_transaction a) = Some gu -> gu <> 0 ->
  gas_price (first_transaction a) = Some gp -> gp <> "" ->
  Dec.of_string gp = Raise e -> Flt.ltb Flt.zero eth_price_usd = true ->
  analysis_loop ((w, txs) :: rest) config eth_price_usd acc
  = Raise DecInvalidOperation.
Proof.
  intros Hroom Hel Hgu Hnz Hgp Hne Hbad Hp. cbn [analysis_loop].
  rewrite (proj2 (Z.leb_gt _ _) Hroom).
  unfold eligible in Hel. cbn [fst snd] in Hel.
  destruct (analyze_wallet_transactions w txs (Some config)) as [a'|];
    [|discriminate].
  destruct (Dec.ge (total_received a') (Flt.to_decimal (min_token_amount config)))
    as [[|]|]; try discriminate.
  injection Hel as ->. cbn [rbind].
  now rewrite (with_cost_bad_gas_price a eth_price_usd gu gp e).
Qed.

(** A transfer whose gas price is written with its unit. *)
Definition transfer_gwei : WalletTransaction :=
  {| wallet_address := wallet_b; tx_hash := "0xhash"; block_number := 100;
     timestamp := 1600000000; token_amount := thousand_tokens;
     token_amount_raw := "1000000000000000000000"; direction := "in";
     from_address := uniswap_v2_router; to_address := wallet_b;
     gas_used := Some 21000; gas_price := Some "20 gwei" |}.

(** X28 on a dictionary whose first wallet has that transfer. *)
Lemma bad_gas_price_aborts_analysis_witness :
  analysis_loop (H := RefPlatform.platform)
    ((wallet_b, [transfer_gwei])
       :: [(wallet_a, [transfer uniswap_v2_router wallet_a 120 thousand_tokens])])
    default_config price_2000 []
  = Raise DecInvalidOperation.
Proof.
  eapply (bad_gas_price_aborts_analysis (H := RefPlatform.platform) wallet_b
            [transfer_gwei] _ default_config price_2000 [] _ 21000 "20 gwei"
            DecInvalidOperation);
    try (vm_compute; reflexivity); discriminate.
Defined.

(* ===================================================================== *)
(** * From the transfers to the entries of the report *)
(* ===================================================================== *)

Section EntryFacts.
Context `{Platform}.

Lemma dict_get_entry {A} (w : string) (l : list A) (d : wallet_dict A) :
  NoDup (map fst d) -> (w, l) ∈ d -> dict_get w d = l.
Proof.
  induction d as [|[k l'] d IH]; intros Hnd Hin.
  - now apply elem_of_nil in Hin.
  - simpl in Hnd. apply NoDup_cons in Hnd as [Hk Hnd].
    apply elem_of_cons in Hin as [Heq | Hin]; simpl.
    + injection Heq as -> ->. now rewrite String.eqb_refl.
    + destruct (String.eqb w k) eqn:Hwk; [|now apply IH].
      apply String.eqb_eq in Hwk. subst k. exfalso. apply Hk.
      apply list_elem_of_fmap. exists (w, l). split; [reflexivity | exact Hin].
Qed.

Lemma with_cost_count (a e : WalletAnalysis) (p : spec_float) :
  with_cost e p = Ok a -> transaction_count a = transaction_count e.
Proof.
  unfold with_cost.
  destruct (_ && _ && _); [|now intros [= <-]].
  destruct (estimate_transaction_cost_usd _ _ _); cbn [rbind]; [|discriminate].
  now intros [= <-].
Qed.

(** The summary kept for a dictionary entry counts the records of the
    entry, and its first transaction is one of them. *)
Lemma eligible_entry (cfg : Config) (w : string) (txs : list WalletTransaction)
    (e : WalletAnalysis) :
  eligible cfg (w, txs) = Some e ->
  wa_wallet_address e = w
  /\ transaction_count e = Z.of_nat (List.length txs)
  /\ first_transaction e ∈ txs.
Proof.
  unfold eligible. cbn [fst snd].
  destruct (analyze_wallet_transactions w txs (Some cfg)) as [a|] eqn:Ha;
    [|discriminate].
  destruct (Dec.ge _ _) as [[|]|]; try discriminate. intros [= <-].
  apply analyze_inv, analyze_body_inv in Ha
    as (first & rest & Hs & _ & _ & _ & Hw & Hf & Hn & _).
  split; [exact Hw|]. split.
  - rewrite Hn, <- Hs. now rewrite (sort_by_key_perm block_number txs).
  - rewrite Hf. now apply sorted_head_min in Hs as [Hin _].
Qed.

End EntryFacts.

(** X29. Every entry of a report is about the records the grouper
    emitted for its wallet, out of all parsed transfers: its
    [transaction_count] is their number (the transfers the wallet
    received, and those it sent unless it is a likely contract), and its
    first transaction is one of them. *)
Theorem report_entries_count_emitted `{Platform} (token : TokenInfo)
    (raw_transactions : list raw_tx) (eth_price_usd : spec_float)
    (config : Config) (now : datetime) (report : TokenAnalysis) :
  analyze_token_interactions token raw_transactions eth_price_usd config now
  = Ok report ->
  exists transactions,
    parse_etherscan_transactions raw_transactions token = Ok transactions
    /\ Forall (fun a =>
                 let records :=
                   flat_map (emitted_for (wa_wallet_address a)) transactions in
                 transaction_count a = Z.of_nat (List.length records)
                 /\ first_transaction a ∈ records)
              (earliest_wallets report).
Proof.
  intros Hrun.
  apply report_inv in Hrun as (transactions & kept & k & Hparse & HF & -> & _).
  exists transactions. split; [exact Hparse|].
  apply Forall_take. rewrite (sort_by_key_perm first_block kept).
  apply Forall_forall. intros a Ha.
  destruct (Forall2_elem_l _ _ _ _ HF Ha) as (e & He & Hcost).
  pose proof (elem_of_sublist _ _ _ He (sublist_take _ _)) as He'.
  clear He. unfold costed in Hcost.
  apply list_elem_of_omap in He' as ([w txs] & Hitem & Hel).
  apply eligible_entry in Hel as (Hw & Hn & Hfirst).
  pose proof (with_cost_fields a e eth_price_usd Hcost) as (Hwa & _).
  pose proof (with_cost_count a e eth_price_usd Hcost) as Hcount.
  pose proof (with_cost_first a e eth_price_usd Hcost) as Hft.
  assert (Hnd : NoDup (map fst (group_transactions_by_wallet transactions)))
    by (apply (group_fold_grouped transactions []); split; constructor).
  pose proof (dict_get_entry w txs _ Hnd Hitem) as Hget.
  unfold group_transactions_by_wallet in Hget.
  rewrite (dict_get_fold_group w transactions []) in Hget. simpl in Hget.
  cbv zeta. rewrite Hwa, Hw, Hcount, Hft, Hget. now split.
Qed.

(** X29 on a history of two transfers to one wallet. *)
Lemma report_entries_count_emitted_witness :
  exists report,
    analyze_token_interactions (H := RefPlatform.platform) sample_token
      [row_b_50; row_b_buy] price_2000 default_config 0 = Ok report
    /\ map transaction_count (earliest_wallets report) = [2]
    /\ exists transactions,
         parse_etherscan_transactions (H := RefPlatform.platform)
           [row_b_50; row_b_buy] sample_token = Ok transactions
         /\ Forall (fun a =>
                      let records :=
                        flat_map (emitted_for (wa_wallet_address a)) transactions in
                      transaction_count a = Z.of_nat (List.length records)
                      /\ first_transaction a ∈ records)
                   (earliest_wallets report).
Proof.
  eexists. split; [vm_compute; reflexivity|]. split; [vm_compute; reflexivity|].
  apply (report_entries_count_emitted (H := RefPlatform.platform) sample_token
           [row_b_50; row_b_buy] price_2000 default_config 0).
  vm_compute. reflexivity.
Defined.
